(** * LLM inference gateway: provider adapter, quota gate and streaming relay

    A shallow embedding of the request-relay core of the gateway
    (services/anthropic.go, services/llm.go and the cache service) together
    with the properties its specification states about it. *)

From Stdlib Require Import ZArith Floats Uint63 Ascii String List Bool Lia.
From Stdlib Require Import DecimalString DecimalZ DecimalPos DecimalFacts.
From stdpp Require Import gmap strings list.

Local Open Scope Z_scope.
Set Warnings "-register-all".

(** ** Go runtime values used by the code *)

Module Go.

(** Go's [int] and [int64] on the 64-bit targets the service is built for. *)
Definition min_int64 : Z := - 2 ^ 63.
Definition max_int64 : Z := 2 ^ 63 - 1.

Definition in_int64 (z : Z) : Prop := min_int64 <= z <= max_int64.

Definition wrap64 (z : Z) : Z := (z + 2 ^ 63) mod 2 ^ 64 - 2 ^ 63.

(** [a + b] on Go ints: two's complement, silently wrapping. *)
Definition int_add (a b : Z) : Z := wrap64 (a + b).

(** [float64(n)] for an [int] n: the nearest binary64 value. *)
Definition float64_of_int (z : Z) : float :=
  if z =? min_int64 then (- 0x1p63)%float
  else if z <? 0 then PrimFloat.opp (PrimFloat.of_uint63 (Uint63.of_Z (- z)))
  else PrimFloat.of_uint63 (Uint63.of_Z z).

(** A finite float64: neither NaN nor an infinity. *)
Definition is_finite (f : float) : bool :=
  negb (PrimFloat.is_nan f) && negb (PrimFloat.is_infinity f).

End Go.

(** ** Package strings, on byte strings *)

Module Strings.

Local Open Scope nat_scope.

Definition LF : ascii := "010"%char.
Definition nl : string := String LF EmptyString.
Definition nlnl : string := String LF (String LF EmptyString).

(** [strings.HasPrefix(s, prefix)] *)
Fixpoint HasPrefix (s prefix : string) : bool :=
  match prefix with
  | EmptyString => true
  | String p ps =>
      match s with
      | EmptyString => false
      | String c cs => Ascii.eqb c p && HasPrefix cs ps
      end
  end.

(** [s[n:]] (the whole of [s] is dropped when it is shorter than [n]). *)
Fixpoint drop (n : nat) (s : string) : string :=
  match n, s with
  | O, _ => s
  | S _, EmptyString => EmptyString
  | S k, String _ r => drop k r
  end.

(** [strings.TrimPrefix(s, prefix)] *)
Definition TrimPrefix (s prefix : string) : string :=
  if HasPrefix s prefix then drop (String.length prefix) s else s.

(** [strings.HasSuffix(s, suffix)]:
    [len(s) >= len(suffix) && s[len(s)-len(suffix):] == suffix] *)
Definition HasSuffix (s suffix : string) : bool :=
  (String.length suffix <=? String.length s)
  && String.eqb (drop (String.length s - String.length suffix) s) suffix.

(** [strings.Contains(s, substr)] *)
Fixpoint Contains (s substr : string) : bool :=
  HasPrefix s substr
  || match s with
     | EmptyString => false
     | String _ r => Contains r substr
     end.

(** [strings.Split(s, sep)] for a non-empty separator, as at both call sites:
    the fields between the non-overlapping occurrences of [sep], found from
    the left.  [skip] counts the bytes of a separator still to be passed over
    and [cur] is the field read so far. *)
Fixpoint split_from (sep : string) (skip : nat) (cur s : string) : list string :=
  match s with
  | EmptyString => [cur]
  | String c r =>
      match skip with
      | S k => split_from sep k cur r
      | O =>
          if HasPrefix s sep
          then cur :: split_from sep (String.length sep - 1) EmptyString r
          else split_from sep 0 (cur +:+ String c EmptyString) r
      end
  end.

Definition Split (s sep : string) : list string := split_from sep 0 EmptyString s.

(** [strings.TrimSpace]: white space as Unicode defines it, read off the
    UTF-8 bytes.  The ASCII spaces are TAB, LF, VT, FF, CR and SPACE; the
    others are U+0085, U+00A0 (two bytes) and U+1680, U+2000..U+200A, U+2028,
    U+2029, U+202F, U+205F, U+3000 (three bytes). *)
Definition is_ascii_space (c : ascii) : bool :=
  let n := nat_of_ascii c in ((9 <=? n) && (n <=? 13)) || (n =? 32).

Definition is_space2 (a b : ascii) : bool :=
  (nat_of_ascii a =? 194) && ((nat_of_ascii b =? 133) || (nat_of_ascii b =? 160)).

Definition is_space3 (a b c : ascii) : bool :=
  let '(x, y, z) := (nat_of_ascii a, nat_of_ascii b, nat_of_ascii c) in
  ((x =? 225) && (y =? 154) && (z =? 128))
  || ((x =? 226) && (y =? 128)
      && (((128 <=? z) && (z <=? 138)) || (z =? 168) || (z =? 169) || (z =? 175)))
  || ((x =? 226) && (y =? 129) && (z =? 159))
  || ((x =? 227) && (y =? 128) && (z =? 128)).

(** Width in bytes of the white-space rune a byte sequence starts with,
    0 when it starts with none. *)
Definition space_at_head (bs : list ascii) : nat :=
  match bs with
  | a :: rest =>
      if is_ascii_space a then 1
      else match rest with
           | b :: rest2 =>
               if is_space2 a b then 2
               else match rest2 with
                    | c :: _ => if is_space3 a b c then 3 else 0
                    | [] => 0
                    end
           | [] => 0
           end
  | [] => 0
  end.

(** The same for the rune a byte sequence ends with, on the reversed bytes. *)
Definition space_at_end (rbs : list ascii) : nat :=
  match rbs with
  | c :: rest =>
      if is_ascii_space c then 1
      else match rest with
           | b :: rest2 =>
               if is_space2 b c then 2
               else match rest2 with
                    | a :: _ => if is_space3 a b c then 3 else 0
                    | [] => 0
                    end
           | [] => 0
           end
  | [] => 0
  end.

Fixpoint trim_with (width : list ascii -> nat) (fuel : nat) (bs : list ascii) : list ascii :=
  match fuel with
  | O => bs
  | S k =>
      match width bs with
      | O => bs
      | w => trim_with width k (skipn w bs)
      end
  end.

Definition trim_left (bs : list ascii) : list ascii :=
  trim_with space_at_head (List.length bs) bs.

Definition trim_right (bs : list ascii) : list ascii :=
  List.rev (trim_with space_at_end (List.length bs) (List.rev bs)).

Definition TrimSpace (s : string) : string :=
  string_of_list_ascii (trim_right (trim_left (list_ascii_of_string s))).

End Strings.

(** ** Package time *)

Module Time.

(** A [time.Time]: the instant, in nanoseconds since the Unix epoch, and the
    [Location] it is shown in, taken as a fixed number of seconds east of
    UTC. *)
Record Time := {
  unixNano : Z;
  zoneOffset : Z
}.

Definition Second : Z := 1000000000.
Definition Minute : Z := 60 * Second.
Definition Hour : Z := 60 * Minute.

Definition Before (t u : Time) : bool := unixNano t <? unixNano u.

Definition Add (t : Time) (d : Z) : Time :=
  {| unixNano := unixNano t + d; zoneOffset := zoneOffset t |}.

(** Seconds from the zero time (1 January of year 1, UTC) to the Unix epoch. *)
Definition unixToInternal : Z := 62135596800.

(** [t.Truncate(d)] rounds down to a multiple of [d] since the zero time:
    it works on the instant, whatever the location. *)
Definition Truncate (t : Time) (d : Z) : Time :=
  if d <=? 0 then t
  else Add t (- ((unixNano t + unixToInternal * Second) mod d)).

(** Days from 1970-01-01 to the first of a month of the proleptic Gregorian
    calendar; [month] is 1..12. *)
Definition days_from_civil (year month : Z) : Z :=
  let y := if month <=? 2 then year - 1 else year in
  let era := y / 400 in
  let yoe := y - era * 400 in
  let doy := (153 * (if 2 <? month then month - 3 else month + 9) + 2) / 5 in
  let doe := yoe * 365 + yoe / 4 - yoe / 100 + doy in
  era * 146097 + doe - 719468.

(** Year, month and day of a day number. *)
Definition civil_from_days (days : Z) : Z * Z * Z :=
  let z := days + 719468 in
  let era := z / 146097 in
  let doe := z - era * 146097 in
  let yoe := (doe - doe / 1460 + doe / 36524 - doe / 146096) / 365 in
  let doy := doe - (365 * yoe + yoe / 4 - yoe / 100) in
  let mp := (5 * doy + 2) / 153 in
  let d := doy - (153 * mp + 2) / 5 + 1 in
  let m := if mp <? 10 then mp + 3 else mp - 9 in
  (yoe + era * 400 + (if m <=? 2 then 1 else 0), m, d).

(** Seconds since the epoch on the wall clock of the time's location. *)
Definition localSeconds (t : Time) : Z := unixNano t / Second + zoneOffset t.

Definition civil (t : Time) : Z * Z * Z := civil_from_days (localSeconds t / 86400).

Definition Year (t : Time) : Z := let '(y, _, _) := civil t in y.
Definition Month (t : Time) : Z := let '(_, m, _) := civil t in m.
Definition Day (t : Time) : Z := let '(_, _, d) := civil t in d.

(** [time.Date(year, month, day, hour, min, sec, nsec, loc)]; a month outside
    1..12 and a day outside the month carry over. *)
Definition Date (year month day hour min sec nsec offset : Z) : Time :=
  let m0 := month - 1 in
  let y := year + m0 / 12 in
  let m := m0 mod 12 + 1 in
  let days := days_from_civil y m + (day - 1) in
  {| unixNano := (days * 86400 + hour * 3600 + min * 60 + sec - offset) * Second + nsec;
     zoneOffset := offset |}.

(** [t.AddDate(years, months, days)] *)
Definition AddDate (t : Time) (years months days : Z) : Time :=
  let secs := localSeconds t mod 86400 in
  Date (Year t + years) (Month t + months) (Day t + days)
       (secs / 3600) (secs mod 3600 / 60) (secs mod 60)
       (unixNano t mod Second) (zoneOffset t).

End Time.

(** ** Package encoding/json, as far as the relay uses it *)

Module JSON.
Import Strings.

Definition DQUOTE : ascii := "034"%char.
Definition BACKSLASH : ascii := "092"%char.

(** [q s] is [s] with every apostrophe turned into a double quote, to write
    JSON text legibly. *)
Fixpoint q (s : string) : string :=
  match s with
  | EmptyString => EmptyString
  | String c r => String (if Ascii.eqb c "'"%char then DQUOTE else c) (q r)
  end.

(** The token counts of a stream event: [struct{InputTokens, OutputTokens int}]. *)
Record TokenCounts := {
  input_tokens : Z;
  output_tokens : Z
}.

Record StreamMessage := {
  MessageUsage : option TokenCounts
}.

(** [AnthropicStreamEvent]; the raw [Delta] is never read and is left out. *)
Record AnthropicStreamEvent := {
  Type_ : string;
  Usage : option TokenCounts;
  Message : option StreamMessage
}.

(** The anonymous struct [extractUsageFromSSE] decodes into. *)
Record UsageEvent := {
  UType : string;
  UInputTokens : Z;
  UOutputTokens : Z;
  UTotalTokens : Z
}.

(** [json.Unmarshal] into the two structs; [None] is a non-nil error. *)
Class Decoder := {
  unmarshalStreamEvent : string -> option AnthropicStreamEvent;
  unmarshalUsageEvent : string -> option UsageEvent
}.

(** [strconv.Itoa], which [json.Marshal] uses for an int. *)
Definition Itoa (z : Z) : string := NilEmpty.string_of_int (Z.to_int z).

(** [json.Marshal] of the [usage_update] map built by [processSSEEvent]: keys
    in sorted order, no white space. *)
Definition marshalUsageEvent (input output total : Z) : string :=
  q "{'type':'usage_update','usage':{'input_tokens':" +:+ Itoa input
  +:+ q ",'output_tokens':" +:+ Itoa output
  +:+ q ",'total_tokens':" +:+ Itoa total +:+ "}}".

(** *** A reference decoder *)

Inductive value :=
| Null
| Bool (b : bool)
| Int (z : Z)
| Real
| Str (s : string)
| Arr (vs : list value)
| Obj (fields : list (string * value)).

Definition is_ws (c : ascii) : bool :=
  Ascii.eqb c " "%char || Ascii.eqb c "009"%char || Ascii.eqb c "010"%char
  || Ascii.eqb c "013"%char.

Fixpoint skip_ws (s : string) : string :=
  match s with
  | String c r => if is_ws c then skip_ws r else s
  | EmptyString => EmptyString
  end.

Definition digit_of (c : ascii) : option (Decimal.uint -> Decimal.uint) :=
  match nat_of_ascii c with
  | 48%nat => Some Decimal.D0 | 49%nat => Some Decimal.D1 | 50%nat => Some Decimal.D2
  | 51%nat => Some Decimal.D3 | 52%nat => Some Decimal.D4 | 53%nat => Some Decimal.D5
  | 54%nat => Some Decimal.D6 | 55%nat => Some Decimal.D7 | 56%nat => Some Decimal.D8
  | 57%nat => Some Decimal.D9
  | _ => None
  end.

Fixpoint read_digits (s : string) : Decimal.uint * string :=
  match s with
  | EmptyString => (Decimal.Nil, EmptyString)
  | String c r =>
      match digit_of c with
      | Some d => let '(u, rest) := read_digits r in (d u, rest)
      | None => (Decimal.Nil, s)
      end
  end.

Definition starts_with (c : ascii) (s : string) : bool :=
  match s with
  | String c' _ => Ascii.eqb c c'
  | EmptyString => false
  end.

(** The fraction and exponent of a number, when there are any: the text left
    after them. *)
Definition read_fraction (s : string) : option string :=
  if starts_with "."%char s then
    match read_digits (drop 1 s) with
    | (Decimal.Nil, _) => None
    | (_, rest) => Some rest
    end
  else Some s.

Definition read_exponent (s : string) : option string :=
  if starts_with "e"%char s || starts_with "E"%char s then
    let s1 := drop 1 s in
    let s2 := if starts_with "+"%char s1 || starts_with "-"%char s1 then drop 1 s1 else s1 in
    match read_digits s2 with
    | (Decimal.Nil, _) => None
    | (_, rest) => Some rest
    end
  else Some s.

Definition parse_number (s : string) : option (value * string) :=
  let negative := starts_with "-"%char s in
  let s1 := if negative then drop 1 s else s in
  match read_digits s1 with
  | (Decimal.Nil, _) => None
  | (u, rest) =>
      match u with
      | Decimal.D0 (Decimal.D0 _ | Decimal.D1 _ | Decimal.D2 _ | Decimal.D3 _
                   | Decimal.D4 _ | Decimal.D5 _ | Decimal.D6 _ | Decimal.D7 _
                   | Decimal.D8 _ | Decimal.D9 _) => None
      | _ =>
          match read_fraction rest with
          | None => None
          | Some rest1 =>
              match read_exponent rest1 with
              | None => None
              | Some rest2 =>
                  if String.eqb rest2 rest
                  then Some (Int (if negative then - Z.of_uint u else Z.of_uint u), rest)
                  else Some (Real, rest2)
              end
          end
      end
  end.

Definition hex_of (c : ascii) : option N :=
  let n := N_of_ascii c in
  (if (48 <=? n) && (n <=? 57) then Some (n - 48)
   else if (65 <=? n) && (n <=? 70) then Some (n - 55)
   else if (97 <=? n) && (n <=? 102) then Some (n - 87)
   else None)%N.

(** UTF-8 for a code point of the basic plane; a surrogate becomes U+FFFD. *)
Definition utf8 (cp : N) : string :=
  let b (n : N) := ascii_of_N n in
  (if cp <? 128 then String (b cp) EmptyString
   else if cp <? 2048
   then String (b (192 + cp / 64)) (String (b (128 + cp mod 64)) EmptyString)
   else if (55296 <=? cp) && (cp <=? 57343)
   then String (b 239) (String (b 191) (String (b 189) EmptyString))
   else String (b (224 + cp / 4096))
          (String (b (128 + (cp / 64) mod 64)) (String (b (128 + cp mod 64)) EmptyString)))%N.

Definition escape_of (c : ascii) : option ascii :=
  match nat_of_ascii c with
  | 34%nat => Some DQUOTE
  | 92%nat => Some BACKSLASH
  | 47%nat => Some "/"%char
  | 98%nat => Some "008"%char
  | 102%nat => Some "012"%char
  | 110%nat => Some "010"%char
  | 114%nat => Some "013"%char
  | 116%nat => Some "009"%char
  | _ => None
  end.

(** The text of a string literal, read after its opening quote. *)
Fixpoint parse_string (s : string) : option (string * string) :=
  match s with
  | EmptyString => None
  | String c r =>
      if Ascii.eqb c DQUOTE then Some (EmptyString, r)
      else if Ascii.eqb c BACKSLASH then
        match r with
        | String e r1 =>
            if Ascii.eqb e "u"%char then
              match r1 with
              | String h1 (String h2 (String h3 (String h4 r2))) =>
                  match hex_of h1, hex_of h2, hex_of h3, hex_of h4 with
                  | Some a, Some b, Some c', Some d =>
                      match parse_string r2 with
                      | Some (str, rest) =>
                          Some (utf8 (((a * 16 + b) * 16 + c') * 16 + d)%N +:+ str, rest)
                      | None => None
                      end
                  | _, _, _, _ => None
                  end
              | _ => None
              end
            else
              match escape_of e with
              | Some x =>
                  match parse_string r1 with
                  | Some (str, rest) => Some (String x str, rest)
                  | None => None
                  end
              | None => None
              end
        | EmptyString => None
        end
      else if (nat_of_ascii c <? 32)%nat then None
      else match parse_string r with
           | Some (str, rest) => Some (String c str, rest)
           | None => None
           end
  end.

Fixpoint parse_value (fuel : nat) (s : string) : option (value * string) :=
  match fuel with
  | O => None
  | S k =>
      match skip_ws s with
      | EmptyString => None
      | String c r =>
          if Ascii.eqb c "{"%char then
            if starts_with "}"%char (skip_ws r) then Some (Obj [], drop 1 (skip_ws r))
            else parse_members k r []
          else if Ascii.eqb c "["%char then
            if starts_with "]"%char (skip_ws r) then Some (Arr [], drop 1 (skip_ws r))
            else parse_elements k r []
          else if Ascii.eqb c DQUOTE then
            match parse_string r with
            | Some (str, rest) => Some (Str str, rest)
            | None => None
            end
          else if HasPrefix (String c r) "true" then Some (Bool true, drop 4 (String c r))
          else if HasPrefix (String c r) "false" then Some (Bool false, drop 5 (String c r))
          else if HasPrefix (String c r) "null" then Some (Null, drop 4 (String c r))
          else parse_number (String c r)
      end
  end
with parse_members (fuel : nat) (s : string) (acc : list (string * value))
    : option (value * string) :=
  match fuel with
  | O => None
  | S k =>
      match skip_ws s with
      | String c r =>
          if Ascii.eqb c DQUOTE then
            match parse_string r with
            | Some (key, r1) =>
                if starts_with ":"%char (skip_ws r1) then
                  match parse_value k (drop 1 (skip_ws r1)) with
                  | Some (v, r2) =>
                      if starts_with ","%char (skip_ws r2)
                      then parse_members k (drop 1 (skip_ws r2)) (acc ++ [(key, v)])
                      else if starts_with "}"%char (skip_ws r2)
                      then Some (Obj (acc ++ [(key, v)]), drop 1 (skip_ws r2))
                      else None
                  | None => None
                  end
                else None
            | None => None
            end
          else None
      | EmptyString => None
      end
  end
with parse_elements (fuel : nat) (s : string) (acc : list value)
    : option (value * string) :=
  match fuel with
  | O => None
  | S k =>
      match parse_value k s with
      | Some (v, r) =>
          if starts_with ","%char (skip_ws r)
          then parse_elements k (drop 1 (skip_ws r)) (acc ++ [v])
          else if starts_with "]"%char (skip_ws r)
          then Some (Arr (acc ++ [v]), drop 1 (skip_ws r))
          else None
      | None => None
      end
  end.

(** A whole document: one value and nothing but white space after it. *)
Definition parse (s : string) : option value :=
  match parse_value (S (String.length s)) s with
  | Some (v, rest) => if String.eqb (skip_ws rest) "" then Some v else None
  | None => None
  end.

(** Struct fields are matched by name, letter case aside. *)
Definition lower (c : ascii) : ascii :=
  let n := nat_of_ascii c in
  if (65 <=? n)%nat && (n <=? 90)%nat then ascii_of_nat (n + 32) else c.

Fixpoint fold_case (s : string) : string :=
  match s with
  | EmptyString => EmptyString
  | String c r => String (lower c) (fold_case r)
  end.

Definition names (key field : string) : bool :=
  String.eqb (fold_case key) (fold_case field).

Definition decode_string (old : string) (v : value) : option string :=
  match v with
  | Str s => Some s
  | Null => Some old
  | _ => None
  end.

Definition decode_int (old : Z) (v : value) : option Z :=
  match v with
  | Int z => if (Go.min_int64 <=? z) && (z <=? Go.max_int64) then Some z else None
  | Null => Some old
  | _ => None
  end.

(** Decoding an object key by key into a struct; a key naming no field is
    skipped. *)
Fixpoint decode_fields {A} (step : string -> value -> A -> option A)
    (fields : list (string * value)) (a : A) : option A :=
  match fields with
  | [] => Some a
  | (k, v) :: rest =>
      match step k v a with
      | Some a' => decode_fields step rest a'
      | None => None
      end
  end.

Definition decode_struct {A} (step : string -> value -> A -> option A)
    (a : A) (v : value) : option A :=
  match v with
  | Obj fields => decode_fields step fields a
  | Null => Some a
  | _ => None
  end.

(** A pointer to a struct: null makes it nil, an object fills the struct it
    points to, allocated when nil. *)
Definition decode_pointer {A} (step : string -> value -> A -> option A)
    (zero : A) (old : option A) (v : value) : option (option A) :=
  match v with
  | Null => Some None
  | Obj fields =>
      match decode_fields step fields (match old with Some a => a | None => zero end) with
      | Some a => Some (Some a)
      | None => None
      end
  | _ => None
  end.

Definition step_counts (k : string) (v : value) (c : TokenCounts) : option TokenCounts :=
  if names k "input_tokens" then
    match decode_int (input_tokens c) v with
    | Some z => Some {| input_tokens := z; output_tokens := output_tokens c |}
    | None => None
    end
  else if names k "output_tokens" then
    match decode_int (output_tokens c) v with
    | Some z => Some {| input_tokens := input_tokens c; output_tokens := z |}
    | None => None
    end
  else Some c.

Definition zero_counts : TokenCounts := {| input_tokens := 0; output_tokens := 0 |}.

Definition step_message (k : string) (v : value) (m : StreamMessage) : option StreamMessage :=
  if names k "usage" then
    match decode_pointer step_counts zero_counts (MessageUsage m) v with
    | Some u => Some {| MessageUsage := u |}
    | None => None
    end
  else Some m.

Definition step_stream_event (k : string) (v : value) (e : AnthropicStreamEvent)
    : option AnthropicStreamEvent :=
  if names k "type" then
    match decode_string (Type_ e) v with
    | Some t => Some {| Type_ := t; Usage := Usage e; Message := Message e |}
    | None => None
    end
  else if names k "usage" then
    match decode_pointer step_counts zero_counts (Usage e) v with
    | Some u => Some {| Type_ := Type_ e; Usage := u; Message := Message e |}
    | None => None
    end
  else if names k "message" then
    match decode_pointer step_message {| MessageUsage := None |} (Message e) v with
    | Some m => Some {| Type_ := Type_ e; Usage := Usage e; Message := m |}
    | None => None
    end
  else Some e.

Definition step_usage_counts (k : string) (v : value) (e : UsageEvent) : option UsageEvent :=
  if names k "input_tokens" then
    match decode_int (UInputTokens e) v with
    | Some z => Some {| UType := UType e; UInputTokens := z;
                        UOutputTokens := UOutputTokens e; UTotalTokens := UTotalTokens e |}
    | None => None
    end
  else if names k "output_tokens" then
    match decode_int (UOutputTokens e) v with
    | Some z => Some {| UType := UType e; UInputTokens := UInputTokens e;
                        UOutputTokens := z; UTotalTokens := UTotalTokens e |}
    | None => None
    end
  else if names k "total_tokens" then
    match decode_int (UTotalTokens e) v with
    | Some z => Some {| UType := UType e; UInputTokens := UInputTokens e;
                        UOutputTokens := UOutputTokens e; UTotalTokens := z |}
    | None => None
    end
  else Some e.

Definition step_usage_event (k : string) (v : value) (e : UsageEvent) : option UsageEvent :=
  if names k "type" then
    match decode_string (UType e) v with
    | Some t => Some {| UType := t; UInputTokens := UInputTokens e;
                        UOutputTokens := UOutputTokens e; UTotalTokens := UTotalTokens e |}
    | None => None
    end
  else if names k "usage" then decode_struct step_usage_counts e v
  else Some e.

Definition zero_stream_event : AnthropicStreamEvent :=
  {| Type_ := ""; Usage := None; Message := None |}.

Definition zero_usage_event : UsageEvent :=
  {| UType := ""; UInputTokens := 0; UOutputTokens := 0; UTotalTokens := 0 |}.

#[export] Instance reference_decoder : Decoder := {|
  unmarshalStreamEvent s :=
    match parse s with
    | Some v => decode_struct step_stream_event zero_stream_event v
    | None => None
    end;
  unmarshalUsageEvent s :=
    match parse s with
    | Some v => decode_struct step_usage_event zero_usage_event v
    | None => None
    end
|}.

End JSON.

(** ** Data model (package models) *)

Module Models.

Record ChatMessage := {
  Role : string;
  Content : string
}.

(** A number as [encoding/json] decodes one: a [float64] that is finite. *)
Record Finite := {
  number : float;
  number_finite : Go.is_finite number = true
}.

(** What [encoding/json] leaves in an [interface{}] that is not nil: a bool,
    a number, a string, a [[]interface{}] or a [map[string]interface{}];
    inside a slice or a map [None] is the nil that [null] decodes to. *)
Inductive Dynamic :=
| DBool (b : bool)
| DNumber (f : Finite)
| DString (s : string)
| DSlice (vs : list (option Dynamic))
| DMap (kv : gmap string (option Dynamic)).

(** The structs of package models (src/api/handlers/provider.go, lines
    134-263 and 469-552), with the fields the code reads and writes.
    Pointer fields ([*int], [*float64]), the [interface{}] of [Stop] and the
    map of [Metadata] are options; [None] is Go's nil.  The request comes
    from the JSON body of the call, so [Stop] and the values of [Metadata]
    hold what the decoder leaves there. *)
Record ChatCompletionRequest := {
  Model : string;
  Messages : list ChatMessage;
  MaxTokens : option Z;
  Temperature : option float;
  TopP : option float;
  System : string;
  Stop : option Dynamic;
  Stream : bool;
  Metadata : option (gmap string (option Dynamic));
  AnthropicVersion : string
}.

Record ChatCompletionUsage := {
  InputTokens : Z;
  OutputTokens : Z;
  TotalTokens : Z;
  PromptTokens : Z;
  CompletionTokens : Z
}.

Record LLMModel := {
  ModelRowID : Z;
  InputCostPer1K : float;
  OutputCostPer1K : float
}.

(** The vendor's synchronous response. *)
Record AnthropicContent := {
  ContentType : string;
  Text : string
}.

Record AnthropicResponse := {
  AnthropicID : string;
  AnthropicType : string;
  AnthropicRole : string;
  AnthropicModel : string;
  AnthropicContents : list AnthropicContent;
  StopReason : string;
  AnthropicInputTokens : Z;
  AnthropicOutputTokens : Z
}.

Record ChatCompletionChoice := {
  Index : Z;
  ChoiceMessage : ChatMessage;
  FinishReason : string
}.

Record ChatCompletionResponse := {
  ResponseID : string;
  ResponseType : string;
  ResponseRole : string;
  ResponseModel : string;
  ResponseContent : list AnthropicContent;
  ResponseUsage : ChatCompletionUsage;
  Choices : list ChatCompletionChoice;
  Object : string;
  Created : Z
}.

Inductive APIKeyStatus :=
| APIKeyStatusActive
| APIKeyStatusInactive
| APIKeyStatusRevoked.

Record APIKey := {
  ID : Z;
  UserID : Z;
  ProviderID : Z;
  KeyValue : string;
  Status : APIKeyStatus;
  ExpiresAt : option Time.Time;
  DailyRequestLimit : Z;
  MonthlyRequestLimit : Z
}.

(** What the gateway hands on after authentication; the random request id is
    left out. *)
Record LLMRequestContext := {
  ContextUserID : Z;
  ContextAPIKeyID : Z;
  ContextAPIKey : APIKey;
  StartTime : Time.Time
}.

(** A row of [llm_request_logs], the accounting record of one call. *)
Record LLMRequestLog := {
  LogID : Z;
  LogAPIKeyID : Z;
  LogModelName : string;
  LogStatus : string;
  LogInputTokens : Z;
  LogOutputTokens : Z;
  LogTotalTokens : Z;
  LogInputCost : float;
  LogOutputCost : float;
  LogTotalCost : float;
  LatencyMs : Z;
  HTTPStatus : Z;
  ErrorMessage : string;
  CreatedAt : Time.Time
}.

End Models.

(** ** The Anthropic provider adapter (services/anthropic.go) *)

Module Anthropic.
Import Models.

(** *** ValidateRequest *)

Inductive ValidationError :=
| ErrModelRequired
| ErrMessagesRequired
| ErrRole (i : nat)
| ErrEmptyContent (i : nat)
| ErrFirstNotUser.

(** The [for i, msg := range req.Messages] loop: the first offending
    message decides the error. *)
Fixpoint checkMessages (i : nat) (msgs : list ChatMessage) : option ValidationError :=
  match msgs with
  | [] => None
  | msg :: rest =>
      if negb (String.eqb (Role msg) "user") && negb (String.eqb (Role msg) "assistant")
      then Some (ErrRole i)
      else if String.eqb (Content msg) ""
      then Some (ErrEmptyContent i)
      else checkMessages (S i) rest
  end.

(** [None] is the nil error. *)
Definition ValidateRequest (req : ChatCompletionRequest) : option ValidationError :=
  if String.eqb (Model req) "" then Some ErrModelRequired
  else match Messages req with
       | [] => Some ErrMessagesRequired
       | first :: _ =>
           match checkMessages 0 (Messages req) with
           | Some e => Some e
           | None =>
               if negb (String.eqb (Role first) "user") then Some ErrFirstNotUser
               else None
           end
       end.

(** *** TransformRequest *)

(** The dynamically typed values stored in the [map[string]interface{}]. *)
Inductive Value :=
| VString (s : string)
| VInt (n : Z)
| VFloat (f : float)
| VBool (b : bool)
| VMessages (ms : list ChatMessage)
| VDynamic (v : Dynamic)
| VMetadata (kv : gmap string (option Dynamic)).

Definition default_max_tokens : Z := 4096.

Definition set_if {A} (present : option A) (key : string) (mk : A -> Value)
    (m : gmap string Value) : gmap string Value :=
  match present with
  | Some a => <[key := mk a]> m
  | None => m
  end.

Definition TransformRequest (req : ChatCompletionRequest) : gmap string Value :=
  let m0 : gmap string Value :=
    <["messages" := VMessages (Messages req)]> (<["model" := VString (Model req)]> ∅) in
  let m1 := match MaxTokens req with
            | Some n => <["max_tokens" := VInt n]> m0
            | None => <["max_tokens" := VInt default_max_tokens]> m0
            end in
  let m2 := set_if (Temperature req) "temperature" VFloat m1 in
  let m3 := set_if (TopP req) "top_p" VFloat m2 in
  let m4 := if String.eqb (System req) "" then m3
            else <["system" := VString (System req)]> m3 in
  let m5 := set_if (Stop req) "stop_sequences" VDynamic m4 in
  let m6 := if Stream req then <["stream" := VBool true]> m5 else m5 in
  set_if (Metadata req) "metadata" VMetadata m6.

(** *** CalculateCost *)

Definition CalculateCost (usage : ChatCompletionUsage) (model : LLMModel)
    : float * float * float :=
  let inputCost :=
    (Go.float64_of_int (InputTokens usage) * InputCostPer1K model / 1000)%float in
  let outputCost :=
    (Go.float64_of_int (OutputTokens usage) * OutputCostPer1K model / 1000)%float in
  let totalCost := (inputCost + outputCost)%float in
  (inputCost, outputCost, totalCost).

(** *** TransformResponse *)

(** The [interface{}] argument: the vendor response or a value of some other
    dynamic type. *)
Inductive Interface :=
| IAnthropicResponse (r : AnthropicResponse)
| IOther.

(** [now] is the value of [time.Now().Unix()]; [None] is the
    "invalid response type" error. *)
Definition TransformResponse (now : Z) (resp : Interface) : option ChatCompletionResponse :=
  match resp with
  | IOther => None
  | IAnthropicResponse anthropicResp =>
      let usage :=
        {| InputTokens := AnthropicInputTokens anthropicResp;
           OutputTokens := AnthropicOutputTokens anthropicResp;
           TotalTokens := Go.int_add (AnthropicInputTokens anthropicResp)
                                     (AnthropicOutputTokens anthropicResp);
           PromptTokens := AnthropicInputTokens anthropicResp;
           CompletionTokens := AnthropicOutputTokens anthropicResp |} in
      let response (choices : list ChatCompletionChoice) (object : string) (created : Z) :=
        {| ResponseID := AnthropicID anthropicResp;
           ResponseType := AnthropicType anthropicResp;
           ResponseRole := AnthropicRole anthropicResp;
           ResponseModel := AnthropicModel anthropicResp;
           ResponseContent := AnthropicContents anthropicResp;
           ResponseUsage := usage;
           Choices := choices;
           Object := object;
           Created := created |} in
      match AnthropicContents anthropicResp with
      | [] => Some (response [] "" 0)
      | first :: _ =>
          let choice :=
            {| Index := 0;
               ChoiceMessage := {| Role := AnthropicRole anthropicResp;
                                   Content := Text first |};
               FinishReason := StopReason anthropicResp |} in
          Some (response [choice] "chat.completion" now)
      end
  end.

(** *** The streaming relay of the adapter *)

Section Streaming.
Context `{JSON.Decoder}.
Import Strings JSON.

Definition parseSSEEvents (text : string) : list string := Split text nlnl.

(** [fmt.Sprintf("data: %s\n\n", data)] *)
Definition dataFrame (data : string) : string := "data: " +:+ data +:+ nlnl.

(** The token counts of a [message_stop] event that carries them. *)
Definition terminalUsage (streamEvent : AnthropicStreamEvent) : option TokenCounts :=
  if String.eqb (Type_ streamEvent) "message_stop" then
    match Message streamEvent with
    | Some message => MessageUsage message
    | None => None
    end
  else None.

(** The [usage_update] frame that replaces a terminal event. *)
Definition usageFrame (usage : TokenCounts) : string :=
  dataFrame (marshalUsageEvent (input_tokens usage) (output_tokens usage)
               (Go.int_add (input_tokens usage) (output_tokens usage))).

(** The loop over the lines of one event. *)
Fixpoint processLines (lines : list string) : option string :=
  match lines with
  | [] => None
  | line :: rest =>
      if HasPrefix line "data: " then
        let data := TrimPrefix line "data: " in
        if String.eqb data "" || String.eqb data "[DONE]" then processLines rest
        else
          match unmarshalStreamEvent data with
          | Some streamEvent =>
              match terminalUsage streamEvent with
              | Some usage => Some (usageFrame usage)
              | None => Some (dataFrame data)
              end
          | None => Some (dataFrame data)
          end
      else processLines rest
  end.

(** [None] is the nil slice: nothing is sent for the event. *)
Definition processSSEEvent (eventText : string) : option string :=
  processLines (Split (TrimSpace eventText) nl).

(** The [for i, event := range events] loop of one read.  [complete] is
    [strings.HasSuffix(text, "\n\n")]; the result is the new remainder and
    the frames sent on the channel, in order. *)
Fixpoint processEvents (complete : bool) (events : list string) (remainder : string)
    : string * list string :=
  match events with
  | [] => (remainder, [])
  | event :: rest =>
      match rest with
      | [] =>
          if negb complete then (event, [])
          else (EmptyString, match processSSEEvent event with
                             | Some processedData => [processedData]
                             | None => []
                             end)
      | _ :: _ =>
          let '(remainder', sent) := processEvents complete rest EmptyString in
          (remainder', match processSSEEvent event with
                       | Some processedData => processedData :: sent
                       | None => sent
                       end)
      end
  end.

(** One [Read] that returned the bytes [chunk]: nothing happens when it
    returned none. *)
Definition readChunk (remainder chunk : string) : string * list string :=
  if String.eqb chunk "" then (remainder, [])
  else
    let text := remainder +:+ chunk in
    processEvents (HasSuffix text nlnl) (parseSSEEvents text) remainder.

(** How the upstream body ends: a clean end of stream or a read error with
    its message. *)
Inductive StreamEnd :=
| EOF
| ReadError (message : string).

Definition errorFrame (message : string) : string :=
  q "data: {'error': '" +:+ message +:+ q "'}" +:+ nlnl.

(** The goroutine of [StreamChatCompletion]: everything it sends on
    [streamChan] for the successive reads of the body. *)
Fixpoint streamFrom (remainder : string) (chunks : list string) (ending : StreamEnd)
    : list string :=
  match chunks with
  | [] =>
      match ending with
      | EOF => []
      | ReadError message => [errorFrame message]
      end
  | chunk :: rest =>
      let '(remainder', sent) := readChunk remainder chunk in
      sent ++ streamFrom remainder' rest ending
  end.

Definition streamFrames (chunks : list string) (ending : StreamEnd) : list string :=
  streamFrom EmptyString chunks ending.

End Streaming.

End Anthropic.

(** ** The cache service *)

Module Cache.
Import Models.

Record APIKeyCacheEntry := {
  EntryAPIKey : APIKey;
  CachedAt : Time.Time;
  EntryExpiresAt : option Time.Time
}.

(** [UsageCounts] of services/llm.go. *)
Record UsageCounts := {
  DailyCount : Z;
  MonthlyCount : Z
}.

Record UsageCacheEntry := {
  EntryDailyCount : Z;
  EntryMonthlyCount : Z;
  UsageCachedAt : Time.Time
}.

(** What a Redis key holds: the JSON text of one of the two entries, kept
    here as the entry it decodes to, and the instant the key lapses. *)
Inductive Payload :=
| APIKeyPayload (entry : APIKeyCacheEntry)
| UsagePayload (entry : UsageCacheEntry).

Record Item := {
  payload : Payload;
  deadline : Z
}.

(** The service holds a Redis client, or nil. *)
Record CacheService := {
  redis : option (gmap string Item)
}.

Definition redisGet (r : gmap string Item) (now : Time.Time) (key : string) : option Payload :=
  match r !! key with
  | Some item => if deadline item <=? Time.unixNano now then None else Some (payload item)
  | None => None
  end.

Definition redisSet (r : gmap string Item) (now : Time.Time) (key : string)
    (value : Payload) (ttl : Z) : gmap string Item :=
  <[key := {| payload := value; deadline := Time.unixNano now + ttl |}]> r.

Definition apiKeyCacheKey (apiKey : string) : string := "api_key:" +:+ apiKey.
Definition usageCacheKey (apiKeyID : Z) : string := "usage:" +:+ JSON.Itoa apiKeyID.

(** The key as it comes back from its JSON text: the key value is tagged
    [json:"-"] and is not written. *)
Definition throughJSON (k : APIKey) : APIKey :=
  {| ID := ID k; UserID := UserID k; ProviderID := ProviderID k; KeyValue := "";
     Status := Status k; ExpiresAt := ExpiresAt k;
     DailyRequestLimit := DailyRequestLimit k;
     MonthlyRequestLimit := MonthlyRequestLimit k |}.

Definition GetAPIKey (c : CacheService) (now : Time.Time) (apiKey : string)
    : option APIKey * CacheService :=
  match redis c with
  | None => (None, c)
  | Some r =>
      let cacheKey := apiKeyCacheKey apiKey in
      match redisGet r now cacheKey with
      | Some (APIKeyPayload entry) =>
          match EntryExpiresAt entry with
          | Some expiresAt =>
              if Time.Before expiresAt now
              then (None, {| redis := Some (delete cacheKey r) |})
              else (Some (EntryAPIKey entry), c)
          | None => (Some (EntryAPIKey entry), c)
          end
      | _ => (None, c)
      end
  end.

Definition SetAPIKey (c : CacheService) (now : Time.Time) (apiKey : string)
    (dbAPIKey : APIKey) (ttl : Z) : CacheService :=
  match redis c with
  | None => c
  | Some r =>
      let entry := {| EntryAPIKey := throughJSON dbAPIKey; CachedAt := now;
                      EntryExpiresAt := ExpiresAt dbAPIKey |} in
      {| redis := Some (redisSet r now (apiKeyCacheKey apiKey) (APIKeyPayload entry) ttl) |}
  end.

Definition GetUsageCount (c : CacheService) (now : Time.Time) (apiKeyID : Z)
    : option UsageCounts :=
  match redis c with
  | None => None
  | Some r =>
      match redisGet r now (usageCacheKey apiKeyID) with
      | Some (UsagePayload entry) =>
          Some {| DailyCount := EntryDailyCount entry;
                  MonthlyCount := EntryMonthlyCount entry |}
      | _ => None
      end
  end.

Definition SetUsageCount (c : CacheService) (now : Time.Time) (apiKeyID : Z)
    (usage : UsageCounts) (ttl : Z) : CacheService :=
  match redis c with
  | None => c
  | Some r =>
      let entry := {| EntryDailyCount := DailyCount usage;
                      EntryMonthlyCount := MonthlyCount usage;
                      UsageCachedAt := now |} in
      {| redis := Some (redisSet r now (usageCacheKey apiKeyID) (UsagePayload entry) ttl) |}
  end.

Definition InvalidateAPIKey (c : CacheService) (apiKey : string) : CacheService :=
  match redis c with
  | None => c
  | Some r => {| redis := Some (delete (apiKeyCacheKey apiKey) r) |}
  end.

End Cache.

(** ** The gateway service (services/llm.go) *)

Module LLM.
Import Models Cache.

(** The durable store: the two tables the gate reads, in primary-key order,
    and whether queries currently succeed. *)
Record Store := {
  api_keys : list APIKey;
  llm_request_logs : list LLMRequestLog;
  available : bool
}.

Inductive Error :=
| ErrInvalidAPIKey
| ErrAPIKeyExpired
| ErrUsageCheckFailed
| ErrDailyLimitExceeded
| ErrMonthlyLimitExceeded.

Inductive Result (A : Type) :=
| Ok (a : A)
| Err (e : Error).
Arguments Ok {A} a.
Arguments Err {A} e.

(** The quota errors of the taxonomy. *)
Definition QuotaExceeded {A} (r : Result A) : bool :=
  match r with
  | Err ErrDailyLimitExceeded | Err ErrMonthlyLimitExceeded => true
  | _ => false
  end.

(** *** getBatchUsageFromDB *)

(** [SELECT COUNT( * ) FROM llm_request_logs
     WHERE api_key_id = ? AND created_at >= ? AND created_at < ?] *)
Definition inWindow (apiKeyID : Z) (from to : Time.Time) (row : LLMRequestLog) : bool :=
  (LogAPIKeyID row =? apiKeyID)
  && negb (Time.Before (CreatedAt row) from)
  && Time.Before (CreatedAt row) to.

Definition countLogs (logs : list LLMRequestLog) (apiKeyID : Z) (from to : Time.Time) : Z :=
  Z.of_nat (List.length (List.filter (inWindow apiKeyID from to) logs)).

Definition scanResult (usage : UsageCounts) (result : bool * Z) : UsageCounts :=
  let '(isDaily, count) := result in
  if isDaily then {| DailyCount := count; MonthlyCount := MonthlyCount usage |}
  else {| DailyCount := DailyCount usage; MonthlyCount := count |}.

(** [now] is the value of the one call of [time.Now()]; [None] is a query
    error. *)
Definition getBatchUsageFromDB (db : Store) (now : Time.Time) (apiKeyID : Z)
    : option UsageCounts :=
  let today := Time.Truncate now (24 * Time.Hour) in
  let tomorrow := Time.Add today (24 * Time.Hour) in
  let monthStart := Time.Date (Time.Year now) (Time.Month now) 1 0 0 0 0 (Time.zoneOffset now) in
  let monthEnd := Time.AddDate monthStart 0 1 0 in
  if negb (available db) then None
  else
    let results :=
      [ (true, countLogs (llm_request_logs db) apiKeyID today tomorrow);
        (false, countLogs (llm_request_logs db) apiKeyID monthStart monthEnd) ] in
    Some (fold_left scanResult results {| DailyCount := 0; MonthlyCount := 0 |}).

(** *** validateUsageLimitsOptimized *)

Definition requestContext (now : Time.Time) (dbAPIKey : APIKey) : LLMRequestContext :=
  {| ContextUserID := UserID dbAPIKey; ContextAPIKeyID := ID dbAPIKey;
     ContextAPIKey := dbAPIKey; StartTime := now |}.

Definition checkLimits (now : Time.Time) (dbAPIKey : APIKey) (usage : UsageCounts)
    : Result LLMRequestContext :=
  if (0 <? DailyRequestLimit dbAPIKey) && (DailyRequestLimit dbAPIKey <=? DailyCount usage)
  then Err ErrDailyLimitExceeded
  else if (0 <? MonthlyRequestLimit dbAPIKey)
          && (MonthlyRequestLimit dbAPIKey <=? MonthlyCount usage)
  then Err ErrMonthlyLimitExceeded
  else Ok (requestContext now dbAPIKey).

(** The usage the check reads: the cached counts, else the counts of the
    store, which are then cached for a minute. *)
Definition readUsage (c : CacheService) (db : Store) (now : Time.Time) (apiKeyID : Z)
    : option UsageCounts * CacheService :=
  match GetUsageCount c now apiKeyID with
  | Some cachedUsage => (Some cachedUsage, c)
  | None =>
      match getBatchUsageFromDB db now apiKeyID with
      | None => (None, c)
      | Some usage => (Some usage, SetUsageCount c now apiKeyID usage (1 * Time.Minute))
      end
  end.

Definition validateUsageLimitsOptimized (c : CacheService) (db : Store) (now : Time.Time)
    (dbAPIKey : APIKey) : Result LLMRequestContext * CacheService :=
  if (0 <? DailyRequestLimit dbAPIKey) || (0 <? MonthlyRequestLimit dbAPIKey) then
    match readUsage c db now (ID dbAPIKey) with
    | (None, c') => (Err ErrUsageCheckFailed, c')
    | (Some usage, c') => (checkLimits now dbAPIKey usage, c')
    end
  else (Ok (requestContext now dbAPIKey), c).

(** *** ValidateAPIKeyOptimized *)

(** [First(&dbAPIKey, "key_value = ? AND status = ?", apiKey, "active")] *)
Definition isActive (status : APIKeyStatus) : bool :=
  match status with
  | APIKeyStatusActive => true
  | _ => false
  end.

Definition firstActiveKey (db : Store) (apiKey : string) : option APIKey :=
  if negb (available db) then None
  else List.find (fun row => String.eqb (KeyValue row) apiKey && isActive (Status row))
                 (api_keys db).

Definition ValidateAPIKeyOptimized (c : CacheService) (db : Store) (now : Time.Time)
    (apiKey : string) : Result LLMRequestContext * CacheService :=
  match GetAPIKey c now apiKey with
  | (Some cachedAPIKey, c1) => validateUsageLimitsOptimized c1 db now cachedAPIKey
  | (None, c1) =>
      match firstActiveKey db apiKey with
      | None => (Err ErrInvalidAPIKey, c1)
      | Some dbAPIKey =>
          match ExpiresAt dbAPIKey with
          | Some expiresAt =>
              if Time.Before expiresAt now then (Err ErrAPIKeyExpired, c1)
              else validateUsageLimitsOptimized
                     (SetAPIKey c1 now apiKey dbAPIKey (5 * Time.Minute)) db now dbAPIKey
          | None =>
              validateUsageLimitsOptimized
                (SetAPIKey c1 now apiKey dbAPIKey (5 * Time.Minute)) db now dbAPIKey
          end
      end
  end.

(** *** The accounting record *)

Definition updateRow (logID : Z) (update : LLMRequestLog -> LLMRequestLog)
    (logs : list LLMRequestLog) : list LLMRequestLog :=
  List.map (fun row => if LogID row =? logID then update row else row) logs.

Definition updateRequestLogStreamComplete (logs : list LLMRequestLog) (logID : Z)
    (latencyMs : Z) : list LLMRequestLog :=
  updateRow logID
    (fun row =>
       {| LogID := LogID row; LogAPIKeyID := LogAPIKeyID row;
          LogModelName := LogModelName row;
          LogStatus := "completed";
          LogInputTokens := LogInputTokens row; LogOutputTokens := LogOutputTokens row;
          LogTotalTokens := LogTotalTokens row;
          LogInputCost := LogInputCost row; LogOutputCost := LogOutputCost row;
          LogTotalCost := LogTotalCost row;
          LatencyMs := latencyMs; HTTPStatus := 200;
          ErrorMessage := ErrorMessage row; CreatedAt := CreatedAt row |}) logs.

Definition updateRequestLogStreamSuccess (logs : list LLMRequestLog) (logID : Z)
    (usage : ChatCompletionUsage) (inputCost outputCost totalCost : float)
    (latencyMs : Z) : list LLMRequestLog :=
  updateRow logID
    (fun row =>
       {| LogID := LogID row; LogAPIKeyID := LogAPIKeyID row;
          LogModelName := LogModelName row;
          LogStatus := "completed";
          LogInputTokens := InputTokens usage; LogOutputTokens := OutputTokens usage;
          LogTotalTokens := TotalTokens usage;
          LogInputCost := inputCost; LogOutputCost := outputCost;
          LogTotalCost := totalCost;
          LatencyMs := latencyMs; HTTPStatus := 200;
          ErrorMessage := ErrorMessage row; CreatedAt := CreatedAt row |}) logs.

(** The row [createRequestLog] inserts, with the next primary key. *)
Definition pendingLog (logID apiKeyID : Z) (modelName : string) (now : Time.Time)
    : LLMRequestLog :=
  {| LogID := logID; LogAPIKeyID := apiKeyID; LogModelName := modelName;
     LogStatus := "pending";
     LogInputTokens := 0; LogOutputTokens := 0; LogTotalTokens := 0;
     LogInputCost := 0%float; LogOutputCost := 0%float; LogTotalCost := 0%float;
     LatencyMs := 0; HTTPStatus := 0; ErrorMessage := ""; CreatedAt := now |}.

(** *** The relay of StreamChatCompletion *)

Section Relay.
Context `{JSON.Decoder}.
Import Strings JSON.

Fixpoint extractLines (lines : list string) : option ChatCompletionUsage :=
  match lines with
  | [] => None
  | line :: rest =>
      if HasPrefix line "data: " then
        match unmarshalUsageEvent (TrimPrefix line "data: ") with
        | Some usageEvent =>
            if String.eqb (UType usageEvent) "usage_update"
            then Some {| InputTokens := UInputTokens usageEvent;
                         OutputTokens := UOutputTokens usageEvent;
                         TotalTokens := UTotalTokens usageEvent;
                         PromptTokens := UInputTokens usageEvent;
                         CompletionTokens := UOutputTokens usageEvent |}
            else extractLines rest
        | None => extractLines rest
        end
      else extractLines rest
  end.

Definition extractUsageFromSSE (data : string) : option ChatCompletionUsage :=
  if negb (Contains data "usage_update") then None
  else extractLines (Split (TrimSpace data) nl).

(** [make(chan []byte, 100)] *)
Definition capacity : nat := 100.

(** The goroutine's view of the call: how many frames sit in [wrappedChan],
    the frames sent on it so far, and the usage captured. *)
Record RelayState := {
  queued : nat;
  sent : list string;
  finalUsage : option ChatCompletionUsage
}.

Definition startState : RelayState :=
  {| queued := 0; sent := []; finalUsage := None |}.

Inductive RelayEnd :=
| SourceClosed
| Abandoned
| Blocked.

(** The loop [for data := range streamChan] with the non-blocking send.
    [receives] tells, for each frame that arrives, how many frames the client
    has taken off [wrappedChan] since the frame before; when the list runs
    out the client takes no more. *)
Fixpoint relay (items : list string) (receives : list nat) (st : RelayState)
    : RelayEnd * RelayState :=
  match items with
  | [] => (SourceClosed, st)
  | data :: rest =>
      let room := (queued st - hd 0 receives)%nat in
      match extractUsageFromSSE data with
      | Some usage =>
          relay rest (tl receives)
            {| queued := room; sent := sent st; finalUsage := Some usage |}
      | None =>
          if (room <? capacity)%nat
          then relay rest (tl receives)
                 {| queued := S room; sent := sent st ++ [data];
                    finalUsage := finalUsage st |}
          else (Abandoned, {| queued := room; sent := sent st;
                              finalUsage := finalUsage st |})
      end
  end.

(** The same loop with the blocking send [wrappedChan <- data] of the other
    copy of the file, against a client that takes [taken] frames in all and
    then goes away: a send that finds the channel full waits for ever. *)
Fixpoint relayBlocking (items : list string) (taken : nat) (st : RelayState)
    : RelayEnd * RelayState :=
  match items with
  | [] => (SourceClosed, st)
  | data :: rest =>
      match extractUsageFromSSE data with
      | Some usage =>
          relayBlocking rest taken
            {| queued := queued st; sent := sent st; finalUsage := Some usage |}
      | None =>
          if (List.length (sent st) <? capacity + taken)%nat
          then relayBlocking rest taken
                 {| queued := queued st; sent := sent st ++ [data];
                    finalUsage := finalUsage st |}
          else (Blocked, st)
      end
  end.

(** What follows the loop: the update of the request log, reached only when
    the loop ran to the close of the source. *)
Definition finalize (logs : list LLMRequestLog) (logID : Z) (model : LLMModel)
    (latencyMs : Z) (outcome : RelayEnd * RelayState) : list LLMRequestLog :=
  match outcome with
  | (SourceClosed, st) =>
      match finalUsage st with
      | Some usage =>
          let '(inputCost, outputCost, totalCost) := Anthropic.CalculateCost usage model in
          updateRequestLogStreamSuccess logs logID usage inputCost outputCost totalCost latencyMs
      | None => updateRequestLogStreamComplete logs logID latencyMs
      end
  | (_, _) => logs
  end.

(** A streaming call from the creation of its log row on: the frames the
    client is sent and the log table afterwards. *)
Definition StreamChatCompletion (logs : list LLMRequestLog) (logID apiKeyID : Z)
    (modelName : string) (model : LLMModel) (now : Time.Time) (latencyMs : Z)
    (items : list string) (receives : list nat) : list string * list LLMRequestLog :=
  let logs1 := logs ++ [pendingLog logID apiKeyID modelName now] in
  let outcome := relay items receives startState in
  (sent (snd outcome), finalize logs1 logID model latencyMs outcome).

Definition StreamChatCompletionBlocking (logs : list LLMRequestLog) (logID apiKeyID : Z)
    (modelName : string) (model : LLMModel) (now : Time.Time) (latencyMs : Z)
    (items : list string) (taken : nat) : list string * list LLMRequestLog :=
  let logs1 := logs ++ [pendingLog logID apiKeyID modelName now] in
  let outcome := relayBlocking items taken startState in
  (sent (snd outcome), finalize logs1 logID model latencyMs outcome).

End Relay.

End LLM.

(** ** The per-address rate limiter (api/middleware/ratelimit.go) *)

Module RateLimit.

Record Visitor := {
  count : Z;
  lastSeen : Time.Time;
  windowStart : Time.Time
}.

Record RateLimiter := {
  visitors : gmap string Visitor;
  rate : Z;
  window : Z
}.

(** [t.Sub(u)]: the duration between two instants, which saturates at the
    ends of [int64]. *)
Definition Sub (t u : Time.Time) : Z :=
  let d := Time.unixNano t - Time.unixNano u in
  if d <? Go.min_int64 then Go.min_int64
  else if Go.max_int64 <? d then Go.max_int64
  else d.

Definition NewRateLimiter (requestsPerSecond : Z) : RateLimiter :=
  {| visitors := ∅; rate := requestsPerSecond; window := Time.Second |}.

Definition setVisitors (rl : RateLimiter) (m : gmap string Visitor) : RateLimiter :=
  {| visitors := m; rate := rate rl; window := window rl |}.

(** [now] is the value of the call of [time.Now()]. *)
Definition Allow (rl : RateLimiter) (now : Time.Time) (ip : string) : bool * RateLimiter :=
  match visitors rl !! ip with
  | None =>
      (true, setVisitors rl
               (<[ip := {| count := 1; lastSeen := now; windowStart := now |}]> (visitors rl)))
  | Some visitor =>
      if Time.Minute <? Sub now (lastSeen visitor) then
        (true, setVisitors rl
                 (<[ip := {| count := 1; lastSeen := now; windowStart := now |}]>
                    (delete ip (visitors rl))))
      else if window rl <=? Sub now (windowStart visitor) then
        (true, setVisitors rl
                 (<[ip := {| count := 1; lastSeen := now; windowStart := now |}]> (visitors rl)))
      else if rate rl <=? count visitor then
        (false, setVisitors rl
                  (<[ip := {| count := count visitor; lastSeen := now;
                              windowStart := windowStart visitor |}]> (visitors rl)))
      else
        (true, setVisitors rl
                 (<[ip := {| count := Go.int_add (count visitor) 1; lastSeen := now;
                             windowStart := windowStart visitor |}]> (visitors rl)))
  end.

(** The handler of [RateLimit]: the status it aborts with, or [None] when
    the request goes on to the next handler. *)
Definition RateLimit (limiter : RateLimiter) (now : Time.Time) (ip : string)
    : option Z * RateLimiter :=
  match Allow limiter now ip with
  | (false, limiter') => (Some 429, limiter')
  | (true, limiter') => (None, limiter')
  end.

(** One tick of the ticker of [StartCleanup]. *)
Definition idle (now : Time.Time) (visitor : Visitor) : bool :=
  Time.Minute * 5 <? Sub now (lastSeen visitor).

Definition cleanup (rl : RateLimiter) (now : Time.Time) : RateLimiter :=
  setVisitors rl (filter (fun entry => idle now (snd entry) = false) (visitors rl)).

(** The limiter in front of a sequence of requests, each with the instant
    it is served at and its client address: the decisions, in order. *)
Fixpoint serve (rl : RateLimiter) (requests : list (Time.Time * string))
    : list bool * RateLimiter :=
  match requests with
  | [] => ([], rl)
  | (now, ip) :: rest =>
      let (ok, rl1) := Allow rl now ip in
      let (oks, rl2) := serve rl1 rest in
      (ok :: oks, rl2)
  end.

(** How many requests of one address are let through. *)
Fixpoint allowedFor (ip : string) (rl : RateLimiter) (requests : list (Time.Time * string))
    : nat :=
  match requests with
  | [] => 0%nat
  | (now, ip') :: rest =>
      let (ok, rl1) := Allow rl now ip' in
      ((if ok && String.eqb ip' ip then 1 else 0) + allowedFor ip rl1 rest)%nat
  end.

(** The requests of one address come at instants that do not decrease,
    from [lo] on and before [hi]. *)
Fixpoint paced (ip : string) (lo hi : Z) (requests : list (Time.Time * string)) : bool :=
  match requests with
  | [] => true
  | (now, ip') :: rest =>
      if String.eqb ip' ip
      then (lo <=? Time.unixNano now) && (Time.unixNano now <? hi)
           && paced ip (Time.unixNano now) hi rest
      else paced ip lo hi rest
  end.

(** No request is served before the instant [t]. *)
Definition notBefore (t : Time.Time) (requests : list (Time.Time * string)) : Prop :=
  Forall (fun request => Time.unixNano t <= Time.unixNano (fst request)) requests.

End RateLimit.

(** ** The synchronous call of the adapter (services/anthropic.go) *)

Module Adapter.
Import Models Anthropic.

(** [err.Error()] of the errors of [ValidateRequest]. *)
Definition validationText (e : ValidationError) : string :=
  match e with
  | ErrModelRequired => "model is required"
  | ErrMessagesRequired => "messages are required"
  | ErrRole i =>
      "message " +:+ JSON.Itoa (Z.of_nat i)
      +:+ ": role must be 'user' or 'assistant' for Anthropic"
  | ErrEmptyContent i =>
      "message " +:+ JSON.Itoa (Z.of_nat i) +:+ ": content cannot be empty"
  | ErrFirstNotUser => "first message must be from user for Anthropic"
  end.

(** [json.Marshal] refuses a float that is not finite; the text of its
    error. *)
Definition unsupportedValue (f : float) : option string :=
  if PrimFloat.is_nan f then Some "json: unsupported value: NaN"
  else if PrimFloat.is_infinity f then
    Some (if PrimFloat.ltb f 0%float then "json: unsupported value: -Inf"
          else "json: unsupported value: +Inf")
  else None.

(** The first float of a request that [json.Marshal] refuses: the
    temperature comes before [top_p] both among the fields of the request and
    among the sorted keys of the vendor request.  The numbers under [Stop]
    and [Metadata] are finite and are never refused. *)
Definition marshalError (req : ChatCompletionRequest) : option string :=
  match Temperature req with
  | Some f =>
      match unsupportedValue f with
      | Some text => Some text
      | None =>
          match TopP req with
          | Some g => unsupportedValue g
          | None => None
          end
      end
  | None =>
      match TopP req with
      | Some g => unsupportedValue g
      | None => None
      end
  end.

Record AnthropicProvider := {
  baseURL : string;
  apiVersion : string
}.

(** [NewAnthropicProvider] as [initializeProviders] calls it. *)
Definition anthropicProvider : AnthropicProvider :=
  {| baseURL := "https://api.anthropic.com/v1"; apiVersion := "2023-06-01" |}.

(** The request sent to the vendor: its address, its header fields, under
    the names the code sets them by, and the vendor request its body is the
    JSON text of. *)
Record HTTPRequest := {
  url : string;
  httpHeader : gmap string string;
  body : gmap string Value
}.

(** What comes of [httpClient.Do] and [io.ReadAll]. *)
Inductive HTTPResult :=
| DoError (text : string)
| ReadError (text : string)
| Response (status : Z) (respBody : string).

Inductive AdapterError :=
| ValidationFailed (e : ValidationError)
| MarshalFailed (text : string)
| RequestFailed (text : string)
| ReadFailed (text : string)
| StatusError (status : Z) (respBody : string)
| ParseFailed (text : string)
| TransformationFailed.

Definition adapterErrorText (e : AdapterError) : string :=
  match e with
  | ValidationFailed e => "request validation failed: " +:+ validationText e
  | MarshalFailed text => "failed to marshal request: " +:+ text
  | RequestFailed text => "HTTP request failed: " +:+ text
  | ReadFailed text => "failed to read response body: " +:+ text
  | StatusError status respBody =>
      "API request failed with status " +:+ JSON.Itoa status +:+ ": " +:+ respBody
  | ParseFailed text => "failed to parse response: " +:+ text
  | TransformationFailed => "response transformation failed: invalid response type"
  end.

Section Call.

(** The vendor, and [json.Unmarshal] into an [AnthropicResponse] with the
    text of its error. *)
Variable Do : HTTPRequest -> HTTPResult.
Variable unmarshalResponse : string -> AnthropicResponse + string.

Definition newRequest (ap : AnthropicProvider) (ctx : LLMRequestContext)
    (req : ChatCompletionRequest) : HTTPRequest :=
  let h0 : gmap string string :=
    <["anthropic-version" := apiVersion ap]>
      (<["x-api-key" := KeyValue (ContextAPIKey ctx)]>
         (<["Content-Type" := "application/json"]> ∅)) in
  let h1 := if negb (String.eqb (AnthropicVersion req) "")
            then <["anthropic-version" := AnthropicVersion req]> h0
            else h0 in
  {| url := baseURL ap +:+ "/messages"; httpHeader := h1;
     body := TransformRequest req |}.

(** The answer, and the requests that went out to the vendor.  [now] is the
    value of [time.Now().Unix()].  The address of the provider is one
    [http.NewRequest] accepts. *)
Definition ChatCompletion (ap : AnthropicProvider) (now : Z) (ctx : LLMRequestContext)
    (req : ChatCompletionRequest)
    : (ChatCompletionResponse + AdapterError) * list HTTPRequest :=
  match ValidateRequest req with
  | Some e => (inr (ValidationFailed e), [])
  | None =>
      match marshalError req with
      | Some text => (inr (MarshalFailed text), [])
      | None =>
          let httpReq := newRequest ap ctx req in
          match Do httpReq with
          | DoError text => (inr (RequestFailed text), [httpReq])
          | ReadError text => (inr (ReadFailed text), [httpReq])
          | Response status respBody =>
              if (status <? 200) || (300 <=? status)
              then (inr (StatusError status respBody), [httpReq])
              else
                match unmarshalResponse respBody with
                | inr text => (inr (ParseFailed text), [httpReq])
                | inl anthropicResp =>
                    match TransformResponse now (IAnthropicResponse anthropicResp) with
                    | None => (inr TransformationFailed, [httpReq])
                    | Some response => (inl response, [httpReq])
                    end
                end
          end
      end
  end.

End Call.

(** *** The opening of the adapter's StreamChatCompletion *)

(** [req.Stream = true], which the adapter writes into the caller's
    request. *)
Definition setStream (req : ChatCompletionRequest) : ChatCompletionRequest :=
  {| Model := Model req; Messages := Messages req; MaxTokens := MaxTokens req;
     Temperature := Temperature req; TopP := TopP req; System := System req;
     Stop := Stop req; Stream := true; Metadata := Metadata req;
     AnthropicVersion := AnthropicVersion req |}.

(** What comes of [httpClient.Do] for a stream: an error, or a status and a
    body that arrives in successive reads and ends. *)
Inductive StreamOpening :=
| OpenError (text : string)
| Opened (status : Z) (chunks : list string) (ending : StreamEnd).

Section StreamCall.
Context `{JSON.Decoder}.
Variable DoStream : HTTPRequest -> StreamOpening.

Definition newStreamRequest (ap : AnthropicProvider) (ctx : LLMRequestContext)
    (req : ChatCompletionRequest) : HTTPRequest :=
  let h0 : gmap string string :=
    <["Cache-Control" := "no-cache"]>
      (<["Accept" := "text/event-stream"]>
         (<["anthropic-version" := apiVersion ap]>
            (<["x-api-key" := KeyValue (ContextAPIKey ctx)]>
               (<["Content-Type" := "application/json"]> ∅)))) in
  let h1 := if negb (String.eqb (AnthropicVersion req) "")
            then <["anthropic-version" := AnthropicVersion req]> h0
            else h0 in
  {| url := baseURL ap +:+ "/messages"; httpHeader := h1;
     body := TransformRequest req |}.

(** The frames the caller will find on the channel, or the error, and the
    requests that went out.  The body of a refusal is read to its end,
    whatever the end is. *)
Definition StreamChatCompletion (ap : AnthropicProvider) (ctx : LLMRequestContext)
    (request : ChatCompletionRequest)
    : (list string + AdapterError) * list HTTPRequest :=
  let req := setStream request in
  match ValidateRequest req with
  | Some e => (inr (ValidationFailed e), [])
  | None =>
      match marshalError req with
      | Some text => (inr (MarshalFailed text), [])
      | None =>
          let httpReq := newStreamRequest ap ctx req in
          match DoStream httpReq with
          | OpenError text => (inr (RequestFailed text), [httpReq])
          | Opened status chunks ending =>
              if (status <? 200) || (300 <=? status)
              then (inr (StatusError status (String.concat "" chunks)), [httpReq])
              else (inl (streamFrames chunks ending), [httpReq])
          end
      end
  end.

End StreamCall.

End Adapter.

(** ** The synchronous call of the service (services/llm.go) *)

Module Service.
Import Models Anthropic LLM Adapter.

Inductive ModelStatus :=
| ModelStatusActive
| ModelStatusInactive
| ModelStatusDeprecated.

(** A row of the table of models: the columns [GetModelByName] selects by,
    and the model. *)
Record ModelRow := {
  RowProviderID : Z;
  RowModelID : string;
  RowStatus : ModelStatus;
  RowModel : LLMModel
}.

(** [ctx.Provider], as far as the call reads it. *)
Record Provider := {
  ProviderRowID : Z;
  ProviderType : string
}.

Inductive ServiceError :=
| ModelNotFound (modelName : string)
| ProviderNotSupported (providerType : string)
| CreateLogFailed (text : string)
| AdapterFailed (e : AdapterError).

Definition serviceErrorText (e : ServiceError) : string :=
  match e with
  | ModelNotFound modelName => "model not found: " +:+ modelName
  | ProviderNotSupported providerType => "provider " +:+ providerType +:+ " not supported"
  | CreateLogFailed text => "failed to create request log: " +:+ text
  | AdapterFailed e => adapterErrorText e
  end.

Definition isActiveModel (status : ModelStatus) : bool :=
  match status with
  | ModelStatusActive => true
  | _ => false
  end.

(** [Where("provider_id = ? AND model_id = ? AND status = ?", ...).First]:
    any error of the query is reported as the model not being found. *)
Definition GetModelByName (db : Store) (models : list ModelRow) (providerID : Z)
    (modelName : string) : LLMModel + ServiceError :=
  if negb (available db) then inr (ModelNotFound modelName)
  else
    match List.find (fun row => (RowProviderID row =? providerID)
                                && String.eqb (RowModelID row) modelName
                                && isActiveModel (RowStatus row)) models with
    | Some row => inl (RowModel row)
    | None => inr (ModelNotFound modelName)
    end.

(** The providers [initializeProviders] registers. *)
Definition providers (providerType : string) : option AnthropicProvider :=
  if String.eqb providerType "anthropic" then Some anthropicProvider else None.

Definition updateRequestLogSuccess (logs : list LLMRequestLog) (logID : Z)
    (usage : ChatCompletionUsage) (inputCost outputCost totalCost : float)
    (latencyMs : Z) : list LLMRequestLog :=
  updateRow logID
    (fun row =>
       {| LogID := LogID row; LogAPIKeyID := LogAPIKeyID row;
          LogModelName := LogModelName row;
          LogStatus := "completed";
          LogInputTokens := InputTokens usage; LogOutputTokens := OutputTokens usage;
          LogTotalTokens := TotalTokens usage;
          LogInputCost := inputCost; LogOutputCost := outputCost;
          LogTotalCost := totalCost;
          LatencyMs := latencyMs; HTTPStatus := 200;
          ErrorMessage := ErrorMessage row; CreatedAt := CreatedAt row |}) logs.

Definition updateRequestLogError (logs : list LLMRequestLog) (logID : Z)
    (text : string) (latencyMs : Z) : list LLMRequestLog :=
  updateRow logID
    (fun row =>
       {| LogID := LogID row; LogAPIKeyID := LogAPIKeyID row;
          LogModelName := LogModelName row;
          LogStatus := "failed";
          LogInputTokens := LogInputTokens row; LogOutputTokens := LogOutputTokens row;
          LogTotalTokens := LogTotalTokens row;
          LogInputCost := LogInputCost row; LogOutputCost := LogOutputCost row;
          LogTotalCost := LogTotalCost row;
          LatencyMs := latencyMs; HTTPStatus := 500;
          ErrorMessage := text; CreatedAt := CreatedAt row |}) logs.

(** What the store does with the statements of one call: whether the insert
    of the log row fails, and with which text, and whether the update at the
    end goes through. *)
Record StoreRun := {
  createError : option string;
  updateApplies : bool
}.

Section Call.
Variable Do : HTTPRequest -> HTTPResult.
Variable unmarshalResponse : string -> AnthropicResponse + string.

(** The answer of the call, the log table after it and the requests that
    went out.  [logID] is the primary key the insert assigns, [now] the clock
    at the insert, [unix] the clock of the adapter in seconds and [latencyMs]
    the time the vendor took. *)
Definition ChatCompletion (db : Store) (models : list ModelRow) (run : StoreRun)
    (provider : Provider) (ctx : LLMRequestContext) (req : ChatCompletionRequest)
    (logID : Z) (now : Time.Time) (unix latencyMs : Z)
    : (ChatCompletionResponse + ServiceError) * list LLMRequestLog * list HTTPRequest :=
  let logs := llm_request_logs db in
  match GetModelByName db models (ProviderRowID provider) (Model req) with
  | inr e => (inr e, logs, [])
  | inl model =>
      match providers (ProviderType provider) with
      | None => (inr (ProviderNotSupported (ProviderType provider)), logs, [])
      | Some ap =>
          match marshalError req with
          | Some text =>
              (inr (CreateLogFailed ("failed to marshal request data: " +:+ text)), logs, [])
          | None =>
              match createError run with
              | Some text => (inr (CreateLogFailed text), logs, [])
              | None =>
                  let logs1 :=
                    logs ++ [pendingLog logID (ContextAPIKeyID ctx) (Model req) now] in
                  match Adapter.ChatCompletion Do unmarshalResponse ap unix ctx req with
                  | (inr e, out) =>
                      (inr (AdapterFailed e),
                       if updateApplies run
                       then updateRequestLogError logs1 logID (adapterErrorText e) latencyMs
                       else logs1,
                       out)
                  | (inl response, out) =>
                      let '(inputCost, outputCost, totalCost) :=
                        CalculateCost (ResponseUsage response) model in
                      (inl response,
                       if updateApplies run
                       then updateRequestLogSuccess logs1 logID (ResponseUsage response)
                              inputCost outputCost totalCost latencyMs
                       else logs1,
                       out)
                  end
              end
          end
      end
  end.

End Call.

End Service.

(** ** Package strconv *)

Module Strconv.

(** [strconv.Atoi] on a 64-bit target: an optional sign, then decimal digits
    and nothing else, of a value within [int]; [None] is the syntax or the
    range error. *)
Definition Atoi (s : string) : option Z :=
  let '(neg, digits) :=
    match s with
    | String c r =>
        if Ascii.eqb c "-" then (true, r)
        else if Ascii.eqb c "+" then (false, r)
        else (false, s)
    | EmptyString => (false, s)
    end in
  match JSON.read_digits digits with
  | (Decimal.Nil, _) => None
  | (u, EmptyString) =>
      let n := if neg then - Z.of_uint u else Z.of_uint u in
      if (Go.min_int64 <=? n) && (n <=? Go.max_int64) then Some n else None
  | (_, String _ _) => None
  end.

End Strconv.

(** ** The request as the handlers read it (gin.Context) *)

Module Gin.

(** The header fields and the query parameters of a request, each with its
    first value.  Header names are matched without regard to case, so the
    fields are kept under the names the handlers ask for. *)
Record Context := {
  header : gmap string string;
  query : gmap string string
}.

(** [c.GetHeader(key)] and [c.Query(key)]: the empty string when absent. *)
Definition GetHeader (c : Context) (key : string) : string :=
  default "" (header c !! key).

Definition Query (c : Context) (key : string) : string :=
  default "" (query c !! key).

End Gin.

(** ** Pagination and authentication (api/middleware) *)

Module Middleware.
Import Gin.

(** What the middleware stores in the context under "page", "limit" and
    "offset". *)
Record Pagination := {
  page : Z;
  limit : Z;
  offset : Z
}.

Definition PaginationMiddleware (c : Context) : Pagination :=
  let page :=
    let p := Query c "page" in
    if negb (String.eqb p "") then
      match Strconv.Atoi p with
      | Some parsed => if 0 <? parsed then parsed else 1
      | None => 1
      end
    else 1 in
  let limit :=
    let l := Query c "limit" in
    if negb (String.eqb l "") then
      match Strconv.Atoi l with
      | Some parsed => if (0 <? parsed) && (parsed <=? 100) then parsed else 10
      | None => 10
      end
    else 10 in
  let offset := Go.wrap64 (Go.wrap64 (page - 1) * limit) in
  {| page := page; limit := limit; offset := offset |}.

(** *** AuthMiddleware *)

(** The values of the claims of a token, by their dynamic type. *)
Inductive Claim :=
| ClaimNumber (f : float)
| ClaimString (s : string)
| ClaimOther.

(** What [jwt.Parse] gives: an error or a token that is not valid, claims
    that are not a [MapClaims], or the claims. *)
Inductive Parsed :=
| ParseInvalid
| ParseNotMap
| ParseClaims (claims : gmap string Claim).

Inductive AuthOutcome :=
| Unauthorized (error : string)
| Next (userID : Z) (username role : string).

Section Auth.

(** The token library, keyed by the secret, and the conversion [uint(f)] of
    a [float64]. *)
Variable jwtParse : string -> string -> Parsed.
Variable uintOf : float -> Z.

Definition AuthMiddleware (jwtSecret : string) (c : Context) : AuthOutcome :=
  let authHeader := GetHeader c "Authorization" in
  if String.eqb authHeader "" then Unauthorized "Authorization header required"
  else
    match Strings.Split authHeader " " with
    | [first; tokenString] =>
        if negb (String.eqb first "Bearer") then Unauthorized "Invalid authorization format"
        else
          match jwtParse jwtSecret tokenString with
          | ParseInvalid => Unauthorized "Invalid token"
          | ParseNotMap => Unauthorized "Invalid token claims"
          | ParseClaims claims =>
              match claims !! "user_id" with
              | Some (ClaimNumber userID) =>
                  match claims !! "username" with
                  | Some (ClaimString username) =>
                      match claims !! "role" with
                      | Some (ClaimString role) => Next (uintOf userID) username role
                      | _ => Unauthorized "Invalid role in token"
                      end
                  | _ => Unauthorized "Invalid username in token"
                  end
              | _ => Unauthorized "Invalid user ID in token"
              end
          end
    | _ => Unauthorized "Invalid authorization format"
    end.

End Auth.

End Middleware.

(** ** The completion handler (api/handlers/llm.go) *)

Module Handlers.
Import Gin Models.

Definition extractAPIKey (c : Context) : string :=
  let authHeader := GetHeader c "Authorization" in
  if negb (String.eqb authHeader "") && Strings.HasPrefix authHeader "Bearer "
  then Strings.TrimPrefix authHeader "Bearer "
  else
    let apiKey := GetHeader c "x-api-key" in
    if negb (String.eqb apiKey "") then apiKey
    else Query c "api_key".

(** The body of an error answer: [{"error": {"message": ..., "type": ...}}]
    under a status code. *)
Record ErrorAnswer := {
  statusCode : Z;
  errorType : string;
  message : string
}.

(** [err.Error()] of the errors of [ValidateAPIKeyOptimized]; [cause] is the
    text of the store's error, which the usage check wraps. *)
Definition gateErrorText (cause : string) (e : LLM.Error) : string :=
  match e with
  | LLM.ErrInvalidAPIKey => "invalid API key"
  | LLM.ErrAPIKeyExpired => "API key expired"
  | LLM.ErrUsageCheckFailed => "failed to check usage limits: " +:+ cause
  | LLM.ErrDailyLimitExceeded => "daily request limit exceeded"
  | LLM.ErrMonthlyLimitExceeded => "monthly request limit exceeded"
  end.

(** What the handler writes: an error body, the response of a call that
    succeeded, or what the streaming handler does. *)
Inductive Answer (S : Type) :=
| Failure (answer : ErrorAnswer)
| Success (response : ChatCompletionResponse)
| Streaming (s : S).
Arguments Failure {S} answer.
Arguments Success {S} response.
Arguments Streaming {S} s.

(** The status and the type an error of the service is answered with. *)
Definition handleRegularCompletion {S} (result : ChatCompletionResponse + Service.ServiceError)
    : Answer S :=
  match result with
  | inr err =>
      let text := Service.serviceErrorText err in
      let '(statusCode, errorType) :=
        if Strings.Contains text "invalid" || Strings.Contains text "validation"
        then (400, "invalid_request_error")
        else if Strings.Contains text "limit exceeded"
        then (429, "rate_limit_error")
        else if Strings.Contains text "not found"
        then (404, "invalid_request_error")
        else (500, "api_error") in
      Failure {| statusCode := statusCode; errorType := errorType; message := text |}
  | inl response => Success response
  end.

(** What the streaming handler writes: one event under a status code, or
    the frames it forwards and whether it ends them with the [DONE] event of
    [c.SSEvent]. *)
Inductive StreamAnswer :=
| ErrorEvent (statusCode : Z) (event : string)
| Forwarded (frames : list string) (done : bool).

Definition errorEvent (text errorType : string) : string :=
  JSON.q "data: {'error': {'message': '" +:+ text +:+ JSON.q "', 'type': '"
  +:+ errorType +:+ JSON.q "'}}" +:+ Strings.nlnl.

(** [result] is the error of the service, or the frames that come off its
    channel with whether the channel was closed ([true]) or the client went
    away first ([false]). *)
Definition handleStreamingCompletion (result : list string * bool + Service.ServiceError)
    : StreamAnswer :=
  match result with
  | inr err =>
      let text := Service.serviceErrorText err in
      let errorType :=
        if Strings.Contains text "invalid" || Strings.Contains text "validation"
        then "invalid_request_error"
        else if Strings.Contains text "limit exceeded"
        then "rate_limit_error"
        else "api_error" in
      ErrorEvent 200 (errorEvent text errorType)
  | inl (frames, closed) => Forwarded frames closed
  end.

Section Handler.
Context {S : Type}.

(** The two calls of the service, each from the context and the request. *)
Variable regular : LLMRequestContext -> ChatCompletionRequest
                   -> ChatCompletionResponse + Service.ServiceError.
Variable streaming : LLMRequestContext -> ChatCompletionRequest -> S.

(** [bound] is what [ShouldBindJSON] makes of the body: the request, or the
    text of its error; [cause] the text of the store's error, should the
    usage check fail on it. *)
Definition ChatCompletion (c : Context) (cache : Cache.CacheService) (db : LLM.Store)
    (now : Time.Time) (cause : string) (bound : ChatCompletionRequest + string)
    : Answer S * Cache.CacheService :=
  let apiKey := extractAPIKey c in
  if String.eqb apiKey "" then
    (Failure {| statusCode := 401; errorType := "authentication_error";
                message := "API key is required" |}, cache)
  else
    match LLM.ValidateAPIKeyOptimized cache db now apiKey with
    | (LLM.Err err, cache1) =>
        (Failure {| statusCode := 401; errorType := "authentication_error";
                    message := gateErrorText cause err |}, cache1)
    | (LLM.Ok ctx, cache1) =>
        match bound with
        | inr text =>
            (Failure {| statusCode := 400; errorType := "invalid_request_error";
                        message := "Invalid request body: " +:+ text |}, cache1)
        | inl req =>
            if Stream req then (Streaming (streaming ctx req), cache1)
            else (handleRegularCompletion (regular ctx req), cache1)
        end
    end.

End Handler.

End Handlers.

(** ** The batch operations of the cache service *)

Module CacheBatch.
Import Models Cache.

Record BatchCacheEntry := {
  Key : string;
  Value : Payload;
  TTL : Z
}.

(** [json.Marshal(entry.Value)], kept as the entry the text decodes to: the
    key value of an API key is not written. *)
Definition marshal (value : Payload) : Payload :=
  match value with
  | APIKeyPayload entry =>
      APIKeyPayload {| EntryAPIKey := throughJSON (EntryAPIKey entry);
                       CachedAt := CachedAt entry;
                       EntryExpiresAt := EntryExpiresAt entry |}
  | UsagePayload entry => UsagePayload entry
  end.

(** The pipeline of [Set] commands, carried out in order. *)
Definition SetBatch (c : CacheService) (now : Time.Time) (entries : list BatchCacheEntry)
    : CacheService :=
  match redis c with
  | None => c
  | Some r =>
      match entries with
      | [] => c
      | _ :: _ =>
          {| redis :=
               Some (fold_left
                       (fun pipe entry =>
                          redisSet pipe now (Key entry) (marshal (Value entry)) (TTL entry))
                       entries r) |}
      end
  end.

Definition SetAPIKeyWithUsage (c : CacheService) (now : Time.Time) (apiKey : string)
    (dbAPIKey : APIKey) (usage : UsageCounts) (apiKeyTTL usageTTL : Z) : CacheService :=
  match redis c with
  | None => c
  | Some _ =>
      let apiKeyEntry := {| EntryAPIKey := dbAPIKey; CachedAt := now;
                            EntryExpiresAt := ExpiresAt dbAPIKey |} in
      let usageEntry := {| EntryDailyCount := DailyCount usage;
                           EntryMonthlyCount := MonthlyCount usage;
                           UsageCachedAt := now |} in
      let entries :=
        [ {| Key := apiKeyCacheKey apiKey; Value := APIKeyPayload apiKeyEntry;
             TTL := apiKeyTTL |};
          {| Key := usageCacheKey (ID dbAPIKey); Value := UsagePayload usageEntry;
             TTL := usageTTL |} ] in
      SetBatch c now entries
  end.

(** The pipeline of [Del] commands. *)
Definition InvalidateBatch (c : CacheService) (keys : list string) : CacheService :=
  match redis c with
  | None => c
  | Some r =>
      match keys with
      | [] => c
      | _ :: _ => {| redis := Some (fold_left (fun pipe key => delete key pipe) keys r) |}
      end
  end.

Definition InvalidateAPIKeyAndUsage (c : CacheService) (apiKey : string) (apiKeyID : Z)
    : CacheService :=
  match redis c with
  | None => c
  | Some _ => InvalidateBatch c [apiKeyCacheKey apiKey; usageCacheKey apiKeyID]
  end.

(** [Where("status = ?", "active").Find(&apiKeys)] and the batch that caches
    them for five minutes; [false] is the error of the query. *)
Definition WarmupAPIKeyCache (c : CacheService) (now : Time.Time) (db : LLM.Store)
    : bool * CacheService :=
  match redis c with
  | None => (true, c)
  | Some _ =>
      if negb (LLM.available db) then (false, c)
      else
        let apiKeys := List.filter (fun row => LLM.isActive (Status row)) (LLM.api_keys db) in
        let entries :=
          List.map (fun apiKey =>
                      {| Key := apiKeyCacheKey (KeyValue apiKey);
                         Value := APIKeyPayload {| EntryAPIKey := apiKey; CachedAt := now;
                                                   EntryExpiresAt := ExpiresAt apiKey |};
                         TTL := 5 * Time.Minute |}) apiKeys in
        match entries with
        | [] => (true, c)
        | _ :: _ => (true, SetBatch c now entries)
        end
  end.

End CacheBatch.

(** ** The gate with the usage fetched ahead *)

Module LLMBatch.
Import Models Cache CacheBatch LLM.

(** [usage] is the pointer argument; [None] is nil. *)
Definition validateUsageLimitsOptimizedWithUsage (c : CacheService) (db : Store)
    (now : Time.Time) (dbAPIKey : APIKey) (usage : option UsageCounts)
    : Result LLMRequestContext * CacheService :=
  let fetched : option (option UsageCounts * CacheService) :=
    if ((0 <? DailyRequestLimit dbAPIKey) || (0 <? MonthlyRequestLimit dbAPIKey))
       && match usage with None => true | Some _ => false end
    then
      match GetUsageCount c now (ID dbAPIKey) with
      | Some cachedUsage => Some (Some cachedUsage, c)
      | None =>
          match getBatchUsageFromDB db now (ID dbAPIKey) with
          | None => None
          | Some usage' =>
              Some (Some usage', SetUsageCount c now (ID dbAPIKey) usage' (1 * Time.Minute))
          end
      end
    else Some (usage, c) in
  match fetched with
  | None => (Err ErrUsageCheckFailed, c)
  | Some (Some usage', c') => (checkLimits now dbAPIKey usage', c')
  | Some (None, c') => (Ok (requestContext now dbAPIKey), c')
  end.

Definition ValidateAPIKeyOptimized (c : CacheService) (db : Store) (now : Time.Time)
    (apiKey : string) : Result LLMRequestContext * CacheService :=
  match GetAPIKey c now apiKey with
  | (Some cachedAPIKey, c1) =>
      validateUsageLimitsOptimizedWithUsage c1 db now cachedAPIKey None
  | (None, c1) =>
      match firstActiveKey db apiKey with
      | None => (Err ErrInvalidAPIKey, c1)
      | Some dbAPIKey =>
          if match ExpiresAt dbAPIKey with
             | Some expiresAt => Time.Before expiresAt now
             | None => false
             end
          then (Err ErrAPIKeyExpired, c1)
          else if (0 <? DailyRequestLimit dbAPIKey) || (0 <? MonthlyRequestLimit dbAPIKey)
          then
            match getBatchUsageFromDB db now (ID dbAPIKey) with
            | None =>
                validateUsageLimitsOptimizedWithUsage
                  (SetAPIKey c1 now apiKey dbAPIKey (5 * Time.Minute)) db now dbAPIKey None
            | Some usage =>
                validateUsageLimitsOptimizedWithUsage
                  (SetAPIKeyWithUsage c1 now apiKey dbAPIKey usage
                     (5 * Time.Minute) (1 * Time.Minute))
                  db now dbAPIKey (Some usage)
            end
          else
            validateUsageLimitsOptimizedWithUsage
              (SetAPIKey c1 now apiKey dbAPIKey (5 * Time.Minute)) db now dbAPIKey None
      end
  end.

End LLMBatch.

(** ** The cache service, one key at a time (the other copy of the file) *)

Module CacheSingle.
Import Models Cache.

Definition InvalidateUsageCount (c : CacheService) (apiKeyID : Z) : CacheService :=
  match redis c with
  | None => c
  | Some r => {| redis := Some (delete (usageCacheKey apiKeyID) r) |}
  end.

(** The warm-up that caches the active keys with one [SetAPIKey] each;
    [false] is the error of the query. *)
Definition WarmupAPIKeyCache (c : CacheService) (now : Time.Time) (db : LLM.Store)
    : bool * CacheService :=
  match redis c with
  | None => (true, c)
  | Some _ =>
      if negb (LLM.available db) then (false, c)
      else
        let apiKeys := List.filter (fun row => LLM.isActive (Status row)) (LLM.api_keys db) in
        (true,
         fold_left (fun cache apiKey =>
                      SetAPIKey cache now (KeyValue apiKey) apiKey (5 * Time.Minute))
           apiKeys c)
  end.

End CacheSingle.

(** ** The aggregation of usage logs (services/analytics.go) *)

Module Analytics.

(** A usage log with the user and the model it was loaded with, as far as
    the aggregation reads it. *)
Record UsageLog := {
  CreatedAt : Time.Time;
  UserID : Z;
  Username : string;
  ModelID : Z;
  ModelName : string;
  ModelProviderID : Z;
  ModelProviderName : string;
  TotalTokens : Z;
  TotalCost : float;
  Success : bool;
  ResponseTime : Z
}.

Record DailyMetric := {
  Date : string;
  DailyRequestCount : Z;
  DailyCost : float;
  DailyTokens : Z
}.

Record HourlyMetric := {
  Hour : Z;
  HourlyRequestCount : Z;
  HourlyCost : float
}.

Record ProviderMetric := {
  ProviderID : Z;
  ProviderName : string;
  ProviderRequests : Z;
  ProviderCost : float;
  ProviderSuccessRate : float
}.

Record ModelMetric := {
  MetricModelID : Z;
  MetricModelName : string;
  ModelRequests : Z;
  ModelCost : float;
  ModelSuccessRate : float
}.

Record UserMetric := {
  MetricUserID : Z;
  MetricUsername : string;
  Requests : Z;
  Cost : float;
  LastRequest : Time.Time
}.

(** The five slices of the result are filled by ranging over the maps of the
    loop, in the order Go happens to visit them; they are kept here as the
    maps. *)
Record UsageAnalytics := {
  TotalRequests : Z;
  SuccessfulRequests : Z;
  FailedRequests : Z;
  AnalyticsTotalCost : float;
  AnalyticsTotalTokens : Z;
  AverageResponseTime : float;
  DailyRequests : gmap string DailyMetric;
  HourlyRequests : gmap Z HourlyMetric;
  ProviderMetrics : gmap Z ProviderMetric;
  ModelMetrics : gmap Z ModelMetric;
  UserMetrics : gmap Z UserMetric
}.

Definition After (t u : Time.Time) : bool := Time.unixNano u <? Time.unixNano t.

(** [t.Hour()] *)
Definition HourOf (t : Time.Time) : Z := Time.localSeconds t mod 86400 / 3600.

(** [appendInt] of package time: a sign for a negative number, then its
    digits behind zeros up to [width]. *)
Definition appendInt (x : Z) (width : nat) : string :=
  let digits := JSON.Itoa (Z.abs x) in
  let padded :=
    String.concat "" (List.repeat "0" (width - String.length digits)) +:+ digits in
  if x <? 0 then "-" +:+ padded else padded.

(** [t.Format("2006-01-02")] *)
Definition formatDate (t : Time.Time) : string :=
  appendInt (Time.Year t) 4 +:+ "-" +:+ appendInt (Time.Month t) 2
  +:+ "-" +:+ appendInt (Time.Day t) 2.

(** The variables of the loop. *)
Record Totals := {
  successfulRequests : Z;
  failedRequests : Z;
  totalCost : float;
  totalTokens : Z;
  totalResponseTime : Z;
  userMetricsMap : gmap Z UserMetric;
  providerMetricsMap : gmap Z ProviderMetric;
  modelMetricsMap : gmap Z ModelMetric;
  dailyMetricsMap : gmap string DailyMetric;
  hourlyMetricsMap : gmap Z HourlyMetric
}.

Definition start : Totals :=
  {| successfulRequests := 0; failedRequests := 0; totalCost := 0%float;
     totalTokens := 0; totalResponseTime := 0;
     userMetricsMap := ∅; providerMetricsMap := ∅; modelMetricsMap := ∅;
     dailyMetricsMap := ∅; hourlyMetricsMap := ∅ |}.

(** The success rate of a metric that now counts [requests], after a log
    that succeeded or failed. *)
Definition recalculate (requests : Z) (rate : float) (success : bool) : float :=
  let successCount :=
    if success
    then (Go.float64_of_int (Go.wrap64 (requests - 1)) * rate + 1)%float
    else (Go.float64_of_int (Go.wrap64 (requests - 1)) * rate)%float in
  (successCount / Go.float64_of_int requests)%float.

Definition countUser (log : UsageLog) (m : gmap Z UserMetric) : gmap Z UserMetric :=
  match m !! UserID log with
  | Some userMetric =>
      <[UserID log :=
          {| MetricUserID := MetricUserID userMetric;
             MetricUsername := MetricUsername userMetric;
             Requests := Go.int_add (Requests userMetric) 1;
             Cost := (Cost userMetric + TotalCost log)%float;
             LastRequest := if After (CreatedAt log) (LastRequest userMetric)
                            then CreatedAt log else LastRequest userMetric |}]> m
  | None =>
      <[UserID log :=
          {| MetricUserID := UserID log; MetricUsername := Username log;
             Requests := 1; Cost := TotalCost log; LastRequest := CreatedAt log |}]> m
  end.

Definition countProvider (log : UsageLog) (m : gmap Z ProviderMetric)
    : gmap Z ProviderMetric :=
  if ModelProviderID log =? 0 then m
  else
    let providerID := ModelProviderID log in
    match m !! providerID with
    | Some providerMetric =>
        let requests := Go.int_add (ProviderRequests providerMetric) 1 in
        <[providerID :=
            {| ProviderID := ProviderID providerMetric;
               ProviderName := ProviderName providerMetric;
               ProviderRequests := requests;
               ProviderCost := (ProviderCost providerMetric + TotalCost log)%float;
               ProviderSuccessRate :=
                 recalculate requests (ProviderSuccessRate providerMetric) (Success log) |}]> m
    | None =>
        <[providerID :=
            {| ProviderID := providerID; ProviderName := ModelProviderName log;
               ProviderRequests := 1; ProviderCost := TotalCost log;
               ProviderSuccessRate := if Success log then 1%float else 0%float |}]> m
    end.

Definition countModel (log : UsageLog) (m : gmap Z ModelMetric) : gmap Z ModelMetric :=
  match m !! ModelID log with
  | Some modelMetric =>
      let requests := Go.int_add (ModelRequests modelMetric) 1 in
      <[ModelID log :=
          {| MetricModelID := MetricModelID modelMetric;
             MetricModelName := MetricModelName modelMetric;
             ModelRequests := requests;
             ModelCost := (ModelCost modelMetric + TotalCost log)%float;
             ModelSuccessRate :=
               recalculate requests (ModelSuccessRate modelMetric) (Success log) |}]> m
  | None =>
      <[ModelID log :=
          {| MetricModelID := ModelID log; MetricModelName := ModelName log;
             ModelRequests := 1; ModelCost := TotalCost log;
             ModelSuccessRate := if Success log then 1%float else 0%float |}]> m
  end.

Definition countDay (log : UsageLog) (m : gmap string DailyMetric)
    : gmap string DailyMetric :=
  let dateStr := formatDate (CreatedAt log) in
  match m !! dateStr with
  | Some dailyMetric =>
      <[dateStr :=
          {| Date := Date dailyMetric;
             DailyRequestCount := Go.int_add (DailyRequestCount dailyMetric) 1;
             DailyCost := (DailyCost dailyMetric + TotalCost log)%float;
             DailyTokens := Go.int_add (DailyTokens dailyMetric) (TotalTokens log) |}]> m
  | None =>
      <[dateStr :=
          {| Date := dateStr; DailyRequestCount := 1; DailyCost := TotalCost log;
             DailyTokens := TotalTokens log |}]> m
  end.

Definition countHour (log : UsageLog) (m : gmap Z HourlyMetric) : gmap Z HourlyMetric :=
  let hour := HourOf (CreatedAt log) in
  match m !! hour with
  | Some hourlyMetric =>
      <[hour :=
          {| Hour := Hour hourlyMetric;
             HourlyRequestCount := Go.int_add (HourlyRequestCount hourlyMetric) 1;
             HourlyCost := (HourlyCost hourlyMetric + TotalCost log)%float |}]> m
  | None =>
      <[hour := {| Hour := hour; HourlyRequestCount := 1; HourlyCost := TotalCost log |}]> m
  end.

(** The body of [for _, log := range usageLogs]. *)
Definition process (t : Totals) (log : UsageLog) : Totals :=
  {| successfulRequests :=
       if Success log then Go.int_add (successfulRequests t) 1 else successfulRequests t;
     failedRequests :=
       if Success log then failedRequests t else Go.int_add (failedRequests t) 1;
     totalCost := (totalCost t + TotalCost log)%float;
     totalTokens := Go.int_add (totalTokens t) (TotalTokens log);
     totalResponseTime := Go.int_add (totalResponseTime t) (ResponseTime log);
     userMetricsMap := countUser log (userMetricsMap t);
     providerMetricsMap := countProvider log (providerMetricsMap t);
     modelMetricsMap := countModel log (modelMetricsMap t);
     dailyMetricsMap := countDay log (dailyMetricsMap t);
     hourlyMetricsMap := countHour log (hourlyMetricsMap t) |}.

Definition calculateAnalytics (usageLogs : list UsageLog) (total : Z) : UsageAnalytics :=
  match usageLogs with
  | [] =>
      {| TotalRequests := total; SuccessfulRequests := 0; FailedRequests := 0;
         AnalyticsTotalCost := 0%float; AnalyticsTotalTokens := 0;
         AverageResponseTime := 0%float;
         DailyRequests := ∅; HourlyRequests := ∅; ProviderMetrics := ∅;
         ModelMetrics := ∅; UserMetrics := ∅ |}
  | _ :: _ =>
      let t := fold_left process usageLogs start in
      let averageResponseTime :=
        if 0 <? total
        then (Go.float64_of_int (totalResponseTime t) / Go.float64_of_int total)%float
        else 0%float in
      {| TotalRequests := total;
         SuccessfulRequests := successfulRequests t;
         FailedRequests := failedRequests t;
         AnalyticsTotalCost := totalCost t;
         AnalyticsTotalTokens := totalTokens t;
         AverageResponseTime := averageResponseTime;
         DailyRequests := dailyMetricsMap t;
         HourlyRequests := hourlyMetricsMap t;
         ProviderMetrics := providerMetricsMap t;
         ModelMetrics := modelMetricsMap t;
         UserMetrics := userMetricsMap t |}
  end.

End Analytics.

(** ** The configuration read from the environment (package config) *)

Module Config.

(** [os.Getenv]: the empty string for a variable that is not set. *)
Definition Getenv (env : gmap string string) (key : string) : string :=
  default "" (env !! key).

Definition getEnvOrDefault (env : gmap string string) (key defaultValue : string) : string :=
  let value := Getenv env key in
  if negb (String.eqb value "") then value else defaultValue.

Definition getEnvIntOrDefault (env : gmap string string) (key : string) (defaultValue : Z)
    : Z :=
  let value := Getenv env key in
  if negb (String.eqb value "") then
    match Strconv.Atoi value with
    | Some intValue => intValue
    | None => defaultValue
    end
  else defaultValue.

(** The field [RateLimitRPS] of what [Load] returns, which the server hands
    to [RateLimit]. *)
Definition RateLimitRPS (env : gmap string string) : Z :=
  getEnvIntOrDefault env "RATE_LIMIT_RPS" 100.

End Config.

(** ** Sample values *)

Definition usage_of_tokens (i o : Z) : Models.ChatCompletionUsage :=
  {| Models.InputTokens := i; Models.OutputTokens := o;
     Models.TotalTokens := Go.int_add i o;
     Models.PromptTokens := i; Models.CompletionTokens := o |}.

Definition default_rates : Models.LLMModel :=
  {| Models.ModelRowID := 1;
     Models.InputCostPer1K := 0x1.0624dd2f1a9fcp-10%float;
     Models.OutputCostPer1K := 0x1.0624dd2f1a9fcp-9%float |}.

(** A store with one key and no log rows, and a clock reading. *)
Definition sample_key (daily monthly : Z) : Models.APIKey :=
  {| Models.ID := 7; Models.UserID := 1; Models.ProviderID := 1;
     Models.KeyValue := "sk-test"; Models.Status := Models.APIKeyStatusActive;
     Models.ExpiresAt := None;
     Models.DailyRequestLimit := daily; Models.MonthlyRequestLimit := monthly |}.

(** 15 January 2024, 03:00 in a zone eight hours east of UTC. *)
Definition sample_now : Time.Time :=
  {| Time.unixNano := 1705258800 * Time.Second; Time.zoneOffset := 8 * 3600 |}.

(** The same instant on a UTC clock. *)
Definition sample_now_utc : Time.Time :=
  {| Time.unixNano := 1705258800 * Time.Second; Time.zoneOffset := 0 |}.

Definition sample_log (logID : Z) (status : string) (created : Time.Time)
    : Models.LLMRequestLog :=
  {| Models.LogID := logID; Models.LogAPIKeyID := 7; Models.LogModelName := "claude-3";
     Models.LogStatus := status;
     Models.LogInputTokens := 0; Models.LogOutputTokens := 0; Models.LogTotalTokens := 0;
     Models.LogInputCost := 0%float; Models.LogOutputCost := 0%float;
     Models.LogTotalCost := 0%float;
     Models.LatencyMs := 0; Models.HTTPStatus := 0; Models.ErrorMessage := "";
     Models.CreatedAt := created |}.

Definition sample_store (logs : list Models.LLMRequestLog) : LLM.Store :=
  {| LLM.api_keys := [sample_key 5 0]; LLM.llm_request_logs := logs;
     LLM.available := true |}.

Definition empty_cache : Cache.CacheService := {| Cache.redis := Some ∅ |}.

(** Five calls made today under the sample key. *)
Definition five_calls_today : list Models.LLMRequestLog :=
  List.map (fun n => sample_log n "completed" sample_now) [1; 2; 3; 4; 5].

(** A cache holding the sample key, written at [sample_now] for five
    minutes. *)
Definition warm_cache : Cache.CacheService :=
  Cache.SetAPIKey empty_cache sample_now "sk-test" (sample_key 0 0) (5 * Time.Minute).

(** The store after the key has been revoked. *)
Definition revoked_store : LLM.Store :=
  {| LLM.api_keys :=
       [ {| Models.ID := 7; Models.UserID := 1; Models.ProviderID := 1;
            Models.KeyValue := "sk-test"; Models.Status := Models.APIKeyStatusRevoked;
            Models.ExpiresAt := None;
            Models.DailyRequestLimit := 0; Models.MonthlyRequestLimit := 0 |} ];
     LLM.llm_request_logs := [];
     LLM.available := true |}.

(** A content frame as the adapter sends it. *)
Definition content_frame : string := Anthropic.dataFrame "x".

(** ** The usage counter as the specification words it *)

(** The count of the completed-or-pending rows of a key between two
    instants. *)
Definition spec_countLogs (logs : list Models.LLMRequestLog) (apiKeyID : Z)
    (from to : Time.Time) : Z :=
  Z.of_nat (List.length (List.filter
    (fun row => LLM.inWindow apiKeyID from to row
                && (String.eqb (Models.LogStatus row) "completed"
                    || String.eqb (Models.LogStatus row) "pending"))
    logs)).

(** Midnight of the current day and the first of the current month on the
    local wall clock. *)
Definition spec_countUsage (logs : list Models.LLMRequestLog) (now : Time.Time)
    (apiKeyID : Z) : Cache.UsageCounts :=
  let midnight := Time.Date (Time.Year now) (Time.Month now) (Time.Day now) 0 0 0 0
                            (Time.zoneOffset now) in
  let nextMidnight := Time.AddDate midnight 0 0 1 in
  let monthStart := Time.Date (Time.Year now) (Time.Month now) 1 0 0 0 0
                              (Time.zoneOffset now) in
  let monthEnd := Time.AddDate monthStart 0 1 0 in
  {| Cache.DailyCount := spec_countLogs logs apiKeyID midnight nextMidnight;
     Cache.MonthlyCount := spec_countLogs logs apiKeyID monthStart monthEnd |}.

(** The window test of the query, on the instants. *)
Definition createdIn (apiKeyID from to : Z) (row : Models.LLMRequestLog) : bool :=
  (Models.LogAPIKeyID row =? apiKeyID)
  && (from <=? Time.unixNano (Models.CreatedAt row))
  && (Time.unixNano (Models.CreatedAt row) <? to).

(** ** Auxiliary definitions for the relay proofs *)

(** The fields of a text between its blank-line separators, by direct
    recursion on the text. *)
Import Strings.

Definition consHead (c : ascii) (fs : list string) : list string :=
  match fs with
  | f :: rest => String c f :: rest
  | [] => [String c EmptyString]
  end.

Fixpoint eventFields (s : string) : list string :=
  match s with
  | EmptyString => [EmptyString]
  | String c r =>
      match r with
      | String c2 r2 =>
          if Ascii.eqb c LF && Ascii.eqb c2 LF then EmptyString :: eventFields r2
          else consHead c (eventFields r)
      | EmptyString => consHead c (eventFields r)
      end
  end.

(** A text without its leading line feeds. *)
Fixpoint dropLF (s : string) : string :=
  match s with
  | String c r => if Ascii.eqb c LF then dropLF r else s
  | EmptyString => EmptyString
  end.

Section ScanDefinitions.
Context `{JSON.Decoder}.
Import Strings Anthropic.

(** The frames of all fields but the last, and the last field. *)
Definition scanFields (fs : list string) : string * list string :=
  (List.last fs EmptyString, omap processSSEEvent (List.removelast fs)).

Definition sameScan (a b : string * list string) : Prop :=
  dropLF (fst a) = dropLF (fst b) /\ snd a = snd b.

(** One read of the whole text [text], from an empty remainder. *)
Definition scan (text : string) : string * list string :=
  processEvents (HasSuffix text nlnl) (parseSSEEvents text) EmptyString.

End ScanDefinitions.

(** ** Auxiliary definitions for the decoder proofs *)

Section DecoderDefinitions.
Import Strings JSON.

Definition is_digit (c : ascii) : bool :=
  match digit_of c with Some _ => true | None => false end.

(** The characters a printed integer can start with. *)
Definition int_start (c : ascii) : Prop :=
  In c ["-"; "0"; "1"; "2"; "3"; "4"; "5"; "6"; "7"; "8"; "9"]%char.

Definition value_end (c : ascii) : Prop := c = ","%char \/ c = "}"%char.

(** A string literal without escapes. *)
Fixpoint plain (s : string) : bool :=
  match s with
  | EmptyString => true
  | String c r =>
      negb (Ascii.eqb c DQUOTE) && negb (Ascii.eqb c BACKSLASH)
      && negb (nat_of_ascii c <? 32)%nat && plain r
  end.

(** The document [json.Marshal] writes for a usage event. *)
Definition usage_document (i o t : Z) : value :=
  Obj [("type", Str "usage_update");
       ("usage", Obj [("input_tokens", Int i); ("output_tokens", Int o);
                      ("total_tokens", Int t)])].

(** A text without line feeds. *)
Fixpoint noLF (s : string) : bool :=
  match s with
  | EmptyString => true
  | String c r => negb (Ascii.eqb c LF) && noLF r
  end.

(** What the relay needs of [json.Unmarshal]: the ints it fills are 64-bit,
    and what [json.Marshal] wrote for a usage event reads back. *)
Definition typedCounts (c : TokenCounts) : Prop :=
  Go.in_int64 (input_tokens c) /\ Go.in_int64 (output_tokens c).

Definition typedEvent (e : AnthropicStreamEvent) : Prop :=
  forall m c, Message e = Some m -> MessageUsage m = Some c -> typedCounts c.

Class DecoderLaws `{Decoder} : Prop := {
  stream_event_typed :
    forall data e, unmarshalStreamEvent data = Some e -> typedEvent e;
  usage_event_roundtrip :
    forall i o t, Go.in_int64 i -> Go.in_int64 o -> Go.in_int64 t ->
      unmarshalUsageEvent (marshalUsageEvent i o t) =
      Some {| UType := "usage_update"; UInputTokens := i; UOutputTokens := o;
              UTotalTokens := t |}
}.

Definition typedMessage (m : StreamMessage) : Prop :=
  forall c, MessageUsage m = Some c -> typedCounts c.

End DecoderDefinitions.

(** ** Events and frames *)

Section EventDefinitions.
Context `{JSON.Decoder}.
Import Strings JSON Models Anthropic LLM.

(** The payload [processSSEEvent] settles on: that of the first [data: ] line
    that is neither empty nor the [DONE] marker. *)
Fixpoint firstPayload (lines : list string) : option string :=
  match lines with
  | [] => None
  | line :: rest =>
      if HasPrefix line "data: " then
        let data := TrimPrefix line "data: " in
        if String.eqb data "" || String.eqb data "[DONE]" then firstPayload rest
        else Some data
      else firstPayload rest
  end.

Definition payloadOf (eventText : string) : option string :=
  firstPayload (Split (TrimSpace eventText) nl).

(** The token counts of an event that is the terminal usage summary. *)
Definition terminalOf (eventText : string) : option TokenCounts :=
  match payloadOf eventText with
  | Some data =>
      match unmarshalStreamEvent data with
      | Some streamEvent => terminalUsage streamEvent
      | None => None
      end
  | None => None
  end.

Definition usageOf (counts : TokenCounts) : ChatCompletionUsage :=
  {| InputTokens := input_tokens counts; OutputTokens := output_tokens counts;
     TotalTokens := Go.int_add (input_tokens counts) (output_tokens counts);
     PromptTokens := input_tokens counts; CompletionTokens := output_tokens counts |}.

(** The frames of a channel the gateway does not take for usage events, and
    the usage it holds after a run of frames. *)
Definition isContent (data : string) : bool :=
  match extractUsageFromSSE data with
  | Some _ => false
  | None => true
  end.

Definition contentFrames (items : list string) : list string := List.filter isContent items.

Definition capturedUsage (held : option ChatCompletionUsage) (items : list string)
    : option ChatCompletionUsage :=
  fold_left (fun acc data => match extractUsageFromSSE data with
                             | Some usage => Some usage
                             | None => acc
                             end) items held.

End EventDefinitions.

(** C1 as the specification words it, for one event that is not the terminal
    usage summary: the caller is sent the bytes of the event. *)
Definition spec_forwards_unmodified : Prop :=
  forall eventText : string,
    Strings.Contains eventText Strings.nlnl = false ->
    terminalOf eventText = None ->
    Anthropic.streamFrames [eventText +:+ Strings.nlnl] Anthropic.EOF
    = [eventText +:+ Strings.nlnl].

(** A keep-alive event as the vendor sends it. *)
Definition ping_event : string :=
  "event: ping" +:+ Strings.nl +:+ JSON.q "data: {'type': 'ping'}".

Definition message_stop_event : string :=
  "event: message_stop" +:+ Strings.nl
  +:+ JSON.q "data: {'type':'message_stop','message':{'usage':{'input_tokens':12,'output_tokens':34}}}".

Definition sample_response : Models.AnthropicResponse :=
  {| Models.AnthropicID := "msg_1"; Models.AnthropicType := "message";
     Models.AnthropicRole := "assistant"; Models.AnthropicModel := "claude-3";
     Models.AnthropicContents := [ {| Models.ContentType := "text"; Models.Text := "Hi" |} ];
     Models.StopReason := "end_turn";
     Models.AnthropicInputTokens := 12; Models.AnthropicOutputTokens := 34 |}.

(** ** A morning east of UTC *)

(** 1 February 2024, 09:00 in a zone eight hours east of UTC: 01:00 UTC. *)
Definition february_morning : Time.Time :=
  {| Time.unixNano := 1706749200 * Time.Second; Time.zoneOffset := 8 * 3600 |}.

(** The five calls made under the sample key at 01:00, 02:00, 03:00, 04:00
    and 05:00 of that morning, all completed. *)
Definition calls_that_morning : list Models.LLMRequestLog :=
  List.map (fun n => sample_log n "completed"
                       (Time.Add february_morning (- (9 - n) * Time.Hour)))
           [1; 2; 3; 4; 5].

(** ** A request with stop sequences and metadata *)

(** The body [{"model": "claude-3", "messages": [{"role": "user", "content":
    "hi"}], "stop": ["END", null], "metadata": {"user_id": "u1", "trace":
    null}}] as the decoder leaves it. *)
Definition stop_request : Models.ChatCompletionRequest :=
  {| Models.Model := "claude-3";
     Models.Messages := [ {| Models.Role := "user"; Models.Content := "hi" |} ];
     Models.MaxTokens := None; Models.Temperature := None; Models.TopP := None;
     Models.System := "";
     Models.Stop := Some (Models.DSlice [Some (Models.DString "END"); None]);
     Models.Stream := false;
     Models.Metadata :=
       Some (<["user_id" := Some (Models.DString "u1")]> {["trace" := None]});
     Models.AnthropicVersion := "" |}.

(** ** Auxiliary definitions for the rate limiter *)

(** Every count the limiter keeps lies between 1 and the larger of 1 and the
    rate. *)
Definition countsBounded (rl : RateLimit.RateLimiter) : Prop :=
  forall ip v, RateLimit.visitors rl !! ip = Some v ->
    1 <= RateLimit.count v <= Z.max 1 (RateLimit.rate rl).

(** A clock reading, in nanoseconds. *)
Definition clock (ns : Z) : Time.Time := {| Time.unixNano := ns; Time.zoneOffset := 0 |}.

(** Four requests of one address within half a microsecond, and one of
    another address in between. *)
Definition burst : list (Time.Time * string) :=
  [ (clock 0, "10.0.0.1"); (clock 100, "10.0.0.2"); (clock 200, "10.0.0.1");
    (clock 300, "10.0.0.1"); (clock 400, "10.0.0.1") ].

(** Requests six and seven minutes later. *)
Definition later_requests : list (Time.Time * string) :=
  [ (clock (6 * Time.Minute), "10.0.0.1"); (clock (6 * Time.Minute + 5), "10.0.0.1");
    (clock (7 * Time.Minute), "10.0.0.2"); (clock (7 * Time.Minute), "10.0.0.3") ].

(** ** Auxiliary definitions for the synchronous call *)

(** A row the call would resolve the model of [req] to. *)
Definition resolves (provider : Service.Provider) (req : Models.ChatCompletionRequest)
    (row : Service.ModelRow) : bool :=
  (Service.RowProviderID row =? Service.ProviderRowID provider)
  && String.eqb (Service.RowModelID row) (Models.Model req)
  && Service.isActiveModel (Service.RowStatus row).

(** The status and the type the handler gives an error whose text is the
    model-not-found message for [name]. *)
Definition unknownModelStatus (name : string) : Z * string :=
  if Strings.Contains name "invalid" || Strings.Contains name "validation"
  then (400, "invalid_request_error")
  else if Strings.Contains name "limit exceeded"
  then (429, "rate_limit_error")
  else (404, "invalid_request_error").

(** The row of a call that failed, as [updateRequestLogError] leaves it. *)
Definition failedLog (logID apiKeyID : Z) (modelName : string) (now : Time.Time)
    (text : string) (latencyMs : Z) : Models.LLMRequestLog :=
  {| Models.LogID := logID; Models.LogAPIKeyID := apiKeyID;
     Models.LogModelName := modelName;
     Models.LogStatus := "failed";
     Models.LogInputTokens := 0; Models.LogOutputTokens := 0; Models.LogTotalTokens := 0;
     Models.LogInputCost := 0%float; Models.LogOutputCost := 0%float;
     Models.LogTotalCost := 0%float;
     Models.LatencyMs := latencyMs; Models.HTTPStatus := 500;
     Models.ErrorMessage := text; Models.CreatedAt := now |}.

(** ** Sample requests *)

(** A request for the third page of twenty. *)
Definition third_page : Gin.Context :=
  {| Gin.header := ∅; Gin.query := {[ "page" := "3"; "limit" := "20" ]} |}.

(** A request with a key in each of the three places. *)
Definition three_keys : Gin.Context :=
  {| Gin.header := {[ "Authorization" := "Bearer sk-test"; "x-api-key" := "sk-header" ]};
     Gin.query := {[ "api_key" := "sk-query" ]} |}.

(** A request with the sample key in its x-api-key field. *)
Definition keyed_request : Gin.Context :=
  {| Gin.header := {[ "x-api-key" := "sk-test" ]}; Gin.query := ∅ |}.

Definition hello_request (model role : string) : Models.ChatCompletionRequest :=
  {| Models.Model := model;
     Models.Messages := [ {| Models.Role := role; Models.Content := "Hello" |} ];
     Models.MaxTokens := None; Models.Temperature := None; Models.TopP := None;
     Models.System := ""; Models.Stop := None; Models.Stream := false;
     Models.Metadata := None; Models.AnthropicVersion := "" |}.

Definition sample_models : list Service.ModelRow :=
  [ {| Service.RowProviderID := 1; Service.RowModelID := "claude-3";
       Service.RowStatus := Service.ModelStatusActive; Service.RowModel := default_rates |} ].

Definition sample_provider : Service.Provider :=
  {| Service.ProviderRowID := 1; Service.ProviderType := "anthropic" |}.

Definition sample_context : Models.LLMRequestContext :=
  LLM.requestContext sample_now (sample_key 0 0).

(** A store that carries out every statement. *)
Definition sound_run : Service.StoreRun :=
  {| Service.createError := None; Service.updateApplies := true |}.

(** A vendor that answers every request with the sample response. *)
Definition sample_vendor (request : Adapter.HTTPRequest) : Adapter.HTTPResult :=
  Adapter.Response 200 "{}".

Definition sample_unmarshal (text : string) : Models.AnthropicResponse + string :=
  inl sample_response.

(** ** Auxiliary definitions for the cache and the gate *)

(** The last active row of the key table with a given key value. *)
Definition lastActiveKey (db : LLM.Store) (apiKey : string) : option Models.APIKey :=
  List.find (fun row => String.eqb (Models.KeyValue row) apiKey
                        && LLM.isActive (Models.Status row))
            (List.rev (LLM.api_keys db)).

(** The expiry of a key has passed at [now]. *)
Definition expiredAt (now : Time.Time) (key : Models.APIKey) : bool :=
  match Models.ExpiresAt key with
  | Some expiresAt => Time.Before expiresAt now
  | None => false
  end.

(** ** Sample cache states *)

(** Half a minute after [sample_now]. *)
Definition sample_later : Time.Time := Time.Add sample_now (30 * Time.Second).

(** A cache that holds counts of zero for the sample key, and not the key. *)
Definition stale_cache : Cache.CacheService :=
  Cache.SetUsageCount empty_cache sample_now 7
    {| Cache.DailyCount := 0; Cache.MonthlyCount := 0 |} (1 * Time.Minute).

(** The sample store with the key at a limit of five and four calls made
    today, and the store after six more. *)
Definition four_calls_today : list Models.LLMRequestLog :=
  List.map (fun n => sample_log n "completed" sample_now) [1; 2; 3; 4].

Definition ten_calls_today : list Models.LLMRequestLog :=
  List.map (fun n => sample_log n "completed" sample_now) [1; 2; 3; 4; 5; 6; 7; 8; 9; 10].

(** ** Auxiliary definitions for the aggregation *)

(** How many logs satisfy [p]. *)
Definition countWhere (p : Analytics.UsageLog -> bool) (logs : list Analytics.UsageLog) : Z :=
  Z.of_nat (List.length (List.filter p logs)).

Definition ofUser (user : Z) (log : Analytics.UsageLog) : bool :=
  Analytics.UserID log =? user.

Definition inHour (hour : Z) (log : Analytics.UsageLog) : bool :=
  Analytics.HourOf (Analytics.CreatedAt log) =? hour.

Definition sample_usage (user : Z) (success : bool) (created : Time.Time)
    : Analytics.UsageLog :=
  {| Analytics.CreatedAt := created; Analytics.UserID := user;
     Analytics.Username := "user"; Analytics.ModelID := 1;
     Analytics.ModelName := "claude-3"; Analytics.ModelProviderID := 1;
     Analytics.ModelProviderName := "anthropic";
     Analytics.TotalTokens := 46; Analytics.TotalCost := 0%float;
     Analytics.Success := success; Analytics.ResponseTime := 250 |}.

(** Three logs of two users. *)
Definition sample_usages : list Analytics.UsageLog :=
  [ sample_usage 1 true sample_now; sample_usage 2 false sample_now;
    sample_usage 1 true (Time.Add sample_now Time.Hour) ].

(** * Properties *)

(** ** Arithmetic helpers *)

Lemma wrap64_in_range (z : Z) : Go.in_int64 z -> Go.wrap64 z = z.
Proof.
  unfold Go.in_int64, Go.min_int64, Go.max_int64, Go.wrap64. intros H.
  rewrite Z.mod_small; lia.
Qed.

Lemma float_zero_times_finite (p : float) :
  Go.is_finite p = true ->
  PrimFloat.eqb (PrimFloat.div (PrimFloat.mul (PrimFloat.of_uint63 0) p) 1000) 0 = true.
Proof.
  unfold Go.is_finite, PrimFloat.is_nan, PrimFloat.is_infinity.
  rewrite !FloatAxioms.eqb_spec, FloatAxioms.abs_spec, FloatAxioms.div_spec,
    FloatAxioms.mul_spec, FloatAxioms.of_uint63_spec.
  destruct (Prim2SF p) as [s | s | | s m e]; simpl; intros H; try discriminate.
  - destruct s; vm_compute; reflexivity.
  - destruct s; discriminate.
  - destruct s; vm_compute; reflexivity.
Qed.

(** ** Provider adapter *)

Section AdapterProperties.
Import Models Anthropic.

Lemma checkMessages_None (i : nat) (msgs : list ChatMessage) :
  checkMessages i msgs = None <->
  Forall (fun m => (Role m = "user" \/ Role m = "assistant") /\ Content m <> ""%string) msgs.
Proof.
  revert i. induction msgs as [|m rest IH]; intros i; simpl.
  - split; [constructor | reflexivity].
  - destruct (String.eqb_spec (Role m) "user") as [Hu|Hu];
    destruct (String.eqb_spec (Role m) "assistant") as [Ha|Ha];
    destruct (String.eqb_spec (Content m) "") as [Hc|Hc]; simpl;
    rewrite ?IH; split; intros H; try discriminate;
    try (inversion H; subst; tauto);
    try (constructor; tauto).
Qed.

(** C8. ValidateRequest returns an error exactly when the model is empty, the
    message list is empty, some message has a role other than user/assistant,
    some message has empty content, or the first message is not from the
    user; otherwise it returns nil. *)
Theorem ValidateRequest_fails_iff (req : ChatCompletionRequest) :
  (exists e, ValidateRequest req = Some e) <->
  (Model req = ""%string
   \/ Messages req = []
   \/ Exists (fun m => Content m = ""%string) (Messages req)
   \/ Exists (fun m => Role m <> "user"%string /\ Role m <> "assistant"%string) (Messages req)
   \/ (exists first rest, Messages req = first :: rest /\ Role first <> "user"%string)).
Proof.
  unfold ValidateRequest.
  destruct (String.eqb_spec (Model req) "") as [Hm|Hm].
  { split; eauto. }
  destruct (Messages req) as [|first rest] eqn:Hmsgs.
  { split; eauto. }
  destruct (checkMessages 0 (first :: rest)) as [e|] eqn:Hck.
  - split; [intros _ | eauto].
    assert (Hn : ~ Forall (fun m => (Role m = "user" \/ Role m = "assistant")
                                    /\ Content m <> ""%string) (first :: rest)).
    { intros HF. apply (checkMessages_None 0) in HF. congruence. }
    apply not_Forall_Exists in Hn.
    2:{ intros m. destruct (string_dec (Role m) "user"), (string_dec (Role m) "assistant"),
          (string_dec (Content m) ""); first [left; tauto | right; tauto]. }
    apply List.Exists_exists in Hn as (m & Hin & Hbad).
    destruct (string_dec (Content m) "") as [Hc|Hc].
    + right; right; left. apply List.Exists_exists. eauto.
    + right; right; right; left. apply List.Exists_exists. exists m. split; [assumption|].
      split; intros ?; apply Hbad; tauto.
  - apply checkMessages_None in Hck.
    destruct (String.eqb_spec (Role first) "user") as [Hf|Hf]; simpl.
    + split; [intros (e & He); discriminate|].
      intros [H|[H|[H|[H|H]]]]; try congruence.
      * apply List.Exists_exists in H as (m & Hin & Hc).
        rewrite List.Forall_forall in Hck.
        destruct (Hck m Hin) as [_ Hne]. contradiction.
      * apply List.Exists_exists in H as (m & Hin & Hr1 & Hr2).
        rewrite List.Forall_forall in Hck.
        destruct (Hck m Hin) as [[?|?] _]; contradiction.
      * destruct H as (f & r & Heq & Hr). inversion Heq; subst. contradiction.
    + split; [intros _ | eauto].
      right; right; right; right. eauto.
Qed.

(** C9. TransformRequest puts an optional field into the vendor payload exactly
    when the neutral request carries it (the key is absent otherwise, never
    mapped to a null), and max_tokens is always there, with the default 4096
    when the request gives none. *)
Theorem TransformRequest_optional_fields (req : ChatCompletionRequest) :
  let m := TransformRequest req in
  m !! "max_tokens" = Some (VInt (match MaxTokens req with
                                  | Some n => n
                                  | None => 4096
                                  end))
  /\ m !! "temperature" = VFloat <$> Temperature req
  /\ m !! "top_p" = VFloat <$> TopP req
  /\ m !! "stop_sequences" = VDynamic <$> Stop req
  /\ m !! "system" = (if String.eqb (System req) "" then None
                      else Some (VString (System req)))
  /\ m !! "stream" = (if Stream req then Some (VBool true) else None)
  /\ m !! "model" = Some (VString (Model req))
  /\ m !! "messages" = Some (VMessages (Messages req)).
Proof.
  unfold TransformRequest, set_if, default_max_tokens.
  destruct (MaxTokens req), (Temperature req), (TopP req), (Stop req),
    (Stream req), (Metadata req), (String.eqb (System req) "");
    cbn [fmap option_fmap option_map]; repeat split; by simplify_map_eq.
Qed.

Example TransformRequest_minimal :
  TransformRequest
    {| Model := "claude-3"; Messages := [ {| Role := "user"; Content := "hi" |} ];
       MaxTokens := None; Temperature := None; TopP := None; System := "";
       Stop := None; Stream := false; Metadata := None; AnthropicVersion := "" |}
  = <["messages" := VMessages [ {| Role := "user"; Content := "hi" |} ]]>
      (<["model" := VString "claude-3"]> (<["max_tokens" := VInt 4096]> ∅)).
Proof. by apply map_eq; intros k; vm_compute. Qed.

(** C6 (amended). CalculateCost returns, in float64 arithmetic,
    inputCost = float64(inputTokens) * inputPrice / 1000,
    outputCost = float64(outputTokens) * outputPrice / 1000 and
    totalCost = inputCost + outputCost; with finite prices zero tokens cost
    zero. *)
Theorem CalculateCost_formula_and_zero (usage : ChatCompletionUsage) (model : LLMModel) :
  CalculateCost usage model =
    ((Go.float64_of_int (InputTokens usage) * InputCostPer1K model / 1000)%float,
     (Go.float64_of_int (OutputTokens usage) * OutputCostPer1K model / 1000)%float,
     ((Go.float64_of_int (InputTokens usage) * InputCostPer1K model / 1000)
      + (Go.float64_of_int (OutputTokens usage) * OutputCostPer1K model / 1000))%float)
  /\ (Go.is_finite (InputCostPer1K model) = true ->
      Go.is_finite (OutputCostPer1K model) = true ->
      InputTokens usage = 0 -> OutputTokens usage = 0 ->
      let '(inputCost, outputCost, totalCost) := CalculateCost usage model in
      PrimFloat.eqb inputCost 0 = true
      /\ PrimFloat.eqb outputCost 0 = true
      /\ PrimFloat.eqb totalCost 0 = true).
Proof.
  split; [reflexivity|].
  intros Hi Ho Hzi Hzo. unfold CalculateCost. rewrite Hzi, Hzo.
  change (Go.float64_of_int 0) with (PrimFloat.of_uint63 0).
  pose proof (float_zero_times_finite _ Hi) as Ei.
  pose proof (float_zero_times_finite _ Ho) as Eo.
  repeat split; try assumption.
  revert Ei Eo.
  rewrite !FloatAxioms.eqb_spec, FloatAxioms.add_spec.
  destruct (Prim2SF (PrimFloat.of_uint63 0 * InputCostPer1K model / 1000)) as [[]|[]| |[] ? ?];
  destruct (Prim2SF (PrimFloat.of_uint63 0 * OutputCostPer1K model / 1000)) as [[]|[]| |[] ? ?];
  simpl; try discriminate; intros _ _; vm_compute; reflexivity.
Qed.

Lemma CalculateCost_formula_and_zero_witness :
  Go.is_finite (InputCostPer1K default_rates) = true
  /\ Go.is_finite (OutputCostPer1K default_rates) = true
  /\ (let '(inputCost, outputCost, totalCost) :=
        CalculateCost (usage_of_tokens 0 0) default_rates in
      PrimFloat.eqb inputCost 0 = true
      /\ PrimFloat.eqb outputCost 0 = true
      /\ PrimFloat.eqb totalCost 0 = true).
Proof.
  split; [reflexivity|]. split; [reflexivity|].
  apply (proj2 (CalculateCost_formula_and_zero (usage_of_tokens 0 0) default_rates));
    reflexivity.
Defined.

(** C6 as stated fails on the additivity clause: with the default input price
    0.001 per thousand tokens, the input cost of 1 + 4 tokens is not the sum of
    the input costs of 1 token and of 4 tokens (float64 rounding). *)
Lemma CalculateCost_not_additive :
  ~ (forall (a b : Z) (model : LLMModel),
       0 <= a -> 0 <= b ->
       let '(ia, _, _) := CalculateCost (usage_of_tokens a 0) model in
       let '(ib, _, _) := CalculateCost (usage_of_tokens b 0) model in
       let '(iab, _, _) := CalculateCost (usage_of_tokens (a + b) 0) model in
       PrimFloat.eqb iab (ia + ib)%float = true).
Proof.
  intros H. specialize (H 1 4 default_rates ltac:(lia) ltac:(lia)).
  vm_compute in H. discriminate.
Qed.

End AdapterProperties.

(** ** Usage counter and quota gate *)

Section GateProperties.
Import Models Cache LLM.

Lemma Truncate_day_bounds (now : Time.Time) :
  let today := Time.Truncate now (24 * Time.Hour) in
  Time.unixNano today <= Time.unixNano now < Time.unixNano today + 24 * Time.Hour.
Proof.
  change (24 * Time.Hour) with 86400000000000.
  unfold Time.Truncate, Time.Add; simpl.
  pose proof (Z.mod_pos_bound
    (Time.unixNano now + Time.unixToInternal * Time.Second) 86400000000000 ltac:(lia)).
  lia.
Qed.

Lemma countLogs_createdIn (logs : list LLMRequestLog) (apiKeyID : Z) (from to : Time.Time) :
  countLogs logs apiKeyID from to =
  Z.of_nat (List.length (List.filter
    (createdIn apiKeyID (Time.unixNano from) (Time.unixNano to)) logs)).
Proof.
  unfold countLogs. do 2 f_equal. apply List.filter_ext. intros row.
  unfold inWindow, createdIn, Time.Before.
  destruct (LogAPIKeyID row =? apiKeyID); simpl; [|reflexivity].
  f_equal. rewrite Z.ltb_antisym, negb_involutive. reflexivity.
Qed.

(** C3 (amended). With the store answering, the usage counter takes one
    reading of the clock and returns, for the key, the number of its log rows,
    whatever their status, created in a 24-hour window that contains now, and
    the number created from the first of the current month to the first of
    the next on the local clock. *)
Theorem getBatchUsageFromDB_counts (db : Store) (now : Time.Time) (apiKeyID : Z) :
  available db = true ->
  let today := Time.Truncate now (24 * Time.Hour) in
  let monthStart :=
    Time.Date (Time.Year now) (Time.Month now) 1 0 0 0 0 (Time.zoneOffset now) in
  let monthEnd := Time.AddDate monthStart 0 1 0 in
  Time.unixNano today <= Time.unixNano now < Time.unixNano today + 24 * Time.Hour
  /\ getBatchUsageFromDB db now apiKeyID =
     Some {| DailyCount :=
               Z.of_nat (List.length (List.filter
                 (createdIn apiKeyID (Time.unixNano today)
                    (Time.unixNano today + 24 * Time.Hour))
                 (llm_request_logs db)));
             MonthlyCount :=
               Z.of_nat (List.length (List.filter
                 (createdIn apiKeyID (Time.unixNano monthStart) (Time.unixNano monthEnd))
                 (llm_request_logs db))) |}.
Proof.
  intros Hup today monthStart monthEnd. split; [apply Truncate_day_bounds|].
  unfold getBatchUsageFromDB. rewrite Hup. simpl.
  rewrite !countLogs_createdIn. reflexivity.
Qed.

Lemma getBatchUsageFromDB_counts_witness :
  available (sample_store [sample_log 1 "failed" sample_now]) = true
  /\ getBatchUsageFromDB (sample_store [sample_log 1 "failed" sample_now]) sample_now 7
     = Some {| DailyCount := 1; MonthlyCount := 1 |}.
Proof.
  split; [reflexivity|].
  rewrite (proj2 (getBatchUsageFromDB_counts
                    (sample_store [sample_log 1 "failed" sample_now]) sample_now 7
                    eq_refl)).
  reflexivity.
Defined.

(** C3 as stated fails: a failed call made today is counted, although it is
    neither completed nor pending. *)
Lemma getBatchUsageFromDB_counts_failed_rows :
  getBatchUsageFromDB (sample_store [sample_log 1 "failed" sample_now_utc]) sample_now_utc 7
    = Some {| DailyCount := 1; MonthlyCount := 1 |}
  /\ spec_countUsage [sample_log 1 "failed" sample_now_utc] sample_now_utc 7
     = {| DailyCount := 0; MonthlyCount := 0 |}
  /\ getBatchUsageFromDB (sample_store [sample_log 1 "failed" sample_now_utc]) sample_now_utc 7
     <> Some (spec_countUsage [sample_log 1 "failed" sample_now_utc] sample_now_utc 7).
Proof. repeat split; try (vm_compute; reflexivity). vm_compute. discriminate. Qed.

(** Away from UTC the daily window is not the local day either: at 03:00 on
    15 January, eight hours east of UTC, a pending call of 23:00 the evening
    before still counts for today. *)
Lemma getBatchUsageFromDB_day_is_not_local :
  let yesterday_evening := Time.Add sample_now (- 4 * Time.Hour) in
  Time.civil yesterday_evening = (2024, 1, 14)
  /\ Time.civil sample_now = (2024, 1, 15)
  /\ getBatchUsageFromDB (sample_store [sample_log 1 "pending" yesterday_evening])
       sample_now 7
     = Some {| DailyCount := 1; MonthlyCount := 1 |}
  /\ spec_countUsage [sample_log 1 "pending" yesterday_evening] sample_now 7
     = {| DailyCount := 0; MonthlyCount := 1 |}.
Proof. repeat split; vm_compute; reflexivity. Qed.

Lemma checkLimits_quota (now : Time.Time) (key : APIKey) (usage : UsageCounts) :
  QuotaExceeded (checkLimits now key usage) = true <->
  (0 < DailyRequestLimit key /\ DailyRequestLimit key <= DailyCount usage)
  \/ (0 < MonthlyRequestLimit key /\ MonthlyRequestLimit key <= MonthlyCount usage).
Proof.
  unfold checkLimits.
  destruct (Z.ltb_spec 0 (DailyRequestLimit key));
  destruct (Z.leb_spec (DailyRequestLimit key) (DailyCount usage));
  destruct (Z.ltb_spec 0 (MonthlyRequestLimit key));
  destruct (Z.leb_spec (MonthlyRequestLimit key) (MonthlyCount usage));
  simpl; split; intros; try discriminate; try reflexivity; try lia.
Qed.

(** The quota check ends in a quota error exactly when, on the usage it
    read, a positive daily ceiling is met or exceeded by the daily count or a
    positive monthly ceiling by the monthly count; a key without positive
    ceilings is never rejected, whatever the usage; and with a daily ceiling N
    and N rows of the key in the twenty-four hours from the UTC midnight
    before now, read from the store, the next call is rejected.  That window
    is not the calendar day of the clock: see
    [getBatchUsageFromDB_day_is_not_local]. *)
Theorem validateUsageLimits_quota (c : CacheService) (db : Store) (now : Time.Time)
    (key : APIKey) :
  (QuotaExceeded (fst (validateUsageLimitsOptimized c db now key)) = true <->
   exists usage, fst (readUsage c db now (ID key)) = Some usage
     /\ ((0 < DailyRequestLimit key /\ DailyRequestLimit key <= DailyCount usage)
         \/ (0 < MonthlyRequestLimit key
             /\ MonthlyRequestLimit key <= MonthlyCount usage)))
  /\ (DailyRequestLimit key <= 0 -> MonthlyRequestLimit key <= 0 ->
      validateUsageLimitsOptimized c db now key = (Ok (requestContext now key), c))
  /\ (0 < DailyRequestLimit key ->
      GetUsageCount c now (ID key) = None ->
      available db = true ->
      countLogs (llm_request_logs db) (ID key)
        (Time.Truncate now (24 * Time.Hour))
        (Time.Add (Time.Truncate now (24 * Time.Hour)) (24 * Time.Hour))
        = DailyRequestLimit key ->
      fst (validateUsageLimitsOptimized c db now key) = Err ErrDailyLimitExceeded).
Proof.
  unfold validateUsageLimitsOptimized. repeat split.
  - destruct (Z.ltb_spec 0 (DailyRequestLimit key));
    destruct (Z.ltb_spec 0 (MonthlyRequestLimit key)); simpl;
    try (destruct (readUsage c db now (ID key)) as [[usage|] c'] eqn:E; simpl;
         [rewrite checkLimits_quota; eauto | discriminate]).
    discriminate.
  - intros (usage & Hread & Hq).
    destruct (Z.ltb_spec 0 (DailyRequestLimit key));
    destruct (Z.ltb_spec 0 (MonthlyRequestLimit key)); simpl; try lia;
    destruct (readUsage c db now (ID key)) as [[usage'|] c'] eqn:E; simpl in *;
    try discriminate; inversion Hread; subst; apply checkLimits_quota; assumption.
  - intros Hd Hm.
    destruct (Z.ltb_spec 0 (DailyRequestLimit key)); [lia|].
    destruct (Z.ltb_spec 0 (MonthlyRequestLimit key)); [lia|]. reflexivity.
  - intros Hpos Hmiss Hup Hcount.
    destruct (Z.ltb_spec 0 (DailyRequestLimit key)); [|lia]. simpl.
    unfold readUsage, getBatchUsageFromDB. rewrite Hmiss, Hup. simpl.
    unfold checkLimits. simpl. rewrite Hcount.
    destruct (Z.ltb_spec 0 (DailyRequestLimit key)); [|lia].
    rewrite Z.leb_refl. reflexivity.
Qed.

Lemma validateUsageLimits_quota_witness :
  QuotaExceeded (fst (validateUsageLimitsOptimized empty_cache
                        (sample_store five_calls_today) sample_now (sample_key 5 0))) = true
  /\ fst (validateUsageLimitsOptimized empty_cache
            (sample_store five_calls_today) sample_now (sample_key 5 0))
     = Err ErrDailyLimitExceeded.
Proof.
  pose proof (validateUsageLimits_quota empty_cache (sample_store five_calls_today)
                sample_now (sample_key 5 0)) as (Hiff & _ & Hnext).
  assert (E : fst (validateUsageLimitsOptimized empty_cache
                     (sample_store five_calls_today) sample_now (sample_key 5 0))
              = Err ErrDailyLimitExceeded).
  { apply Hnext; reflexivity. }
  split; [rewrite E; reflexivity | exact E].
Defined.

(** ** Authentication through the credential cache *)

(** C10. On a cache hit whose expiry has not passed, authentication goes on
    with the cached record alone: its outcome does not depend on the key table
    of the store, so a key revoked or deactivated there after it was cached is
    still accepted.  Once the entry is gone from the cache (its time-to-live
    elapsed, or it was invalidated) a key that is no longer active in the store
    is refused. *)
Theorem cached_key_status_not_rechecked (c : CacheService) (r : gmap string Item)
    (db db' : Store) (now : Time.Time) (apiKey : string) (entry : APIKeyCacheEntry) :
  redis c = Some r ->
  redisGet r now (apiKeyCacheKey apiKey) = Some (APIKeyPayload entry) ->
  match EntryExpiresAt entry with
  | Some expiresAt => Time.Before expiresAt now = false
  | None => True
  end ->
  llm_request_logs db' = llm_request_logs db ->
  available db' = available db ->
  ValidateAPIKeyOptimized c db now apiKey
    = validateUsageLimitsOptimized c db now (EntryAPIKey entry)
  /\ ValidateAPIKeyOptimized c db' now apiKey = ValidateAPIKeyOptimized c db now apiKey
  /\ (firstActiveKey db' apiKey = None ->
      fst (ValidateAPIKeyOptimized (InvalidateAPIKey c apiKey) db' now apiKey)
        = Err ErrInvalidAPIKey)
  /\ (forall later item,
        r !! apiKeyCacheKey apiKey = Some item ->
        deadline item <= Time.unixNano later ->
        firstActiveKey db' apiKey = None ->
        fst (ValidateAPIKeyOptimized c db' later apiKey) = Err ErrInvalidAPIKey).
Proof.
  intros Hr Hget Hexp Hlogs Hav.
  assert (Hhit : forall d, ValidateAPIKeyOptimized c d now apiKey
                           = validateUsageLimitsOptimized c d now (EntryAPIKey entry)).
  { intros d. unfold ValidateAPIKeyOptimized, GetAPIKey. rewrite Hr, Hget.
    destruct (EntryExpiresAt entry) as [e|]; [rewrite Hexp|]; reflexivity. }
  split; [apply Hhit|]. split.
  - rewrite !Hhit.
    unfold validateUsageLimitsOptimized, readUsage, getBatchUsageFromDB.
    rewrite Hlogs, Hav. reflexivity.
  - split.
    + intros Hnone. unfold ValidateAPIKeyOptimized, InvalidateAPIKey, GetAPIKey.
      rewrite Hr. simpl. unfold redisGet. rewrite lookup_delete_eq, Hnone. reflexivity.
    + intros later item Hitem Hdead Hnone.
      unfold ValidateAPIKeyOptimized, GetAPIKey. rewrite Hr. unfold redisGet.
      rewrite Hitem. destruct (Z.leb_spec (deadline item) (Time.unixNano later)); [|lia].
      rewrite Hnone. reflexivity.
Qed.

Lemma cached_key_status_not_rechecked_witness :
  ValidateAPIKeyOptimized warm_cache revoked_store (Time.Add sample_now Time.Minute) "sk-test"
  = ValidateAPIKeyOptimized warm_cache (sample_store []) (Time.Add sample_now Time.Minute)
      "sk-test"
  /\ fst (ValidateAPIKeyOptimized warm_cache revoked_store
            (Time.Add sample_now (6 * Time.Minute)) "sk-test") = Err ErrInvalidAPIKey.
Proof.
  assert (Hr : redis warm_cache
               = Some (redisSet ∅ sample_now (apiKeyCacheKey "sk-test")
                         (APIKeyPayload {| EntryAPIKey := throughJSON (sample_key 0 0);
                                           CachedAt := sample_now;
                                           EntryExpiresAt := None |})
                         (5 * Time.Minute))) by reflexivity.
  pose proof (cached_key_status_not_rechecked warm_cache _ (sample_store []) revoked_store
                (Time.Add sample_now Time.Minute) "sk-test" _ Hr
                ltac:(vm_compute; reflexivity) I eq_refl eq_refl) as (_ & Hsame & _ & Hlater).
  split; [exact Hsame|].
  eapply Hlater.
  - unfold redisSet. apply lookup_insert_eq.
  - vm_compute. discriminate.
  - reflexivity.
Defined.

Example revoked_key_still_accepted :
  exists ctx, fst (ValidateAPIKeyOptimized warm_cache revoked_store
                     (Time.Add sample_now Time.Minute) "sk-test") = Ok ctx.
Proof. eexists. vm_compute. reflexivity. Qed.

End GateProperties.

(** ** The relay of the gateway and the accounting record *)

Section RelayProperties.
Context `{JSON.Decoder}.
Import Models Cache LLM.

(** When the loop reaches the close of the source, the row of the call is
    completed: with the captured usage and its cost, or with the zero usage
    and cost it was created with. *)
Lemma finalize_completes (logs : list LLMRequestLog) (logID apiKeyID : Z)
    (modelName : string) (model : LLMModel) (now : Time.Time) (latencyMs : Z)
    (st : RelayState) :
  Forall (fun row => LogID row <> logID) logs ->
  exists row,
    finalize (logs ++ [pendingLog logID apiKeyID modelName now]) logID model latencyMs
      (SourceClosed, st) = logs ++ [row]
    /\ LogStatus row = "completed"%string
    /\ match finalUsage st with
       | Some usage =>
           LogInputTokens row = InputTokens usage
           /\ LogOutputTokens row = OutputTokens usage
           /\ LogTotalTokens row = TotalTokens usage
           /\ (LogInputCost row, LogOutputCost row, LogTotalCost row)
              = Anthropic.CalculateCost usage model
       | None =>
           LogInputTokens row = 0 /\ LogOutputTokens row = 0 /\ LogTotalTokens row = 0
           /\ (LogInputCost row, LogOutputCost row, LogTotalCost row)
              = (0%float, 0%float, 0%float)
       end.
Proof.
  intros Hfresh.
  assert (Hmap : forall update, updateRow logID update logs = logs).
  { intros update. unfold updateRow. induction Hfresh as [|row rest Hne _ IH]; simpl.
    - reflexivity.
    - destruct (Z.eqb_spec (LogID row) logID); [contradiction|]. by rewrite IH. }
  unfold finalize. destruct (finalUsage st) as [usage|].
  - unfold Anthropic.CalculateCost, updateRequestLogStreamSuccess.
    unfold updateRow at 1. rewrite List.map_app. simpl. rewrite Z.eqb_refl.
    eexists. split; [f_equal; apply Hmap|]. simpl. repeat split; reflexivity.
  - unfold updateRequestLogStreamComplete.
    unfold updateRow at 1. rewrite List.map_app. simpl. rewrite Z.eqb_refl.
    eexists. split; [f_equal; apply Hmap|]. simpl. repeat split; reflexivity.
Qed.

(** C2 fails on the code: the non-blocking send gives up with [return] when
    the client takes nothing and the channel is full, and the update of the
    log is skipped.  With 101 content frames and a client that is gone the row
    of the call is left pending. *)
Theorem abandoned_stream_stays_pending :
  StreamChatCompletion [] 1 7 "claude-3" default_rates sample_now 1200
    (List.repeat content_frame 101) []
  = (List.repeat content_frame 100, [pendingLog 1 7 "claude-3" sample_now])
  /\ fst (relay (List.repeat content_frame 101) [] startState) = Abandoned.
Proof. split; vm_compute; reflexivity. Qed.

(** The copy with the blocking send never gets past the 101st frame either. *)
Lemma blocked_stream_stays_pending :
  StreamChatCompletionBlocking [] 1 7 "claude-3" default_rates sample_now 1200
    (List.repeat content_frame 101) 0
  = (List.repeat content_frame 100, [pendingLog 1 7 "claude-3" sample_now])
  /\ fst (relayBlocking (List.repeat content_frame 101) 0 startState) = Blocked.
Proof. split; vm_compute; reflexivity. Qed.

(** With a client that takes a frame before every send the loop always
    reaches the close of the source. *)
Lemma relay_with_live_client (items : list string) (receives : list nat) (st : RelayState) :
  (queued st <= capacity)%nat ->
  (List.length items <= List.length receives)%nat ->
  Forall (fun n => (1 <= n)%nat) receives ->
  fst (relay items receives st) = SourceClosed.
Proof.
  revert receives st. induction items as [|data rest IH]; intros receives st Hq Hlen Hall.
  - reflexivity.
  - destruct receives as [|n receives']; [simpl in Hlen; lia|].
    inversion Hall as [|? ? Hn Hall']; subst. simpl in *.
    destruct (extractUsageFromSSE data).
    + apply IH; simpl; [unfold capacity in *; lia | lia | assumption].
    + destruct (Nat.ltb_spec (queued st - n) capacity) as [Hlt|Hge].
      * apply IH; simpl; [unfold capacity in *; lia | lia | assumption].
      * unfold capacity in *. lia.
Qed.

End RelayProperties.

(** ** Splitting a stream across reads *)

Lemma append_cons (c : ascii) (r s : string) : String c r +:+ s = String c (r +:+ s).
Proof. reflexivity. Qed.

Lemma append_nil_l (s : string) : EmptyString +:+ s = s.
Proof. reflexivity. Qed.

Lemma append_nil_r (s : string) : s +:+ EmptyString = s.
Proof. induction s as [|c r IH]; [reflexivity | by rewrite append_cons, IH]. Qed.

Lemma append_assoc (a b c : string) : (a +:+ b) +:+ c = a +:+ (b +:+ c).
Proof. induction a as [|x r IH]; [reflexivity | by rewrite !append_cons, IH]. Qed.

Lemma length_append (a b : string) :
  String.length (a +:+ b) = (String.length a + String.length b)%nat.
Proof. induction a as [|x r IH]; [reflexivity | by rewrite append_cons; simpl; rewrite IH]. Qed.

Lemma string_ind2 (P : string -> Prop) :
  P EmptyString ->
  (forall c, P (String c EmptyString)) ->
  (forall c c2 r, P r -> P (String c2 r) -> P (String c (String c2 r))) ->
  forall s, P s.
Proof.
  intros H0 H1 H2 s.
  assert (H : P s /\ forall c, P (String c s)).
  { induction s as [|c2 r [IHr IHc]].
    - split; [exact H0 | exact H1].
    - split; [apply IHc | intros c; apply H2; [exact IHr | apply IHc]]. }
  exact (proj1 H).
Qed.

Lemma eventFields_nonempty (s : string) : eventFields s <> [].
Proof.
  induction s as [| c | c c2 r IHr IHc] using string_ind2; simpl; try discriminate.
  destruct (Ascii.eqb c LF && Ascii.eqb c2 LF); [discriminate|].
  simpl in IHc. destruct r as [|c3 r3]; simpl.
  - discriminate.
  - destruct (Ascii.eqb c2 LF && Ascii.eqb c3 LF); [discriminate|].
    destruct (consHead c2 _) eqn:E; [|discriminate]. simpl. discriminate.
Qed.

Lemma consHead_nonempty c fs : consHead c fs <> [].
Proof. destruct fs; discriminate. Qed.

Lemma eventFields_cons2 (c c2 : ascii) (r : string) :
  eventFields (String c (String c2 r)) =
  if Ascii.eqb c LF && Ascii.eqb c2 LF then EmptyString :: eventFields r
  else consHead c (eventFields (String c2 r)).
Proof. reflexivity. Qed.

Lemma HasPrefix_empty (s : string) : HasPrefix s EmptyString = true.
Proof. destruct s; reflexivity. Qed.

Lemma HasPrefix_nlnl (c c2 : ascii) (r : string) :
  HasPrefix (String c (String c2 r)) nlnl = Ascii.eqb c LF && Ascii.eqb c2 LF.
Proof. simpl. by rewrite HasPrefix_empty, andb_true_r. Qed.

Lemma split_from_cons (sep : string) (cur : string) (c : ascii) (r : string) :
  split_from sep 0 cur (String c r) =
  if HasPrefix (String c r) sep
  then cur :: split_from sep (String.length sep - 1) EmptyString r
  else split_from sep 0 (cur +:+ String c EmptyString) r.
Proof. reflexivity. Qed.

Lemma split_from_fields (s cur : string) :
  split_from nlnl 0 cur s =
  match eventFields s with
  | f :: fs => (cur +:+ f) :: fs
  | [] => [cur]
  end.
Proof.
  revert cur. induction s as [| c | c c2 r IHr IHc] using string_ind2; intros cur.
  - simpl. by rewrite append_nil_r.
  - simpl. rewrite andb_false_r. reflexivity.
  - rewrite split_from_cons, HasPrefix_nlnl, eventFields_cons2.
    destruct (Ascii.eqb c LF && Ascii.eqb c2 LF) eqn:E.
    + change (split_from nlnl (String.length nlnl - 1) "" (String c2 r))
        with (split_from nlnl 0 "" r).
      rewrite IHr. destruct (eventFields r) eqn:Ef; [by destruct (eventFields_nonempty r)|].
      by rewrite append_nil_r.
    + rewrite IHc.
      destruct (eventFields (String c2 r)) eqn:Ef; [by destruct (eventFields_nonempty (String c2 r))|].
      simpl. by rewrite append_assoc.
Qed.

Lemma Split_fields (s : string) : Split s nlnl = eventFields s.
Proof.
  unfold Split. rewrite split_from_fields.
  destruct (eventFields s) eqn:E; [by destruct (eventFields_nonempty s)|]. reflexivity.
Qed.

Lemma eventFields_single (s f : string) : eventFields s = [f] -> f = s.
Proof.
  revert f. induction s as [| c | c c2 r IHr IHc] using string_ind2; intros f.
  - simpl. congruence.
  - simpl. congruence.
  - rewrite eventFields_cons2. destruct (Ascii.eqb c LF && Ascii.eqb c2 LF).
    + intros E. inversion E as [[E1 E2]]. by destruct (eventFields_nonempty r).
    + destruct (eventFields (String c2 r)) as [|g [|g' rest]] eqn:EF; simpl; intros E;
        inversion E; subst.
      * by destruct (eventFields_nonempty (String c2 r)).
      * by rewrite (IHc g eq_refl).
Qed.

Lemma last_cons_nonempty {A} (x : A) (l : list A) (d : A) :
  l <> [] -> List.last (x :: l) d = List.last l d.
Proof. destruct l; [congruence | reflexivity]. Qed.

Lemma last_app_nonempty {A} (l1 l2 : list A) (d : A) :
  l2 <> [] -> List.last (l1 ++ l2) d = List.last l2 d.
Proof.
  intros Hne. induction l1 as [|x l1 IH]; [reflexivity|].
  simpl app. rewrite last_cons_nonempty; [exact IH|].
  destruct l1; simpl; [exact Hne | discriminate].
Qed.

Lemma removelast_cons_nonempty {A} (x : A) (l : list A) :
  l <> [] -> List.removelast (x :: l) = x :: List.removelast l.
Proof. destruct l; [congruence | reflexivity]. Qed.

Lemma eventFields_app (t c : string) :
  eventFields (t +:+ c) =
  List.removelast (eventFields t) ++ eventFields (List.last (eventFields t) EmptyString +:+ c).
Proof.
  induction t as [| x | x y r IHr IHc] using string_ind2.
  - reflexivity.
  - reflexivity.
  - rewrite !append_cons, !eventFields_cons2.
    destruct (Ascii.eqb x LF && Ascii.eqb y LF) eqn:E.
    + rewrite IHr, removelast_cons_nonempty, last_cons_nonempty by apply eventFields_nonempty.
      reflexivity.
    + rewrite <- append_cons, IHc.
      destruct (eventFields (String y r)) as [|f [|g rest]] eqn:EF.
      * by destruct (eventFields_nonempty (String y r)).
      * apply eventFields_single in EF. subst f. simpl. by rewrite E.
      * reflexivity.
Qed.

Lemma HasSuffix_cons (c : ascii) (s : string) :
  (2 <= String.length s)%nat -> HasSuffix (String c s) nlnl = HasSuffix s nlnl.
Proof.
  intros Hlen. unfold HasSuffix. simpl String.length.
  replace (S (String.length s) - 2)%nat with (S (String.length s - 2)) by lia.
  simpl drop.
  destruct (String.length s) as [|[|n]] eqn:E; try lia. reflexivity.
Qed.

Lemma HasSuffix_two (c c2 : ascii) :
  HasSuffix (String c (String c2 EmptyString)) nlnl = true -> c = LF /\ c2 = LF.
Proof.
  unfold HasSuffix; simpl.
  destruct (Ascii.eqb_spec c LF), (Ascii.eqb_spec c2 LF); simpl; try discriminate; auto.
Qed.

Lemma last_fields_complete (s : string) :
  HasSuffix s nlnl = true ->
  List.last (eventFields s) EmptyString = EmptyString \/ List.last (eventFields s) EmptyString = nl.
Proof.
  induction s as [| c | c c2 r IHr IHc] using string_ind2.
  - discriminate.
  - discriminate.
  - destruct r as [|c3 [|c4 r']].
    + intros Hs. apply HasSuffix_two in Hs as [-> ->]. left. reflexivity.
    + rewrite HasSuffix_cons by (simpl; lia). intros Hs.
      apply HasSuffix_two in Hs as [-> ->].
      rewrite eventFields_cons2. destruct (Ascii.eqb c LF); simpl; auto.
    + rewrite !HasSuffix_cons by (simpl; lia). intros Hs.
      rewrite eventFields_cons2. destruct (Ascii.eqb c LF && Ascii.eqb c2 LF).
      * rewrite last_cons_nonempty by apply eventFields_nonempty. apply IHr. exact Hs.
      * assert (Hc : HasSuffix (String c2 (String c3 (String c4 r'))) nlnl = true)
          by (rewrite HasSuffix_cons by (simpl; lia); exact Hs).
        specialize (IHc Hc).
        destruct (eventFields (String c2 (String c3 (String c4 r')))) as [|f [|g rest]] eqn:EF.
        -- by destruct (eventFields_nonempty (String c2 (String c3 (String c4 r')))).
        -- apply eventFields_single in EF. subst f. simpl in IHc.
           destruct IHc as [IHc|IHc]; discriminate.
        -- exact IHc.
Qed.

Section ChunkProperties.
Context `{JSON.Decoder}.
Import Anthropic.

Lemma TrimSpace_LF (e : string) : TrimSpace (String LF e) = TrimSpace e.
Proof. reflexivity. Qed.

Lemma processSSEEvent_LF (e : string) : processSSEEvent (String LF e) = processSSEEvent e.
Proof. unfold processSSEEvent. by rewrite TrimSpace_LF. Qed.

Lemma processSSEEvent_empty : processSSEEvent EmptyString = None.
Proof. reflexivity. Qed.

Lemma processSSEEvent_nl : processSSEEvent nl = None.
Proof. reflexivity. Qed.

Lemma sameScan_refl a : sameScan a a.
Proof. by split. Qed.

Lemma sameScan_sym a b : sameScan a b -> sameScan b a.
Proof. by intros [? ?]. Qed.

Lemma sameScan_trans a b c : sameScan a b -> sameScan b c -> sameScan a c.
Proof. intros [? ?] [? ?]; split; congruence. Qed.

Lemma processEvents_cons2 (complete : bool) (f g : string) (rest : list string)
    (remainder : string) :
  processEvents complete (f :: g :: rest) remainder =
  let '(remainder', sent) := processEvents complete (g :: rest) EmptyString in
  (remainder', match processSSEEvent f with
               | Some processedData => processedData :: sent
               | None => sent
               end).
Proof. reflexivity. Qed.

Lemma processEvents_spec (complete : bool) (fs : list string) (remainder : string) :
  fs <> [] ->
  processEvents complete fs remainder =
  if complete then (EmptyString, omap processSSEEvent fs) else scanFields fs.
Proof.
  revert remainder. induction fs as [|f rest IH]; intros remainder Hne; [congruence|].
  destruct rest as [|g rest'].
  - unfold scanFields. simpl. destruct complete; simpl; [|reflexivity].
    destruct (processSSEEvent f); reflexivity.
  - rewrite processEvents_cons2, IH by done.
    unfold scanFields. destruct complete.
    + cbn [omap list_omap]. destruct (processSSEEvent f); reflexivity.
    + rewrite (last_cons_nonempty f (g :: rest')), (removelast_cons_nonempty f (g :: rest'))
        by done.
      cbn [omap list_omap fst snd]. destruct (processSSEEvent f); reflexivity.
Qed.

Lemma omap_app_last (fs : list string) :
  fs <> [] ->
  omap processSSEEvent fs =
  omap processSSEEvent (List.removelast fs)
  ++ match processSSEEvent (List.last fs EmptyString) with
     | Some d => [d]
     | None => []
     end.
Proof.
  intros Hne. rewrite (List.app_removelast_last EmptyString Hne) at 1.
  rewrite omap_app. simpl. destruct (processSSEEvent _); reflexivity.
Qed.

Lemma scan_fields (text : string) : sameScan (scan text) (scanFields (eventFields text)).
Proof.
  unfold scan, parseSSEEvents. rewrite Split_fields.
  rewrite processEvents_spec by apply eventFields_nonempty.
  destruct (HasSuffix text nlnl) eqn:Hs; [|apply sameScan_refl].
  apply last_fields_complete in Hs. unfold scanFields, sameScan; simpl.
  rewrite (omap_app_last (eventFields text)) by apply eventFields_nonempty.
  destruct Hs as [-> | ->]; simpl; rewrite ?app_nil_r; split; reflexivity.
Qed.

Lemma readChunk_scan (remainder chunk : string) :
  chunk <> EmptyString -> readChunk remainder chunk = scan (remainder +:+ chunk).
Proof.
  intros Hne. unfold readChunk, scan.
  destruct (String.eqb_spec chunk ""); [contradiction|].
  unfold parseSSEEvents. rewrite Split_fields.
  rewrite !processEvents_spec by apply eventFields_nonempty. reflexivity.
Qed.

Lemma scanFields_LF (w : string) :
  sameScan (scanFields (eventFields (String LF w))) (scanFields (eventFields w)).
Proof.
  induction w as [|c w' IH].
  - split; reflexivity.
  - rewrite eventFields_cons2. destruct (Ascii.eqb_spec c LF) as [->|Hc].
    + simpl andb. cbv iota.
      apply sameScan_trans with (scanFields (eventFields w')); [|apply sameScan_sym, IH].
      unfold scanFields.
      rewrite last_cons_nonempty, removelast_cons_nonempty by apply eventFields_nonempty.
      split; reflexivity.
    + simpl andb. cbv iota.
      destruct (eventFields (String c w')) as [|f [|g rest]] eqn:EF.
      * by destruct (eventFields_nonempty (String c w')).
      * split; reflexivity.
      * unfold scanFields, sameScan. simpl consHead.
        rewrite (last_cons_nonempty (String LF f) (g :: rest)),
          (last_cons_nonempty f (g :: rest)),
          (removelast_cons_nonempty (String LF f) (g :: rest)),
          (removelast_cons_nonempty f (g :: rest)) by done.
        cbn [omap list_omap fst snd]. rewrite processSSEEvent_LF. split; reflexivity.
Qed.

Lemma scanFields_dropLF (x c : string) :
  sameScan (scanFields (eventFields (x +:+ c))) (scanFields (eventFields (dropLF x +:+ c))).
Proof.
  induction x as [|a x' IH]; [apply sameScan_refl|].
  simpl dropLF. destruct (Ascii.eqb_spec a LF) as [->|Ha]; [|apply sameScan_refl].
  rewrite append_cons. eapply sameScan_trans; [apply scanFields_LF | exact IH].
Qed.

Lemma scanFields_app (t c : string) :
  scanFields (eventFields (t +:+ c)) =
  (fst (scanFields (eventFields (fst (scanFields (eventFields t)) +:+ c))),
   snd (scanFields (eventFields t)) ++ snd (scanFields (eventFields (fst (scanFields (eventFields t)) +:+ c)))).
Proof.
  rewrite eventFields_app. unfold scanFields at 1. cbn [fst snd].
  set (F := eventFields (List.last (eventFields t) "" +:+ c)).
  assert (HF : F <> []) by apply eventFields_nonempty.
  rewrite last_app_nonempty by exact HF.
  rewrite List.removelast_app by exact HF. rewrite omap_app. reflexivity.
Qed.

(** Frames sent for a stream read in the pieces [chunks] from a remainder
    that agrees, leading line feeds aside, with what one read of [text]
    leaves. *)
Lemma streamFrom_scan (chunks : list string) (ending : StreamEnd) (text remainder : string) :
  dropLF remainder = dropLF (fst (scan text)) ->
  snd (scan text) ++ streamFrom remainder chunks ending =
  snd (scan (text +:+ String.concat EmptyString chunks))
  ++ streamFrom EmptyString [] ending.
Proof.
  revert text remainder. induction chunks as [|chunk rest IH]; intros text remainder Hrem.
  - simpl String.concat. rewrite append_nil_r. reflexivity.
  - destruct (String.eqb_spec chunk "") as [->|Hne].
    + assert (Ec : String.concat "" ("" :: rest) = String.concat "" rest).
      { destruct rest; reflexivity. }
      rewrite Ec. simpl. apply IH. exact Hrem.
    + assert (Ec : text +:+ String.concat "" (chunk :: rest)
                   = (text +:+ chunk) +:+ String.concat "" rest).
      { rewrite append_assoc. f_equal. destruct rest; simpl; [by rewrite append_nil_r|reflexivity]. }
      rewrite Ec. clear Ec.
      cbn [streamFrom]. rewrite readChunk_scan by exact Hne.
      destruct (scan (remainder +:+ chunk)) as [r1 s1] eqn:E1.
      assert (Hstep : sameScan (scan (text +:+ chunk)) (r1, snd (scan text) ++ s1)).
      { eapply sameScan_trans; [apply scan_fields|].
        rewrite scanFields_app.
        pose proof (scan_fields text) as [Ht1 Ht2].
        pose proof (scan_fields (remainder +:+ chunk)) as [Hr1 Hr2]. rewrite E1 in Hr1, Hr2.
        cbn [fst snd] in Hr1, Hr2.
        pose proof (scanFields_dropLF remainder chunk) as [Ha1 Ha2].
        pose proof (scanFields_dropLF (fst (scanFields (eventFields text))) chunk) as [Hb1 Hb2].
        rewrite <- Ht1, <- Hrem in Hb1, Hb2.
        split; cbn [fst snd]; [congruence|]. rewrite <- Ht2. f_equal. congruence. }
      destruct Hstep as [Hs1 Hs2]. cbn [fst snd] in Hs1, Hs2.
      rewrite app_assoc, <- Hs2. apply IH. symmetry. exact Hs1.
Qed.

(** C5. However the upstream bytes are cut into reads, the adapter sends the
    frames, in the order, that it sends when the whole stream comes in one
    read: a partial event waits in the remainder until its blank line is
    seen. *)
Theorem stream_split_invariance (chunks : list string) (ending : StreamEnd) :
  streamFrames chunks ending = streamFrames [String.concat EmptyString chunks] ending.
Proof.
  unfold streamFrames.
  pose proof (streamFrom_scan chunks ending EmptyString EmptyString eq_refl) as Hc.
  change (snd (scan "")) with (@nil string) in Hc. simpl app in Hc at 1.
  rewrite append_nil_l in Hc. rewrite Hc.
  cbn [streamFrom]. unfold readChunk.
  destruct (String.eqb_spec (String.concat "" chunks) "") as [->|Hne].
  - reflexivity.
  - rewrite append_nil_l. fold (scan (String.concat "" chunks)).
    destruct (scan (String.concat "" chunks)); reflexivity.
Qed.

End ChunkProperties.

(** ** The reference decoder reads back what the relay writes *)

Section DecoderProperties.
Import Strings JSON.

Lemma read_digits_cons (c : ascii) (r : string) :
  read_digits (String c r) =
  match digit_of c with
  | Some d => let '(u, rest) := read_digits r in (d u, rest)
  | None => (Decimal.Nil, String c r)
  end.
Proof. reflexivity. Qed.

Lemma read_digits_uint (u : Decimal.uint) (c : ascii) (rest : string) :
  digit_of c = None ->
  read_digits (NilEmpty.string_of_uint u +:+ String c rest) = (u, String c rest).
Proof.
  intros Hc. induction u; cbn [NilEmpty.string_of_uint]; rewrite ?append_cons, ?append_nil_l;
    rewrite read_digits_cons; [by rewrite Hc | ..]; rewrite IHu; reflexivity.
Qed.

Lemma to_uint_normal (p : positive) (u : Decimal.uint) :
  Pos.to_uint p = Decimal.D0 u -> False.
Proof.
  intros E.
  pose proof (DecimalZ.to_of (Z.to_int (Z.pos p))) as Hn.
  rewrite DecimalZ.of_to in Hn. cbn [Z.to_int Decimal.norm] in Hn.
  rewrite E in Hn. inversion Hn as [H0]. unfold Decimal.unorm in H0.
  destruct (Decimal.nzhead (Decimal.D0 u)) eqn:En; try discriminate H0.
  - inversion H0; subst. apply (Unsigned.to_uint_nonzero p). exact E.
  - apply (nzhead_nonzero (Decimal.D0 u) u0). exact En.
Qed.

Lemma uint_head (u : Decimal.uint) :
  u <> Decimal.Nil ->
  exists c r, NilEmpty.string_of_uint u = String c r /\ is_digit c = true.
Proof. destruct u; [congruence|..]; intros _; eexists _, _; split; reflexivity. Qed.

Lemma parse_number_Itoa (z : Z) (c : ascii) (rest : string) :
  value_end c ->
  parse_number (Itoa z +:+ String c rest) = Some (Int z, String c rest).
Proof.
  intros Hc.
  assert (Hd : digit_of c = None) by (destruct Hc as [-> | ->]; reflexivity).
  assert (Hf : read_fraction (String c rest) = Some (String c rest))
    by (destruct Hc as [-> | ->]; reflexivity).
  assert (He : read_exponent (String c rest) = Some (String c rest))
    by (destruct Hc as [-> | ->]; reflexivity).
  unfold Itoa. destruct z as [|p|p]; cbn [Z.to_int NilEmpty.string_of_int].
  - unfold parse_number. cbn [NilEmpty.string_of_uint]. rewrite !append_cons, append_nil_l.
    cbn [starts_with]. change (Ascii.eqb "-" "0") with false. cbv iota.
    rewrite read_digits_cons. change (digit_of "0") with (Some Decimal.D0).
    rewrite read_digits_cons, Hd. cbv iota beta. rewrite Hf, He, String.eqb_refl. reflexivity.
  - destruct (uint_head (Pos.to_uint p) (Unsigned.to_uint_nonnil p)) as (d & r & Ehead & Hdig).
    unfold parse_number.
    assert (Hneg : starts_with "-" (NilEmpty.string_of_uint (Pos.to_uint p) +:+ String c rest)
                   = false).
    { rewrite Ehead, append_cons. cbn [starts_with].
      destruct (Ascii.eqb_spec "-" d) as [<-|]; [discriminate Hdig | reflexivity]. }
    rewrite Hneg. rewrite read_digits_uint by exact Hd.
    destruct (Pos.to_uint p) as [| u | u | u | u | u | u | u | u | u | u] eqn:Eu;
      [ discriminate Ehead | destruct (to_uint_normal p u Eu) | .. ];
      rewrite Hf, He, String.eqb_refl; do 3 f_equal; rewrite <- Eu;
      exact (DecimalZ.of_to (Z.pos p)).
  - unfold parse_number. rewrite append_cons. cbn [starts_with].
    change (Ascii.eqb "-" "-") with true. cbv iota. cbn [drop].
    rewrite read_digits_uint by exact Hd.
    destruct (Pos.to_uint p) as [| u | u | u | u | u | u | u | u | u | u] eqn:Eu;
      [ destruct (Unsigned.to_uint_nonnil p Eu) | destruct (to_uint_normal p u Eu) | .. ];
      rewrite Hf, He, String.eqb_refl; do 3 f_equal; rewrite <- Eu;
      exact (DecimalZ.of_to (Z.neg p)).
Qed.

Lemma Itoa_head (z : Z) :
  exists c r, Itoa z = String c r /\ int_start c.
Proof.
  unfold Itoa, int_start. destruct z as [|p|p]; cbn [Z.to_int NilEmpty.string_of_int].
  - eexists _, _. split; [reflexivity|]. simpl; tauto.
  - pose proof (Unsigned.to_uint_nonnil p) as Hn.
    destruct (Pos.to_uint p); [congruence|..]; eexists _, _; (split; [reflexivity|]);
      simpl; tauto.
  - eexists _, _. split; [reflexivity|]. simpl; tauto.
Qed.

Lemma parse_value_S (k : nat) (s : string) :
  parse_value (S k) s =
  match skip_ws s with
  | EmptyString => None
  | String c r =>
      if Ascii.eqb c "{"%char then
        if starts_with "}"%char (skip_ws r) then Some (Obj [], drop 1 (skip_ws r))
        else parse_members k r []
      else if Ascii.eqb c "["%char then
        if starts_with "]"%char (skip_ws r) then Some (Arr [], drop 1 (skip_ws r))
        else parse_elements k r []
      else if Ascii.eqb c DQUOTE then
        match parse_string r with
        | Some (str, rest) => Some (Str str, rest)
        | None => None
        end
      else if HasPrefix (String c r) "true" then Some (Bool true, drop 4 (String c r))
      else if HasPrefix (String c r) "false" then Some (Bool false, drop 5 (String c r))
      else if HasPrefix (String c r) "null" then Some (Null, drop 4 (String c r))
      else parse_number (String c r)
  end.
Proof. reflexivity. Qed.

Lemma parse_members_S (k : nat) (s : string) (acc : list (string * value)) :
  parse_members (S k) s acc =
  match skip_ws s with
  | String c r =>
      if Ascii.eqb c DQUOTE then
        match parse_string r with
        | Some (key, r1) =>
            if starts_with ":"%char (skip_ws r1) then
              match parse_value k (drop 1 (skip_ws r1)) with
              | Some (v, r2) =>
                  if starts_with ","%char (skip_ws r2)
                  then parse_members k (drop 1 (skip_ws r2)) (acc ++ [(key, v)])
                  else if starts_with "}"%char (skip_ws r2)
                  then Some (Obj (acc ++ [(key, v)]), drop 1 (skip_ws r2))
                  else None
              | None => None
              end
            else None
        | None => None
        end
      else None
  | EmptyString => None
  end.
Proof. reflexivity. Qed.

Lemma parse_value_Itoa (k : nat) (z : Z) (c : ascii) (rest : string) :
  value_end c ->
  parse_value (S k) (Itoa z +:+ String c rest) = Some (Int z, String c rest).
Proof.
  intros Hc. rewrite parse_value_S, <- (parse_number_Itoa z c rest Hc).
  destruct (Itoa_head z) as (d & r & -> & Hd). rewrite append_cons.
  unfold int_start in Hd. simpl in Hd.
  repeat (destruct Hd as [<- | Hd]; [reflexivity|]). destruct Hd.
Qed.

Lemma parse_string_plain (lit rest : string) :
  plain lit = true ->
  parse_string (lit +:+ String DQUOTE rest) = Some (lit, rest).
Proof.
  induction lit as [|c r IH]; intros Hp.
  - reflexivity.
  - simpl in Hp. apply andb_prop in Hp as [Hp Hr]. apply andb_prop in Hp as [Hp Hctl].
    apply andb_prop in Hp as [Hq Hb].
    rewrite append_cons. cbn [parse_string].
    destruct (Ascii.eqb c DQUOTE); [discriminate|].
    destruct (Ascii.eqb c BACKSLASH); [discriminate|].
    destruct (nat_of_ascii c <? 32)%nat; [discriminate|].
    rewrite (IH Hr). reflexivity.
Qed.

Lemma parse_value_quote (k : nat) (r : string) :
  parse_value (S k) (String DQUOTE r) =
  match parse_string r with
  | Some (str, rest) => Some (Str str, rest)
  | None => None
  end.
Proof. reflexivity. Qed.

Lemma parse_value_brace (k : nat) (r : string) :
  parse_value (S k) (String "{" (String DQUOTE r)) = parse_members k (String DQUOTE r) [].
Proof. reflexivity. Qed.

Lemma parse_value_string (k : nat) (lit rest : string) :
  plain lit = true ->
  parse_value (S k) (String DQUOTE (lit +:+ String DQUOTE rest)) = Some (Str lit, rest).
Proof. intros Hp. by rewrite parse_value_quote, parse_string_plain. Qed.

Lemma parse_members_quote (k : nat) (r : string) (acc : list (string * value)) :
  parse_members (S k) (String DQUOTE r) acc =
  match parse_string r with
  | Some (key, r1) =>
      if starts_with ":"%char (skip_ws r1) then
        match parse_value k (drop 1 (skip_ws r1)) with
        | Some (v, r2) =>
            if starts_with ","%char (skip_ws r2)
            then parse_members k (drop 1 (skip_ws r2)) (acc ++ [(key, v)])
            else if starts_with "}"%char (skip_ws r2)
            then Some (Obj (acc ++ [(key, v)]), drop 1 (skip_ws r2))
            else None
        | None => None
        end
      else None
  | None => None
  end.
Proof. reflexivity. Qed.

(** One member [key:value] of an object whose value starts right after the
    colon. *)
Lemma parse_members_key (k : nat) (key s : string) (acc : list (string * value)) :
  plain key = true ->
  parse_members (S k) (String DQUOTE (key +:+ String DQUOTE (String ":" s))) acc =
  match parse_value k s with
  | Some (v, r2) =>
      if starts_with ","%char (skip_ws r2)
      then parse_members k (drop 1 (skip_ws r2)) (acc ++ [(key, v)])
      else if starts_with "}"%char (skip_ws r2)
      then Some (Obj (acc ++ [(key, v)]), drop 1 (skip_ws r2))
      else None
  | None => None
  end.
Proof.
  intros Hp. rewrite parse_members_quote, parse_string_plain by exact Hp. reflexivity.
Qed.

Lemma marshalUsageEvent_shape (i o t : Z) :
  marshalUsageEvent i o t =
  String "{" (String DQUOTE ("type" +:+ String DQUOTE (String ":" (String DQUOTE
  ("usage_update" +:+ String DQUOTE (String "," (String DQUOTE ("usage" +:+ String
  DQUOTE (String ":" (String "{" (String DQUOTE ("input_tokens" +:+ String DQUOTE
  (String ":" (Itoa i +:+ String "," (String DQUOTE ("output_tokens" +:+ String DQUOTE
  (String ":" (Itoa o +:+ String "," (String DQUOTE ("total_tokens" +:+ String DQUOTE
  (String ":" (Itoa t +:+ String "}" (String "}" EmptyString))))))))))))))))))))))).
Proof. reflexivity. Qed.

Lemma parse_members_more (k : nat) (key s r : string) (acc : list (string * value))
    (v : value) :
  plain key = true ->
  parse_value k s = Some (v, String "," r) ->
  parse_members (S k) (String DQUOTE (key +:+ String DQUOTE (String ":" s))) acc =
  parse_members k r (acc ++ [(key, v)]).
Proof. intros Hp Hv. rewrite parse_members_key, Hv by exact Hp. reflexivity. Qed.

Lemma parse_members_last (k : nat) (key s r : string) (acc : list (string * value))
    (v : value) :
  plain key = true ->
  parse_value k s = Some (v, String "}" r) ->
  parse_members (S k) (String DQUOTE (key +:+ String DQUOTE (String ":" s))) acc =
  Some (Obj (acc ++ [(key, v)]), r).
Proof. intros Hp Hv. rewrite parse_members_key, Hv by exact Hp. reflexivity. Qed.

Lemma parse_value_usage (k : nat) (i o t : Z) :
  parse_value (10 + k) (marshalUsageEvent i o t) = Some (usage_document i o t, EmptyString).
Proof.
  rewrite marshalUsageEvent_shape.
  change (10 + k)%nat with (S (S (S (S (S (S (S (S (S (S k)))))))))).
  rewrite parse_value_brace.
  erewrite parse_members_more;
    [ | reflexivity | apply parse_value_string; reflexivity ].
  erewrite parse_members_last; [ reflexivity | reflexivity | ].
  rewrite parse_value_brace.
  erewrite parse_members_more;
    [ | reflexivity | apply parse_value_Itoa; left; reflexivity ].
  erewrite parse_members_more;
    [ | reflexivity | apply parse_value_Itoa; left; reflexivity ].
  erewrite parse_members_last;
    [ reflexivity | reflexivity | apply parse_value_Itoa; right; reflexivity ].
Qed.

Lemma parse_usage (i o t : Z) :
  parse (marshalUsageEvent i o t) = Some (usage_document i o t).
Proof.
  unfold parse.
  assert (Hlen : exists k, S (String.length (marshalUsageEvent i o t)) = (10 + k)%nat).
  { rewrite marshalUsageEvent_shape. cbn [String.length]. rewrite !length_append.
    eexists. simpl. reflexivity. }
  destruct Hlen as [k ->]. rewrite parse_value_usage. reflexivity.
Qed.

Lemma step_usage_event_type (s : string) (e : UsageEvent) :
  step_usage_event "type" (Str s) e =
  Some {| UType := s; UInputTokens := UInputTokens e;
          UOutputTokens := UOutputTokens e; UTotalTokens := UTotalTokens e |}.
Proof. reflexivity. Qed.

Lemma step_usage_event_usage (v : value) (e : UsageEvent) :
  step_usage_event "usage" v e = decode_struct step_usage_counts e v.
Proof. reflexivity. Qed.

Lemma decode_int_in_range (old z : Z) : Go.in_int64 z -> decode_int old (Int z) = Some z.
Proof.
  intros [H1 H2]. unfold decode_int.
  destruct (Z.leb_spec Go.min_int64 z); [|lia].
  destruct (Z.leb_spec z Go.max_int64); [|lia]. reflexivity.
Qed.

Lemma step_usage_counts_input (z : Z) (e : UsageEvent) :
  Go.in_int64 z ->
  step_usage_counts "input_tokens" (Int z) e =
  Some {| UType := UType e; UInputTokens := z;
          UOutputTokens := UOutputTokens e; UTotalTokens := UTotalTokens e |}.
Proof.
  intros Hz.
  change (step_usage_counts "input_tokens" (Int z) e)
    with (match decode_int (UInputTokens e) (Int z) with
          | Some z => Some {| UType := UType e; UInputTokens := z;
                              UOutputTokens := UOutputTokens e;
                              UTotalTokens := UTotalTokens e |}
          | None => None
          end).
  by rewrite decode_int_in_range.
Qed.

Lemma step_usage_counts_output (z : Z) (e : UsageEvent) :
  Go.in_int64 z ->
  step_usage_counts "output_tokens" (Int z) e =
  Some {| UType := UType e; UInputTokens := UInputTokens e;
          UOutputTokens := z; UTotalTokens := UTotalTokens e |}.
Proof.
  intros Hz.
  change (step_usage_counts "output_tokens" (Int z) e)
    with (match decode_int (UOutputTokens e) (Int z) with
          | Some z => Some {| UType := UType e; UInputTokens := UInputTokens e;
                              UOutputTokens := z;
                              UTotalTokens := UTotalTokens e |}
          | None => None
          end).
  by rewrite decode_int_in_range.
Qed.

Lemma step_usage_counts_total (z : Z) (e : UsageEvent) :
  Go.in_int64 z ->
  step_usage_counts "total_tokens" (Int z) e =
  Some {| UType := UType e; UInputTokens := UInputTokens e;
          UOutputTokens := UOutputTokens e; UTotalTokens := z |}.
Proof.
  intros Hz.
  change (step_usage_counts "total_tokens" (Int z) e)
    with (match decode_int (UTotalTokens e) (Int z) with
          | Some z => Some {| UType := UType e; UInputTokens := UInputTokens e;
                              UOutputTokens := UOutputTokens e;
                              UTotalTokens := z |}
          | None => None
          end).
  by rewrite decode_int_in_range.
Qed.

Lemma unmarshal_usage_roundtrip (i o t : Z) :
  Go.in_int64 i -> Go.in_int64 o -> Go.in_int64 t ->
  unmarshalUsageEvent (marshalUsageEvent i o t) =
  Some {| UType := "usage_update"; UInputTokens := i; UOutputTokens := o;
          UTotalTokens := t |}.
Proof.
  intros Hi Ho Ht.
  cbn [unmarshalUsageEvent reference_decoder]. rewrite parse_usage.
  unfold usage_document. cbn [decode_struct decode_fields].
  rewrite step_usage_event_type, step_usage_event_usage.
  cbn [decode_struct decode_fields].
  rewrite step_usage_counts_input by exact Hi.
  rewrite step_usage_counts_output by exact Ho.
  rewrite step_usage_counts_total by exact Ht.
  reflexivity.
Qed.

(** ** The frame of a usage event, read back *)

Lemma HasPrefix_self_app (p r : string) : HasPrefix (p +:+ r) p = true.
Proof.
  induction p as [|c p IH]; [apply HasPrefix_empty|].
  rewrite append_cons. cbn [HasPrefix]. by rewrite Ascii.eqb_refl, IH.
Qed.

Lemma Contains_unfold (s sub : string) :
  Contains s sub =
  HasPrefix s sub || match s with
                     | EmptyString => false
                     | String _ r => Contains r sub
                     end.
Proof. destruct s; reflexivity. Qed.

Lemma Contains_app (a b sub : string) :
  Contains b sub = true -> Contains (a +:+ b) sub = true.
Proof.
  intros Hb. induction a as [|c a IH]; [exact Hb|].
  rewrite append_cons, Contains_unfold, IH. apply orb_true_r.
Qed.

Lemma Contains_here (sub rest : string) : Contains (sub +:+ rest) sub = true.
Proof. by rewrite Contains_unfold, HasPrefix_self_app. Qed.

Lemma noLF_app (a b : string) : noLF (a +:+ b) = noLF a && noLF b.
Proof.
  induction a as [|c a IH]; [reflexivity|].
  rewrite append_cons. cbn [noLF]. by rewrite IH, andb_assoc.
Qed.

Lemma noLF_uint (u : Decimal.uint) : noLF (NilEmpty.string_of_uint u) = true.
Proof. induction u; cbn [NilEmpty.string_of_uint noLF]; try rewrite IHu; reflexivity. Qed.

Lemma noLF_Itoa (z : Z) : noLF (Itoa z) = true.
Proof.
  unfold Itoa. destruct z; cbn [Z.to_int NilEmpty.string_of_int noLF];
    rewrite ?noLF_uint; reflexivity.
Qed.

Lemma noLF_marshalUsageEvent (i o t : Z) : noLF (marshalUsageEvent i o t) = true.
Proof.
  rewrite marshalUsageEvent_shape.
  repeat first [ rewrite noLF_app | rewrite noLF_Itoa | progress cbn [noLF andb negb] ].
  reflexivity.
Qed.

Lemma split_from_noLF (s cur : string) :
  noLF s = true -> split_from nl 0 cur s = [cur +:+ s].
Proof.
  revert cur. induction s as [|c r IH]; intros cur Hs.
  - by rewrite append_nil_r.
  - cbn [noLF] in Hs. apply andb_prop in Hs as [Hc Hr].
    rewrite split_from_cons. cbn [HasPrefix nl].
    destruct (Ascii.eqb c LF); [discriminate|]. cbn [andb].
    rewrite (IH _ Hr), append_assoc. reflexivity.
Qed.

Lemma Split_noLF (s : string) : noLF s = true -> Split s nl = [s].
Proof. intros Hs. unfold Split. by rewrite split_from_noLF. Qed.

Lemma list_ascii_of_string_app (a b : string) :
  list_ascii_of_string (a +:+ b) = list_ascii_of_string a ++ list_ascii_of_string b.
Proof.
  induction a as [|c a IH]; [reflexivity|].
  rewrite append_cons. cbn [list_ascii_of_string]. by rewrite IH.
Qed.

Lemma string_of_list_ascii_app (a b : list ascii) :
  string_of_list_ascii (a ++ b) = string_of_list_ascii a +:+ string_of_list_ascii b.
Proof.
  induction a as [|c a IH]; [reflexivity|].
  cbn [app string_of_list_ascii]. by rewrite IH, append_cons.
Qed.

Lemma trim_right_LF (l : list ascii) : trim_right (l ++ [LF]) = trim_right l.
Proof.
  unfold trim_right. rewrite List.rev_app_distr, List.length_app, Nat.add_1_r. reflexivity.
Qed.

Lemma space_at_end_brace (rest : list ascii) : space_at_end ("}"%char :: rest) = 0%nat.
Proof.
  destruct rest as [|b [|a rest']]; cbn [space_at_end].
  - reflexivity.
  - change (is_ascii_space "}") with false. cbv iota.
    unfold is_space2. change (nat_of_ascii "}") with 125%nat.
    destruct (nat_of_ascii b =? 194)%nat; reflexivity.
  - change (is_ascii_space "}") with false. cbv iota.
    unfold is_space2, is_space3. change (nat_of_ascii "}") with 125%nat.
    destruct (nat_of_ascii b =? 194)%nat, (nat_of_ascii a =? 225)%nat,
      (nat_of_ascii a =? 226)%nat, (nat_of_ascii a =? 227)%nat,
      (nat_of_ascii b =? 154)%nat, (nat_of_ascii b =? 128)%nat,
      (nat_of_ascii b =? 129)%nat; reflexivity.
Qed.

Lemma trim_right_brace (l : list ascii) : trim_right (l ++ ["}"%char]) = l ++ ["}"%char].
Proof.
  unfold trim_right. rewrite List.rev_app_distr, List.length_app, Nat.add_1_r.
  cbn [List.rev app trim_with]. rewrite space_at_end_brace.
  cbn [List.rev]. by rewrite List.rev_involutive.
Qed.

(** The text of a data frame whose payload ends in a closing brace is the
    frame without its blank line. *)
Lemma TrimSpace_dataFrame (x : string) :
  TrimSpace (Anthropic.dataFrame (x +:+ "}")) = "data: " +:+ x +:+ "}".
Proof.
  unfold TrimSpace, Anthropic.dataFrame.
  set (body := "data: " +:+ x +:+ "}").
  assert (E : "data: " +:+ (x +:+ "}") +:+ nlnl = body +:+ nlnl).
  { unfold body. by rewrite !append_assoc. }
  rewrite E, list_ascii_of_string_app.
  assert (Hl : trim_left (list_ascii_of_string body ++ list_ascii_of_string nlnl)
               = list_ascii_of_string body ++ list_ascii_of_string nlnl).
  { unfold body. rewrite !list_ascii_of_string_app. reflexivity. }
  rewrite Hl.
  change (list_ascii_of_string nlnl) with ([LF] ++ [LF]).
  rewrite app_assoc, !trim_right_LF.
  unfold body. rewrite <- append_assoc, list_ascii_of_string_app.
  change (list_ascii_of_string "}") with ["}"%char].
  rewrite trim_right_brace, string_of_list_ascii_app, string_of_list_ascii_of_string.
  by rewrite append_assoc.
Qed.

Lemma decode_fields_invariant {A} (P : A -> Prop)
    (step : string -> value -> A -> option A) (fields : list (string * value)) (a a' : A) :
  (forall k v x y, P x -> step k v x = Some y -> P y) ->
  P a -> decode_fields step fields a = Some a' -> P a'.
Proof.
  intros Hstep. revert a. induction fields as [|[k v] rest IH]; intros a Ha; simpl.
  - intros E. by inversion E; subst.
  - destruct (step k v a) as [y|] eqn:E; [|discriminate].
    apply IH. eapply Hstep; eauto.
Qed.

Lemma decode_int_typed (old z : Z) (v : value) :
  Go.in_int64 old -> decode_int old v = Some z -> Go.in_int64 z.
Proof.
  intros Hold. destruct v; simpl; try discriminate.
  - intros E. by inversion E; subst.
  - destruct (Z.leb_spec Go.min_int64 z0), (Z.leb_spec z0 Go.max_int64); simpl;
      try discriminate.
    intros E. inversion E; subst. split; assumption.
Qed.

Lemma step_counts_typed (k : string) (v : value) (x y : TokenCounts) :
  typedCounts x -> step_counts k v x = Some y -> typedCounts y.
Proof.
  intros [Hi Ho]. unfold step_counts.
  destruct (names k "input_tokens").
  { destruct (decode_int (input_tokens x) v) as [z|] eqn:E; [|discriminate].
    intros Ey. inversion Ey; subst. split; simpl; [|exact Ho].
    exact (decode_int_typed _ _ _ Hi E). }
  destruct (names k "output_tokens").
  { destruct (decode_int (output_tokens x) v) as [z|] eqn:E; [|discriminate].
    intros Ey. inversion Ey; subst. split; simpl; [exact Hi|].
    exact (decode_int_typed _ _ _ Ho E). }
  intros Ey. inversion Ey; subst. split; assumption.
Qed.

Lemma zero_counts_typed : typedCounts zero_counts.
Proof. split; simpl; unfold Go.in_int64, Go.min_int64, Go.max_int64; lia. Qed.

Lemma decode_pointer_counts_typed (old u : option TokenCounts) (v : value) :
  (forall c, old = Some c -> typedCounts c) ->
  decode_pointer step_counts zero_counts old v = Some u ->
  forall c, u = Some c -> typedCounts c.
Proof.
  intros Hold. destruct v; simpl; try discriminate.
  - intros E c ->. discriminate.
  - destruct (decode_fields step_counts fields _) as [a|] eqn:E; [|discriminate].
    intros Eu c ->. inversion Eu; subst.
    eapply (decode_fields_invariant typedCounts); [apply step_counts_typed | | exact E].
    destruct old as [c0|]; [by apply Hold | apply zero_counts_typed].
Qed.

Lemma step_message_typed (k : string) (v : value) (x y : StreamMessage) :
  typedMessage x -> step_message k v x = Some y -> typedMessage y.
Proof.
  intros Hx. unfold step_message. destruct (names k "usage").
  - destruct (decode_pointer step_counts zero_counts (MessageUsage x) v) as [u|] eqn:E;
      [|discriminate].
    intros Ey. inversion Ey; subst. intros c Hc. simpl in Hc.
    eapply decode_pointer_counts_typed; eauto.
  - intros Ey. by inversion Ey; subst.
Qed.

Lemma step_stream_event_typed (k : string) (v : value) (x y : AnthropicStreamEvent) :
  typedEvent x -> step_stream_event k v x = Some y -> typedEvent y.
Proof.
  intros Hx. unfold step_stream_event.
  destruct (names k "type").
  { destruct (decode_string (Type_ x) v); [|discriminate].
    intros Ey. inversion Ey; subst. exact Hx. }
  destruct (names k "usage").
  { destruct (decode_pointer step_counts zero_counts (Usage x) v); [|discriminate].
    intros Ey. inversion Ey; subst. exact Hx. }
  destruct (names k "message").
  { destruct (decode_pointer step_message {| MessageUsage := None |} (Message x) v)
      as [m|] eqn:E; [|discriminate].
    intros Ey. inversion Ey; subst. intros m' c Hm Hc. simpl in Hm. subst m.
    destruct v; simpl in E; try discriminate.
    destruct (decode_fields step_message fields _) as [a|] eqn:Ef; [|discriminate].
    inversion E; subst.
    refine (decode_fields_invariant typedMessage _ _ _ _ step_message_typed _ Ef c Hc).
    destruct (Message x) as [m0|] eqn:Em.
    - intros c0 Hc0. eapply Hx; eauto.
    - intros c0 Hc0. discriminate. }
  intros Ey. by inversion Ey; subst.
Qed.

#[export] Instance reference_decoder_laws : @DecoderLaws reference_decoder.
Proof.
  split.
  - intros data e. cbn [unmarshalStreamEvent reference_decoder].
    destruct (parse data) as [v|]; [|discriminate].
    destruct v; simpl; try discriminate.
    + intros E. inversion E; subst. intros m c Hm. discriminate.
    + apply (decode_fields_invariant typedEvent); [apply step_stream_event_typed|].
      intros m c Hm. discriminate.
  - apply unmarshal_usage_roundtrip.
Qed.

End DecoderProperties.

Section FrameProperties.
Context `{DecoderLaws}.
Import Strings JSON Models Anthropic LLM.

Lemma marshalUsageEvent_ends (i o t : Z) :
  exists x, marshalUsageEvent i o t = x +:+ "}".
Proof.
  eexists (q "{'type':'usage_update','usage':{'input_tokens':" +:+ Itoa i
           +:+ q ",'output_tokens':" +:+ Itoa o
           +:+ q ",'total_tokens':" +:+ Itoa t +:+ "}").
  unfold marshalUsageEvent. rewrite !append_assoc. reflexivity.
Qed.

Lemma Contains_usage_frame (i o t : Z) :
  Contains (dataFrame (marshalUsageEvent i o t)) "usage_update" = true.
Proof.
  assert (E : exists rest, dataFrame (marshalUsageEvent i o t)
                           = q "data: {'type':'" +:+ "usage_update" +:+ rest).
  { eexists. reflexivity. }
  destruct E as [rest ->]. apply Contains_app, Contains_here.
Qed.

(** The relay of the gateway reads a usage frame back as the usage it was
    written from. *)
Lemma extractUsageFromSSE_usage_frame (i o t : Z) :
  Go.in_int64 i -> Go.in_int64 o -> Go.in_int64 t ->
  extractUsageFromSSE (dataFrame (marshalUsageEvent i o t)) =
  Some {| InputTokens := i; OutputTokens := o; TotalTokens := t;
          PromptTokens := i; CompletionTokens := o |}.
Proof.
  intros Hi Ho Ht. unfold extractUsageFromSSE.
  rewrite Contains_usage_frame. cbn [negb].
  destruct (marshalUsageEvent_ends i o t) as [x Ex].
  rewrite Ex, TrimSpace_dataFrame, <- Ex.
  rewrite Split_noLF.
  2:{ rewrite noLF_app, noLF_marshalUsageEvent. reflexivity. }
  cbn [extractLines]. rewrite HasPrefix_self_app.
  assert (Et : TrimPrefix ("data: " +:+ marshalUsageEvent i o t) "data: "
               = marshalUsageEvent i o t).
  { unfold TrimPrefix. rewrite HasPrefix_self_app. reflexivity. }
  rewrite Et, usage_event_roundtrip by assumption. reflexivity.
Qed.

End FrameProperties.

(** ** What the caller is sent *)

Section EventProperties.
Context `{DecoderLaws}.
Import Strings JSON Models Anthropic LLM.

Lemma processLines_payload (lines : list string) :
  processLines lines =
  match firstPayload lines with
  | None => None
  | Some data =>
      Some match unmarshalStreamEvent data with
           | Some streamEvent =>
               match terminalUsage streamEvent with
               | Some usage => usageFrame usage
               | None => dataFrame data
               end
           | None => dataFrame data
           end
  end.
Proof.
  induction lines as [|line rest IH]; [reflexivity|].
  cbn [processLines firstPayload].
  destruct (HasPrefix line "data: "); [|exact IH].
  destruct (String.eqb (TrimPrefix line "data: ") "" || String.eqb (TrimPrefix line "data: ") "[DONE]");
    [exact IH|].
  destruct (unmarshalStreamEvent (TrimPrefix line "data: ")) as [ev|]; [|reflexivity].
  destruct (terminalUsage ev); reflexivity.
Qed.

Lemma processSSEEvent_payload (eventText : string) :
  processSSEEvent eventText =
  match payloadOf eventText with
  | None => None
  | Some data =>
      match terminalOf eventText with
      | Some usage => Some (usageFrame usage)
      | None => Some (dataFrame data)
      end
  end.
Proof.
  unfold processSSEEvent, terminalOf, payloadOf. rewrite processLines_payload.
  destruct (firstPayload _) as [data|]; [|reflexivity].
  destruct (unmarshalStreamEvent data) as [ev|]; [|reflexivity].
  destruct (terminalUsage ev); reflexivity.
Qed.

Lemma terminalOf_typed (eventText : string) (counts : TokenCounts) :
  terminalOf eventText = Some counts -> typedCounts counts.
Proof.
  unfold terminalOf. destruct (payloadOf eventText) as [data|]; [|discriminate].
  destruct (unmarshalStreamEvent data) as [ev|] eqn:E; [|discriminate].
  unfold terminalUsage. destruct (String.eqb (Type_ ev) "message_stop"); [|discriminate].
  destruct (Message ev) as [m|] eqn:Em; [|discriminate].
  intros Hu. exact (stream_event_typed data ev E m counts Em Hu).
Qed.

Lemma int_add_in_int64 (a b : Z) : Go.in_int64 (Go.int_add a b).
Proof.
  unfold Go.in_int64, Go.int_add, Go.wrap64, Go.min_int64, Go.max_int64.
  pose proof (Z.mod_pos_bound (a + b + 2 ^ 63) (2 ^ 64) ltac:(lia)). lia.
Qed.

Lemma terminal_event_captured (eventText : string) (counts : TokenCounts) :
  terminalOf eventText = Some counts ->
  processSSEEvent eventText = Some (usageFrame counts)
  /\ extractUsageFromSSE (usageFrame counts) = Some (usageOf counts).
Proof.
  intros Ht. split.
  - rewrite processSSEEvent_payload, Ht.
    unfold terminalOf in Ht. destruct (payloadOf eventText); [reflexivity|discriminate].
  - destruct (terminalOf_typed _ _ Ht) as [Hi Ho].
    unfold usageFrame. rewrite extractUsageFromSSE_usage_frame;
      [reflexivity | assumption | assumption | apply int_add_in_int64].
Qed.

Lemma relay_sent (items : list string) (receives : list nat) (st : RelayState) :
  exists l,
    sent (snd (relay items receives st)) = sent st ++ l
    /\ l `prefix_of` contentFrames items
    /\ (fst (relay items receives st) = SourceClosed ->
        l = contentFrames items
        /\ finalUsage (snd (relay items receives st)) = capturedUsage (finalUsage st) items).
Proof.
  revert receives st. induction items as [|data rest IH]; intros receives st.
  - exists []. simpl. rewrite app_nil_r. repeat split; reflexivity.
  - cbn [relay]. unfold contentFrames, isContent. cbn [List.filter capturedUsage fold_left].
    destruct (extractUsageFromSSE data) as [usage|] eqn:E.
    + destruct (IH (tl receives)
                  {| queued := queued st - hd 0%nat receives; sent := sent st;
                     finalUsage := Some usage |}) as (l & Hl & Hp & Hc).
      exists l. repeat split; try assumption; apply Hc; assumption.
    + destruct (Nat.ltb (queued st - hd 0%nat receives) capacity).
      * destruct (IH (tl receives)
                    {| queued := S (queued st - hd 0%nat receives);
                       sent := sent st ++ [data];
                       finalUsage := finalUsage st |}) as (l & Hl & Hp & Hc).
        exists (data :: l). cbn [sent finalUsage] in *.
        rewrite Hl, <- app_assoc. split; [reflexivity|]. split.
        -- apply prefix_cons. exact Hp.
        -- intros Hend. destruct (Hc Hend) as [-> Hf]. split; [reflexivity|exact Hf].
      * exists []. cbn [fst snd sent]. rewrite app_nil_r. split; [reflexivity|]. split.
        -- apply prefix_nil.
        -- discriminate.
Qed.

(** C1 (amended). Each complete vendor event is inspected.  The terminal usage
    summary (a message_stop event with token counts) is turned into a
    usage_update frame, which the gateway captures and does not forward.  Of any
    other event the adapter keeps the payload of the first data line that is
    neither empty nor the DONE marker and sends it on as a frame of its own,
    the payload bytes unchanged; an event without such a line is dropped.  The
    caller is sent, in order, frames the gateway does not recognise as
    usage_update, and all of them when the relay runs to the close of the
    source. *)
Theorem relay_withholds_usage (eventText : string) (items : list string)
    (receives : list nat) :
  processSSEEvent eventText =
    match payloadOf eventText with
    | None => None
    | Some data =>
        match terminalOf eventText with
        | Some counts => Some (usageFrame counts)
        | None => Some (dataFrame data)
        end
    end
  /\ (forall counts, terminalOf eventText = Some counts ->
        extractUsageFromSSE (usageFrame counts) = Some (usageOf counts))
  /\ (let outcome := relay items receives startState in
      sent (snd outcome) `prefix_of` contentFrames items
      /\ Forall (fun data => extractUsageFromSSE data = None) (sent (snd outcome))
      /\ (fst outcome = SourceClosed ->
          sent (snd outcome) = contentFrames items
          /\ finalUsage (snd outcome) = capturedUsage None items)).
Proof.
  split; [apply processSSEEvent_payload|]. split.
  - intros counts Ht. exact (proj2 (terminal_event_captured _ _ Ht)).
  - destruct (relay_sent items receives startState) as (l & Hl & Hp & Hc).
    cbn [sent startState app] in Hl. cbn zeta. rewrite Hl.
    split; [exact Hp|]. split.
    + destruct Hp as [k Hk].
      assert (Hall : Forall (fun data => extractUsageFromSSE data = None) (contentFrames items)).
      { apply List.Forall_forall. intros data Hin.
        apply List.filter_In in Hin as [_ Hc']. unfold isContent in Hc'.
        destruct (extractUsageFromSSE data); [discriminate|reflexivity]. }
      rewrite Hk in Hall. apply Forall_app in Hall. tauto.
    + exact Hc.
Qed.

(** C7. The normalised response carries total = input + output (a Go int
    sum), and so does the usage captured from a terminal stream event; where
    the sum fits 64 bits it is the exact sum. *)
Theorem usage_total_is_sum :
  (forall (now : Z) (resp : Interface) (response : ChatCompletionResponse),
     TransformResponse now resp = Some response ->
     TotalTokens (ResponseUsage response)
       = Go.int_add (InputTokens (ResponseUsage response))
                    (OutputTokens (ResponseUsage response))
     /\ (Go.in_int64 (InputTokens (ResponseUsage response)
                      + OutputTokens (ResponseUsage response)) ->
         TotalTokens (ResponseUsage response)
           = InputTokens (ResponseUsage response) + OutputTokens (ResponseUsage response)))
  /\ (forall (eventText : string) (counts : TokenCounts),
       terminalOf eventText = Some counts ->
       exists frame captured,
         processSSEEvent eventText = Some frame
         /\ extractUsageFromSSE frame = Some captured
         /\ InputTokens captured = input_tokens counts
         /\ OutputTokens captured = output_tokens counts
         /\ TotalTokens captured = Go.int_add (InputTokens captured) (OutputTokens captured)
         /\ (Go.in_int64 (InputTokens captured + OutputTokens captured) ->
             TotalTokens captured = InputTokens captured + OutputTokens captured)).
Proof.
  split.
  - intros now resp response Hr.
    assert (Hsum : TotalTokens (ResponseUsage response)
                   = Go.int_add (InputTokens (ResponseUsage response))
                                (OutputTokens (ResponseUsage response))).
    { unfold TransformResponse in Hr. destruct resp as [r|]; [|discriminate].
      destruct (AnthropicContents r); inversion Hr; subst; reflexivity. }
    split; [exact Hsum|].
    intros Hfit. rewrite Hsum. unfold Go.int_add. by apply wrap64_in_range.
  - intros eventText counts Ht.
    destruct (terminal_event_captured _ _ Ht) as [Hp He].
    exists (usageFrame counts), (usageOf counts).
    repeat split; try assumption; try reflexivity.
    intros Hfit. cbn [usageOf TotalTokens InputTokens OutputTokens] in *.
    unfold Go.int_add. by apply wrap64_in_range.
Qed.

End EventProperties.

Lemma usage_total_is_sum_witness :
  (exists response,
     Anthropic.TransformResponse 1705258800 (Anthropic.IAnthropicResponse sample_response)
       = Some response
     /\ Models.TotalTokens (Models.ResponseUsage response) = 46)
  /\ terminalOf message_stop_event
     = Some {| JSON.input_tokens := 12; JSON.output_tokens := 34 |}
  /\ exists frame captured,
       Anthropic.processSSEEvent message_stop_event = Some frame
       /\ LLM.extractUsageFromSSE frame = Some captured
       /\ Models.TotalTokens captured = 46.
Proof.
  assert (Hr : Anthropic.TransformResponse 1705258800
                 (Anthropic.IAnthropicResponse sample_response)
               = Some {| Models.ResponseID := "msg_1"; Models.ResponseType := "message";
                         Models.ResponseRole := "assistant";
                         Models.ResponseModel := "claude-3";
                         Models.ResponseContent :=
                           [ {| Models.ContentType := "text"; Models.Text := "Hi" |} ];
                         Models.ResponseUsage := usage_of_tokens 12 34;
                         Models.Choices :=
                           [ {| Models.Index := 0;
                                Models.ChoiceMessage :=
                                  {| Models.Role := "assistant"; Models.Content := "Hi" |};
                                Models.FinishReason := "end_turn" |} ];
                         Models.Object := "chat.completion";
                         Models.Created := 1705258800 |}) by reflexivity.
  assert (Ht : terminalOf message_stop_event
               = Some {| JSON.input_tokens := 12; JSON.output_tokens := 34 |})
    by (vm_compute; reflexivity).
  destruct usage_total_is_sum as [Hresp Hstream].
  destruct (Hresp _ _ _ Hr) as [Hsum _].
  destruct (Hstream message_stop_event _ Ht)
    as (frame & captured & Hp & He & Hi & Ho & Htot & _).
  split; [eexists; split; [exact Hr | reflexivity]|].
  split; [exact Ht|].
  exists frame, captured. split; [exact Hp|]. split; [exact He|].
  rewrite Htot, Hi, Ho. reflexivity.
Defined.

Lemma relay_withholds_usage_witness :
  Anthropic.streamFrames [ping_event +:+ Strings.nlnl +:+ message_stop_event +:+ Strings.nlnl]
    Anthropic.EOF
  = [ Anthropic.dataFrame (JSON.q "{'type': 'ping'}");
      Anthropic.usageFrame {| JSON.input_tokens := 12; JSON.output_tokens := 34 |} ]
  /\ LLM.extractUsageFromSSE
       (Anthropic.usageFrame {| JSON.input_tokens := 12; JSON.output_tokens := 34 |})
     = Some (usage_of_tokens 12 34).
Proof.
  split; [vm_compute; reflexivity|].
  apply (proj1 (proj2 (relay_withholds_usage message_stop_event [] []))).
  vm_compute. reflexivity.
Defined.

(** C1 as stated fails: of a ping event the caller is sent the data line
    alone, not the bytes of the event. *)
Lemma ping_event_is_reframed : ~ spec_forwards_unmodified.
Proof.
  intros Hspec. specialize (Hspec ping_event). vm_compute in Hspec.
  specialize (Hspec eq_refl eq_refl). discriminate Hspec.
Qed.

(** ** The model on sample inputs *)

Section Samples.
Import Strings JSON Anthropic.

Example Split_blank_lines :
  Split ("data: a" +:+ nlnl +:+ "data: b" +:+ nl +:+ nlnl +:+ "x") nlnl
  = ["data: a"; "data: b"; nl +:+ "x"].
Proof. reflexivity. Qed.

Example Split_trailing_separator :
  Split ("data: a" +:+ nlnl) nlnl = ["data: a"; EmptyString].
Proof. reflexivity. Qed.

Example TrimSpace_unicode :
  TrimSpace ("  " +:+ nl +:+ "a b " +:+ String "194" (String "160" nl)) = "a b".
Proof. reflexivity. Qed.

Example Truncate_is_utc_midnight :
  Time.Truncate sample_now (24 * Time.Hour)
  = Time.Date 2024 1 14 8 0 0 0 (8 * 3600).
Proof. reflexivity. Qed.

Example month_window :
  Time.civil (Time.AddDate (Time.Date 2023 12 1 0 0 0 0 0) 0 1 0) = (2024, 1, 1).
Proof. reflexivity. Qed.

Example unmarshal_message_stop :
  unmarshalStreamEvent
    (q "{'type':'message_stop','message':{'usage':{'input_tokens':12,'output_tokens':34}}}")
  = Some {| Type_ := "message_stop"; Usage := None;
            Message := Some {| MessageUsage :=
                                 Some {| input_tokens := 12; output_tokens := 34 |} |} |}.
Proof. vm_compute. reflexivity. Qed.

Example unmarshal_rejects_text : unmarshalStreamEvent "hello" = None.
Proof. reflexivity. Qed.

Example marshal_usage :
  marshalUsageEvent 12 34 46
  = q "{'type':'usage_update','usage':{'input_tokens':12,'output_tokens':34,'total_tokens':46}}".
Proof. reflexivity. Qed.

(** A stream cut in the middle of an event and of a separator. *)
Example stream_in_three_reads :
  streamFrames
    [ "event: content_block_delta" +:+ nl +:+ "data: {";
      q "'type':'ping'}" +:+ nl;
      nl +:+ message_stop_event +:+ nlnl +:+ "data: tail" ]
    (ReadError "boom")
  = [ dataFrame (q "{'type':'ping'}");
      usageFrame {| input_tokens := 12; output_tokens := 34 |};
      errorFrame "boom" ].
Proof. vm_compute. reflexivity. Qed.

(** The scenario of the specification: a message_stop event with usage 12/34
    never reaches the client, and the record ends completed with 46 tokens. *)
Example streaming_scenario :
  let frames := streamFrames [ping_event +:+ nlnl +:+ message_stop_event +:+ nlnl] EOF in
  let '(delivered, logs) :=
    LLM.StreamChatCompletion [] 1 7 "claude-3" default_rates sample_now 1200 frames [] in
  delivered = [dataFrame (q "{'type': 'ping'}")]
  /\ List.map (fun row => (Models.LogStatus row, Models.LogTotalTokens row)) logs
     = [("completed"%string, 46)].
Proof. vm_compute. split; reflexivity. Qed.

End Samples.

(** ** The daily ceiling on a clock away from UTC *)

Section DailyCeilingProperties.
Import Models Cache LLM.

(** C4. With a daily ceiling of five, an empty usage cache and the usage read
    from the store, the sixth call of a calendar day is accepted, not
    rejected: at 09:00 on 1 February, eight hours east of UTC, the five
    completed calls made from 01:00 to 05:00 of that same day lie before the
    UTC midnight at which the code starts its daily window, so the usage
    counter returns 0 for the day, and 5 for the month, whose window is
    local, where the local day holds 5; the quota check then hands on the
    request context. *)
Theorem sixth_call_of_the_day_is_accepted :
  List.map (fun row => Time.civil (CreatedAt row)) calls_that_morning
    = repeat (Time.civil february_morning) 5
  /\ Time.civil february_morning = (2024, 2, 1)
  /\ List.map LogStatus calls_that_morning = repeat "completed" 5
  /\ List.map LogAPIKeyID calls_that_morning = repeat (ID (sample_key 5 0)) 5
  /\ GetUsageCount empty_cache february_morning (ID (sample_key 5 0)) = None
  /\ getBatchUsageFromDB (sample_store calls_that_morning) february_morning
       (ID (sample_key 5 0))
     = Some {| DailyCount := 0; MonthlyCount := 5 |}
  /\ spec_countUsage calls_that_morning february_morning (ID (sample_key 5 0))
     = {| DailyCount := 5; MonthlyCount := 5 |}
  /\ fst (validateUsageLimitsOptimized empty_cache (sample_store calls_that_morning)
            february_morning (sample_key 5 0))
     = Ok (requestContext february_morning (sample_key 5 0))
  /\ QuotaExceeded (fst (validateUsageLimitsOptimized empty_cache
                           (sample_store calls_that_morning)
                           february_morning (sample_key 5 0)))
     = false.
Proof. repeat split; vm_compute; reflexivity. Qed.

End DailyCeilingProperties.

(** ** Stop sequences and metadata on their way to the vendor *)

Section DynamicProperties.
Import Models Anthropic.

(** Whatever the caller put under [stop] and [metadata] goes to the vendor as
    it is, the first under [stop_sequences]. *)
Lemma TransformRequest_stop_request :
  TransformRequest stop_request !! "stop_sequences"
    = Some (VDynamic (DSlice [Some (DString "END"); None]))
  /\ TransformRequest stop_request !! "metadata"
     = Some (VMetadata (<["user_id" := Some (DString "u1")]> {["trace" := None]}))
  /\ TransformRequest stop_request !! "stop" = None.
Proof. unfold TransformRequest, stop_request; cbn; repeat split; by simplify_map_eq. Qed.

End DynamicProperties.

(** ** The rate limiter *)

Section RateLimitProperties.
Import RateLimit.

Lemma Sub_small (t u : Time.Time) :
  Go.min_int64 <= Time.unixNano t - Time.unixNano u <= Go.max_int64 ->
  Sub t u = Time.unixNano t - Time.unixNano u.
Proof.
  intros Hr. unfold Sub. cbv zeta.
  destruct (Z.ltb_spec (Time.unixNano t - Time.unixNano u) Go.min_int64); [lia|].
  destruct (Z.ltb_spec Go.max_int64 (Time.unixNano t - Time.unixNano u)); lia.
Qed.

Lemma Sub_mono (t t' u : Time.Time) :
  Time.unixNano t <= Time.unixNano t' -> Sub t u <= Sub t' u.
Proof.
  intros Hle. unfold Sub. cbv zeta.
  unfold Go.min_int64, Go.max_int64.
  repeat match goal with |- context [Z.ltb ?a ?b] => destruct (Z.ltb_spec a b) end; lia.
Qed.

Lemma Sub_nonneg (t u : Time.Time) :
  Time.unixNano u <= Time.unixNano t -> 0 <= Sub t u.
Proof.
  intros Hle. unfold Sub. cbv zeta.
  unfold Go.min_int64, Go.max_int64.
  repeat match goal with |- context [Z.ltb ?a ?b] => destruct (Z.ltb_spec a b) end; lia.
Qed.

Lemma int_add_small (a b : Z) :
  Go.in_int64 (a + b) -> Go.int_add a b = a + b.
Proof.
  unfold Go.in_int64, Go.int_add, Go.wrap64, Go.min_int64, Go.max_int64. intros Hr.
  rewrite Z.mod_small; lia.
Qed.

Lemma Allow_rate (rl : RateLimiter) now ip :
  rate (snd (Allow rl now ip)) = rate rl /\ window (snd (Allow rl now ip)) = window rl.
Proof.
  unfold Allow. destruct (visitors rl !! ip) as [v|]; [|done].
  repeat match goal with |- context [if ?b then _ else _] => destruct b end; done.
Qed.

(** A call for one address leaves the visitors of the others as they are. *)
Lemma Allow_other (rl : RateLimiter) now ip ip' :
  ip' <> ip -> visitors (snd (Allow rl now ip')) !! ip = visitors rl !! ip.
Proof.
  intros Hne. unfold Allow. destruct (visitors rl !! ip') as [v|].
  - repeat match goal with |- context [if ?b then _ else _] => destruct b end;
      cbn [snd setVisitors visitors];
      rewrite ?lookup_insert_ne by done; rewrite ?lookup_delete_ne by done; done.
  - cbn [snd setVisitors visitors]. by rewrite lookup_insert_ne.
Qed.

Lemma Allow_unknown (rl : RateLimiter) now ip :
  visitors rl !! ip = None ->
  fst (Allow rl now ip) = true /\
  visitors (snd (Allow rl now ip)) !! ip
    = Some {| count := 1; lastSeen := now; windowStart := now |}.
Proof.
  intros Hn. unfold Allow. rewrite Hn. cbn [fst snd setVisitors visitors].
  by rewrite lookup_insert_eq.
Qed.

(** Inside a window the call counts the request, or refuses it. *)
Lemma Allow_inside (rl : RateLimiter) now ip v :
  visitors rl !! ip = Some v ->
  Time.unixNano (windowStart v) <= Time.unixNano (lastSeen v) ->
  Time.unixNano (lastSeen v) <= Time.unixNano now ->
  Time.unixNano now < Time.unixNano (windowStart v) + window rl ->
  window rl <= Time.Minute ->
  Go.in_int64 (rate rl) -> 1 <= count v ->
  exists ok,
    fst (Allow rl now ip) = ok /\
    visitors (snd (Allow rl now ip)) !! ip
      = Some {| count := (if ok then count v + 1 else count v); lastSeen := now;
                windowStart := windowStart v |} /\
    (ok = true <-> count v < rate rl).
Proof.
  intros Hv Hws Hls Hnow Hw Hr Hc. unfold Allow. rewrite Hv.
  assert (HM : Time.Minute = 60000000000) by reflexivity.
  rewrite (Sub_small now (lastSeen v))
    by (unfold Go.min_int64, Go.max_int64; lia).
  rewrite (Sub_small now (windowStart v))
    by (unfold Go.min_int64, Go.max_int64; lia).
  destruct (Z.ltb_spec Time.Minute (Time.unixNano now - Time.unixNano (lastSeen v))); [lia|].
  destruct (Z.leb_spec (window rl) (Time.unixNano now - Time.unixNano (windowStart v))); [lia|].
  destruct (Z.leb_spec (rate rl) (count v)).
  - exists false. cbn [fst snd setVisitors visitors]. rewrite lookup_insert_eq.
    split; [done|]. split; [done|]. split; [discriminate|lia].
  - exists true. cbn [fst snd setVisitors visitors]. rewrite lookup_insert_eq.
    rewrite int_add_small
      by (unfold Go.in_int64, Go.min_int64, Go.max_int64 in *; lia).
    split; [done|]. split; [done|]. split; [lia|done].
Qed.

Lemma allowedFor_inside (ip : string) (requests : list (Time.Time * string)) :
  forall (rl : RateLimiter) (v : Visitor) (lo hi : Z),
    visitors rl !! ip = Some v ->
    Time.unixNano (windowStart v) <= Time.unixNano (lastSeen v) ->
    Time.unixNano (lastSeen v) <= lo ->
    hi <= Time.unixNano (windowStart v) + window rl ->
    window rl <= Time.Minute ->
    Go.in_int64 (rate rl) -> 1 <= count v ->
    paced ip lo hi requests = true ->
    count v + Z.of_nat (allowedFor ip rl requests) <= Z.max (count v) (rate rl).
Proof.
  induction requests as [|[now ip'] rest IH]; intros rl v lo hi Hv Hws Hls Hhi Hw Hr Hc Hp.
  - cbn. lia.
  - cbn [allowedFor paced] in *.
    destruct (Allow_rate rl now ip') as [Hrate Hwin].
    destruct (Allow rl now ip') as [ok rl1] eqn:EA. cbn [snd] in Hrate, Hwin.
    destruct (String.eqb_spec ip' ip) as [->|Hne].
    + apply andb_prop in Hp as [Hp Hrest]. apply andb_prop in Hp as [Hlo Hnow].
      apply Z.leb_le in Hlo. apply Z.ltb_lt in Hnow.
      destruct (Allow_inside rl now ip v Hv Hws) as (ok' & Hok & Hv1 & Hiff);
        [lia|lia|done|done|done|].
      rewrite EA in Hok, Hv1. cbn [fst snd] in Hok, Hv1. subst ok'.
      specialize (IH rl1 _ (Time.unixNano now) hi Hv1).
      cbn [count lastSeen windowStart] in IH. rewrite Hrate, Hwin in IH.
      destruct ok; cbn [andb].
      * assert (count v < rate rl) by (by apply Hiff).
        specialize (IH ltac:(lia) ltac:(lia) ltac:(lia) Hw Hr ltac:(lia) Hrest). lia.
      * specialize (IH ltac:(lia) ltac:(lia) ltac:(lia) Hw Hr ltac:(lia) Hrest). lia.
    + rewrite andb_false_r.
      pose proof (Allow_other rl now ip ip' Hne) as Ho. rewrite EA in Ho. cbn [snd] in Ho.
      rewrite Hv in Ho.
      specialize (IH rl1 v lo hi Ho Hws Hls). rewrite Hrate, Hwin in IH.
      specialize (IH Hhi Hw Hr Hc Hp). lia.
Qed.

(** X1. An address the limiter does not know yet, whose requests come at
    instants that do not decrease and all lie within one window length of
    [t0], gets at most [max 1 rate] of them through, whatever the requests of
    other addresses in between. *)
Theorem rate_limit_window_bound (rl : RateLimiter) (ip : string) (t0 : Z)
    (requests : list (Time.Time * string)) :
  visitors rl !! ip = None ->
  window rl <= Time.Minute ->
  Go.in_int64 (rate rl) ->
  paced ip t0 (t0 + window rl) requests = true ->
  Z.of_nat (allowedFor ip rl requests) <= Z.max 1 (rate rl).
Proof.
  revert rl t0. induction requests as [|[now ip'] rest IH]; intros rl t0 Hv Hw Hr Hp.
  - cbn. lia.
  - cbn [allowedFor paced] in *.
    destruct (Allow_rate rl now ip') as [Hrate Hwin].
    destruct (String.eqb_spec ip' ip) as [->|Hne].
    + apply andb_prop in Hp as [Hp Hrest]. apply andb_prop in Hp as [Hlo Hnow].
      apply Z.leb_le in Hlo. apply Z.ltb_lt in Hnow.
      destruct (Allow_unknown rl now ip Hv) as [Hok Hv1].
      destruct (Allow rl now ip) as [ok rl1]. cbn [fst snd] in *. subst ok. cbn [andb].
      pose proof (allowedFor_inside ip rest rl1 _ (Time.unixNano now) (t0 + window rl) Hv1) as HI.
      cbn [count lastSeen windowStart] in HI. rewrite Hrate, Hwin in HI.
      specialize (HI ltac:(lia) ltac:(lia) ltac:(lia) Hw Hr ltac:(lia) Hrest). lia.
    + pose proof (Allow_other rl now ip ip' Hne) as Ho.
      destruct (Allow rl now ip') as [ok rl1]. cbn [snd] in *.
      rewrite andb_false_r. rewrite Hv in Ho.
      specialize (IH rl1 t0 Ho). rewrite Hrate, Hwin in IH.
      specialize (IH Hw Hr Hp). lia.
Qed.

Lemma Allow_countsBounded (rl : RateLimiter) now ip :
  Go.in_int64 (rate rl) -> countsBounded rl -> countsBounded (snd (Allow rl now ip)).
Proof.
  intros Hr Hb ip' v'. destruct (decide (ip' = ip)) as [->|Hne].
  - unfold Allow. destruct (visitors rl !! ip) as [v|] eqn:Hv.
    + specialize (Hb ip v Hv).
      destruct (Time.Minute <? Sub now (lastSeen v));
        [|destruct (window rl <=? Sub now (windowStart v));
          [|destruct (Z.leb_spec (rate rl) (count v))]];
        cbn [snd setVisitors visitors rate]; rewrite lookup_insert_eq;
        intros [= <-]; cbn [count]; try lia.
      rewrite int_add_small
        by (unfold Go.in_int64, Go.min_int64, Go.max_int64 in *; lia). lia.
    + cbn [snd setVisitors visitors rate]. rewrite lookup_insert_eq.
      intros [= <-]; cbn [count]; lia.
  - destruct (Allow_rate rl now ip) as [-> _].
    rewrite (Allow_other rl now ip' ip) by done. apply Hb.
Qed.

Lemma serve_countsBounded (requests : list (Time.Time * string)) :
  forall rl, Go.in_int64 (rate rl) -> countsBounded rl ->
    countsBounded (snd (serve rl requests)) /\ rate (snd (serve rl requests)) = rate rl.
Proof.
  induction requests as [|[now ip] rest IH]; intros rl Hr Hb; [done|].
  cbn [serve].
  pose proof (Allow_countsBounded rl now ip Hr Hb) as Hb1.
  destruct (Allow_rate rl now ip) as [Hrate _].
  destruct (Allow rl now ip) as [ok rl1]. cbn [snd] in *.
  specialize (IH rl1). rewrite Hrate in IH. specialize (IH Hr Hb1).
  destruct (serve rl1 rest) as [oks rl2]. cbn [snd] in *.
  destruct IH as [IH1 IH2]. split; [|congruence]. done.
Qed.

(** X2. Whatever requests a new limiter has served, the count it keeps for
    an address is at least 1 and at most [max 1 rate]: the increment never
    passes the rate, and never wraps. *)
Theorem visitor_count_bounds (requestsPerSecond : Z) (requests : list (Time.Time * string))
    (ip : string) (v : Visitor) :
  Go.in_int64 requestsPerSecond ->
  visitors (snd (serve (NewRateLimiter requestsPerSecond) requests)) !! ip = Some v ->
  1 <= count v <= Z.max 1 requestsPerSecond.
Proof.
  intros Hr Hv.
  destruct (serve_countsBounded requests (NewRateLimiter requestsPerSecond) Hr) as [Hb Hrate].
  - intros ip' v' Hl. cbn in Hl. by rewrite lookup_empty in Hl.
  - specialize (Hb ip v Hv). rewrite Hrate in Hb. exact Hb.
Qed.

Lemma idle_later (tc now : Time.Time) (v : Visitor) :
  Time.unixNano tc <= Time.unixNano now ->
  idle tc v = true -> (Time.Minute <? Sub now (lastSeen v)) = true.
Proof.
  intros Hle Hi. unfold idle in Hi. apply Z.ltb_lt in Hi. apply Z.ltb_lt.
  pose proof (Sub_mono tc now (lastSeen v) Hle).
  assert (Time.Minute = 60000000000) by reflexivity. lia.
Qed.

Lemma fresh_not_idle (tc now : Time.Time) (v : Visitor) :
  Time.unixNano tc <= Time.unixNano now -> lastSeen v = now -> idle tc v = false.
Proof.
  intros Hle Hl. unfold idle. rewrite Hl. apply Z.ltb_ge.
  unfold Sub. cbv zeta. unfold Go.min_int64, Go.max_int64.
  assert (Time.Minute = 60000000000) by reflexivity.
  repeat match goal with |- context [Z.ltb ?a ?b] => destruct (Z.ltb_spec a b) end; lia.
Qed.

Lemma cleanup_insert (rl : RateLimiter) (tc now : Time.Time) ip v :
  Time.unixNano tc <= Time.unixNano now -> lastSeen v = now ->
  cleanup (setVisitors rl (<[ip := v]> (visitors rl))) tc
  = setVisitors (cleanup rl tc) (<[ip := v]> (visitors (cleanup rl tc))).
Proof.
  intros Hle Hl. unfold cleanup, setVisitors. cbn [visitors rate window]. f_equal.
  rewrite map_filter_insert_True; [done|].
  cbn [snd]. by apply (fresh_not_idle tc now).
Qed.

(** Sweeping before a call or after it comes to the same. *)
Lemma Allow_cleanup (rl : RateLimiter) (tc now : Time.Time) (ip : string) :
  Time.unixNano tc <= Time.unixNano now ->
  Allow (cleanup rl tc) now ip
  = (fst (Allow rl now ip), cleanup (snd (Allow rl now ip)) tc).
Proof.
  intros Hle. unfold Allow at 1.
  cbn [cleanup setVisitors visitors rate window].
  destruct (filter _ (visitors rl) !! ip) as [v|] eqn:Hf.
  - apply map_lookup_filter_Some in Hf as [Hv Hni]. cbn [snd] in Hni.
    unfold Allow. rewrite Hv.
    destruct (Time.Minute <? Sub now (lastSeen v));
      [|destruct (window rl <=? Sub now (windowStart v));
        [|destruct (rate rl <=? count v)]];
      cbn [fst snd]; f_equal.
    + rewrite <- map_filter_delete.
      unfold cleanup, setVisitors. cbn [visitors rate window]. f_equal.
      rewrite map_filter_insert_True; [done|].
      cbn [snd]. by apply (fresh_not_idle tc now).
    + by rewrite (cleanup_insert rl tc now).
    + by rewrite (cleanup_insert rl tc now).
    + by rewrite (cleanup_insert rl tc now).
  - unfold Allow. destruct (visitors rl !! ip) as [v|] eqn:Hv.
    + assert (Hi : idle tc v = true).
      { destruct (idle tc v) eqn:E; [done|].
        assert (filter (fun entry => idle tc (snd entry) = false) (visitors rl) !! ip = Some v)
          by (apply map_lookup_filter_Some; done).
        congruence. }
      rewrite (idle_later tc now v Hle Hi). cbn [fst snd]. f_equal.
      unfold cleanup, setVisitors. cbn [visitors rate window]. f_equal.
      rewrite map_filter_insert_True by (cbn [snd]; by apply (fresh_not_idle tc now)).
      rewrite map_filter_delete. by rewrite insert_delete_eq.
    + cbn [fst snd]. f_equal. by rewrite (cleanup_insert rl tc now).
Qed.

(** X3. A tick of the cleanup changes no decision: the requests served after
    it are answered as they would have been without it. *)
Theorem cleanup_changes_no_decision (rl : RateLimiter) (tc : Time.Time)
    (requests : list (Time.Time * string)) :
  notBefore tc requests ->
  fst (serve (cleanup rl tc) requests) = fst (serve rl requests).
Proof.
  revert rl. induction requests as [|[now ip] rest IH]; intros rl Hnb; [done|].
  apply Forall_cons in Hnb as [Hle Hnb]. cbn [fst] in Hle.
  cbn [serve]. rewrite (Allow_cleanup rl tc now ip Hle).
  destruct (Allow rl now ip) as [ok rl1]. cbn [fst snd].
  specialize (IH rl1 Hnb).
  destruct (serve (cleanup rl1 tc) rest) as [oks rl2].
  destruct (serve rl1 rest) as [oks' rl2']. cbn [fst] in *. by subst.
Qed.

End RateLimitProperties.

Section RateLimitWitnesses.
Import RateLimit.

Lemma rate_limit_window_bound_witness :
  paced "10.0.0.1" 0 (0 + window (NewRateLimiter 2)) burst = true
  /\ Z.of_nat (allowedFor "10.0.0.1" (NewRateLimiter 2) burst) <= Z.max 1 2.
Proof.
  split; [reflexivity|].
  apply (rate_limit_window_bound (NewRateLimiter 2) "10.0.0.1" 0 burst);
    [ reflexivity | vm_compute; discriminate | split; vm_compute; discriminate | reflexivity ].
Defined.

Lemma visitor_count_bounds_witness :
  visitors (snd (serve (NewRateLimiter 2) burst)) !! "10.0.0.1"
    = Some {| count := 2; lastSeen := clock 400; windowStart := clock 0 |}
  /\ 1 <= 2 <= Z.max 1 2.
Proof.
  split; [reflexivity|].
  apply (visitor_count_bounds 2 burst "10.0.0.1"
           {| count := 2; lastSeen := clock 400; windowStart := clock 0 |});
    [ split; vm_compute; discriminate | reflexivity ].
Defined.

Lemma cleanup_changes_no_decision_witness :
  notBefore (clock (6 * Time.Minute)) later_requests
  /\ fst (serve (cleanup (snd (serve (NewRateLimiter 2) burst)) (clock (6 * Time.Minute)))
            later_requests)
     = [true; true; true; true].
Proof.
  split; [repeat constructor; vm_compute; discriminate|].
  rewrite (cleanup_changes_no_decision (snd (serve (NewRateLimiter 2) burst))
             (clock (6 * Time.Minute)) later_requests);
    [ reflexivity | repeat constructor; vm_compute; discriminate ].
Defined.

(** Of the four requests of the burst, two pass at a rate of two. *)
Example burst_decisions :
  fst (serve (NewRateLimiter 2) burst) = [true; true; true; false; false]
  /\ fst (serve (NewRateLimiter 0) burst) = [true; true; false; false; false].
Proof. split; reflexivity. Qed.

(** The cleanup drops the visitors of the burst. *)
Example cleanup_drops_idle :
  visitors (cleanup (snd (serve (NewRateLimiter 2) burst)) (clock (6 * Time.Minute))) = ∅.
Proof. reflexivity. Qed.

End RateLimitWitnesses.

(** ** Decimal parameters and pagination *)

Section PaginationProperties.
Import Strconv Gin Middleware.

Lemma read_digits_uint_end (u : Decimal.uint) :
  JSON.read_digits (NilEmpty.string_of_uint u) = (u, EmptyString).
Proof.
  induction u; cbn [NilEmpty.string_of_uint]; [reflexivity|..];
    rewrite read_digits_cons; cbn [JSON.digit_of nat_of_ascii]; rewrite IHu; reflexivity.
Qed.

Lemma wrap64_small (z : Z) : Go.in_int64 z -> Go.wrap64 z = z.
Proof.
  unfold Go.in_int64, Go.wrap64, Go.min_int64, Go.max_int64. intros Hr.
  rewrite Z.mod_small; lia.
Qed.

(** [Atoi] reads back what [Itoa] writes. *)
Lemma Atoi_Itoa (z : Z) : Go.in_int64 z -> Atoi (JSON.Itoa z) = Some z.
Proof.
  intros Hr. unfold JSON.Itoa. destruct z as [|p|p]; cbn [Z.to_int NilEmpty.string_of_int].
  - reflexivity.
  - destruct (uint_head (Pos.to_uint p) (Unsigned.to_uint_nonnil p)) as (d & r & Ehead & Hdig).
    unfold Atoi. rewrite Ehead.
    assert (Hm : Ascii.eqb d "-" = false)
      by (destruct (Ascii.eqb_spec d "-") as [->|]; [discriminate Hdig | reflexivity]).
    assert (Hp : Ascii.eqb d "+" = false)
      by (destruct (Ascii.eqb_spec d "+") as [->|]; [discriminate Hdig | reflexivity]).
    rewrite Hm, Hp, <- Ehead, read_digits_uint_end.
    pose proof (DecimalZ.of_to (Z.pos p)) as Hof. cbn [Z.to_int Z.of_int] in Hof.
    destruct (Pos.to_uint p) as [| u | u | u | u | u | u | u | u | u | u] eqn:Eu;
      [ destruct (Unsigned.to_uint_nonnil p Eu) | .. ];
      rewrite Hof;
      unfold Go.in_int64 in Hr;
      (destruct (Z.leb_spec Go.min_int64 (Z.pos p)); [|lia]);
      (destruct (Z.leb_spec (Z.pos p) Go.max_int64); [|lia]); reflexivity.
  - unfold Atoi. change (Ascii.eqb "-" "-") with true. cbv iota.
    rewrite read_digits_uint_end.
    pose proof (DecimalZ.of_to (Z.neg p)) as Hof. cbn [Z.to_int Z.of_int] in Hof.
    destruct (Pos.to_uint p) as [| u | u | u | u | u | u | u | u | u | u] eqn:Eu;
      [ destruct (Unsigned.to_uint_nonnil p Eu) | .. ];
      rewrite Hof;
      unfold Go.in_int64 in Hr;
      (destruct (Z.leb_spec Go.min_int64 (Z.neg p)); [|lia]);
      (destruct (Z.leb_spec (Z.neg p) Go.max_int64); [|lia]); reflexivity.
Qed.

Lemma Atoi_range (s : string) (z : Z) : Atoi s = Some z -> Go.in_int64 z.
Proof.
  unfold Atoi.
  destruct (match s with
            | EmptyString => (false, s)
            | String c r => if Ascii.eqb c "-" then (true, r)
                            else if Ascii.eqb c "+" then (false, r) else (false, s)
            end) as [neg digits].
  destruct (JSON.read_digits digits) as [u rest].
  destruct u; [discriminate|..]; (destruct rest; [|discriminate]);
    match goal with
    | |- context [Z.leb Go.min_int64 ?n] =>
        destruct (Z.leb_spec Go.min_int64 n); [|discriminate];
        destruct (Z.leb_spec n Go.max_int64); [|discriminate]
    end; intros [= <-]; split; assumption.
Qed.

Lemma page_bounds (c : Context) :
  1 <= page (PaginationMiddleware c) <= Go.max_int64.
Proof.
  unfold PaginationMiddleware. cbn [page].
  assert (Hmax : 1 <= Go.max_int64) by (unfold Go.max_int64; lia).
  destruct (negb (String.eqb (Query c "page") "")); [|lia].
  destruct (Atoi (Query c "page")) as [parsed|] eqn:E; [|lia].
  apply Atoi_range in E. destruct E as [_ E].
  destruct (Z.ltb_spec 0 parsed); lia.
Qed.

Lemma limit_bounds (c : Context) :
  1 <= limit (PaginationMiddleware c) <= 100.
Proof.
  unfold PaginationMiddleware. cbn [limit].
  destruct (negb (String.eqb (Query c "limit") "")); [|lia].
  destruct (Atoi (Query c "limit")) as [parsed|]; [|lia].
  destruct (Z.ltb_spec 0 parsed); destruct (Z.leb_spec parsed 100); cbn [andb]; lia.
Qed.

Lemma offset_eq (c : Context) :
  offset (PaginationMiddleware c)
  = Go.wrap64 ((page (PaginationMiddleware c) - 1) * limit (PaginationMiddleware c)).
Proof.
  pose proof (page_bounds c) as Hp.
  unfold PaginationMiddleware in *. cbn [page limit offset] in *.
  rewrite (wrap64_small (_ - 1)); [reflexivity|].
  unfold Go.in_int64, Go.min_int64, Go.max_int64 in *. lia.
Qed.

(** X4. Whatever the query of the request, the page is at least 1, the limit
    lies between 1 and 100, and the offset is [(page - 1) * limit] in Go's
    wrapping arithmetic. *)
Theorem pagination_bounds (c : Context) :
  1 <= page (PaginationMiddleware c) <= Go.max_int64
  /\ 1 <= limit (PaginationMiddleware c) <= 100
  /\ offset (PaginationMiddleware c)
     = Go.wrap64 ((page (PaginationMiddleware c) - 1) * limit (PaginationMiddleware c)).
Proof. split; [apply page_bounds | split; [apply limit_bounds | apply offset_eq]]. Qed.

(** X5. For a page of at most 92233720368547758 the offset is exactly
    [(page - 1) * limit]: not negative, and a multiple of the limit. *)
Theorem pagination_offset_exact (c : Context) :
  page (PaginationMiddleware c) <= 92233720368547758 ->
  offset (PaginationMiddleware c)
    = (page (PaginationMiddleware c) - 1) * limit (PaginationMiddleware c)
  /\ 0 <= offset (PaginationMiddleware c).
Proof.
  intros Hle. rewrite offset_eq.
  pose proof (page_bounds c) as Hp. pose proof (limit_bounds c) as Hl.
  rewrite wrap64_small; [split; [reflexivity | nia]|].
  unfold Go.in_int64, Go.min_int64, Go.max_int64 in *. nia.
Qed.

(** X6. A page and a limit written in decimal, the page positive and the
    limit between 1 and 100, are taken as written. *)
Theorem pagination_reads_decimal (c : Context) (p l : Z) :
  Query c "page" = JSON.Itoa p -> Query c "limit" = JSON.Itoa l ->
  1 <= p <= Go.max_int64 -> 1 <= l <= 100 ->
  PaginationMiddleware c
  = {| page := p; limit := l; offset := Go.wrap64 ((p - 1) * l) |}.
Proof.
  intros Hqp Hql Hp Hl.
  assert (Hrp : Go.in_int64 p) by (unfold Go.in_int64, Go.min_int64, Go.max_int64 in *; lia).
  assert (Hrl : Go.in_int64 l) by (unfold Go.in_int64, Go.min_int64, Go.max_int64 in *; lia).
  assert (Hnp : String.eqb (JSON.Itoa p) "" = false).
  { destruct (Itoa_head p) as (d & r & -> & _). reflexivity. }
  assert (Hnl : String.eqb (JSON.Itoa l) "" = false).
  { destruct (Itoa_head l) as (d & r & -> & _). reflexivity. }
  unfold PaginationMiddleware. rewrite Hqp, Hql, Hnp, Hnl. cbn [negb].
  rewrite (Atoi_Itoa p Hrp), (Atoi_Itoa l Hrl).
  destruct (Z.ltb_spec 0 p); [|lia].
  destruct (Z.ltb_spec 0 l); [|lia].
  destruct (Z.leb_spec l 100); [|lia]. cbn [andb].
  rewrite (wrap64_small (p - 1))
    by (unfold Go.in_int64, Go.min_int64, Go.max_int64 in *; lia).
  reflexivity.
Qed.

End PaginationProperties.

(** ** The credential of a request and the answers of the handler *)

Section HandlerProperties.
Import Gin Handlers Models.

Lemma HasPrefix_split (s p : string) :
  Strings.HasPrefix s p = true -> s = p +:+ Strings.drop (String.length p) s.
Proof.
  revert s. induction p as [|c p IH]; intros s Hp; [reflexivity|].
  destruct s as [|d s]; [discriminate Hp|]. cbn [Strings.HasPrefix] in Hp.
  apply andb_prop in Hp as [Hc Hp]. apply Ascii.eqb_eq in Hc. subst d.
  rewrite append_cons. cbn [String.length Strings.drop]. f_equal. by apply IH.
Qed.

Lemma drop_app (p r : string) : Strings.drop (String.length p) (p +:+ r) = r.
Proof. induction p as [|c p IH]; [by destruct r | rewrite append_cons; exact IH]. Qed.

Lemma TrimPrefix_app (p r : string) : Strings.TrimPrefix (p +:+ r) p = r.
Proof. unfold Strings.TrimPrefix. by rewrite HasPrefix_self_app, drop_app. Qed.

(** X7. A request whose Authorization field is "Bearer " followed by a key
    is read as carrying that key, whatever its x-api-key field and its query
    say. *)
Theorem extractAPIKey_bearer_first (c : Context) (key : string) :
  GetHeader c "Authorization" = "Bearer " +:+ key ->
  extractAPIKey c = key.
Proof.
  intros Ha. unfold extractAPIKey. rewrite Ha.
  rewrite (HasPrefix_self_app "Bearer " key), (TrimPrefix_app "Bearer " key).
  reflexivity.
Qed.

(** X8. The request counts as carrying no key exactly when its Authorization
    field is the bare "Bearer " prefix, or when that field does not start
    with the prefix and both the x-api-key field and the api_key parameter
    are empty or absent. *)
Theorem extractAPIKey_empty_iff (c : Context) :
  extractAPIKey c = ""
  <-> GetHeader c "Authorization" = "Bearer "
      \/ (Strings.HasPrefix (GetHeader c "Authorization") "Bearer " = false
          /\ GetHeader c "x-api-key" = "" /\ Query c "api_key" = "").
Proof.
  unfold extractAPIKey.
  destruct (Strings.HasPrefix (GetHeader c "Authorization") "Bearer ") eqn:Hp.
  - assert (Hne : String.eqb (GetHeader c "Authorization") "" = false).
    { destruct (GetHeader c "Authorization"); [discriminate Hp | reflexivity]. }
    rewrite Hne. cbn [negb andb].
    pose proof (HasPrefix_split _ _ Hp) as Hs.
    unfold Strings.TrimPrefix. rewrite Hp. split.
    + intros E. left. rewrite Hs, E. reflexivity.
    + intros [E | [E _]]; [|discriminate E]. rewrite E. reflexivity.
  - rewrite andb_false_r. split.
    + intros E. right. split; [reflexivity|].
      destruct (String.eqb_spec (GetHeader c "x-api-key") "") as [Hk|Hk]; cbn [negb] in E.
      * by split.
      * congruence.
    + intros [E | (_ & Hk & Hq)].
      * rewrite E in Hp. discriminate Hp.
      * rewrite Hk. cbn [String.eqb negb]. exact Hq.
Qed.

Section Admission.
Context {S : Type}.
Variable regular : LLMRequestContext -> ChatCompletionRequest
                   -> ChatCompletionResponse + Service.ServiceError.
Variable streaming : LLMRequestContext -> ChatCompletionRequest -> S.

(** X9. A request the quota check refuses is answered 401 with the type
    authentication_error, and a message that says which limit was exceeded;
    it is not answered 429. *)
Theorem quota_refusal_is_answered_401 (c : Context) (cache : Cache.CacheService)
    (db : LLM.Store) (now : Time.Time) (cause : string)
    (bound : ChatCompletionRequest + string) :
  extractAPIKey c <> "" ->
  LLM.QuotaExceeded (fst (LLM.ValidateAPIKeyOptimized cache db now (extractAPIKey c))) = true ->
  exists text,
    fst (ChatCompletion regular streaming c cache db now cause bound)
    = Failure {| statusCode := 401; errorType := "authentication_error"; message := text |}
    /\ Strings.Contains text "limit exceeded" = true.
Proof.
  intros Hk Hq. unfold ChatCompletion.
  destruct (String.eqb_spec (extractAPIKey c) "") as [E|_]; [contradiction|].
  destruct (LLM.ValidateAPIKeyOptimized cache db now (extractAPIKey c)) as [[ctx|err] cache1];
    cbn [fst] in *; [discriminate Hq|].
  destruct err; try discriminate Hq; eexists; (split; [reflexivity|]); reflexivity.
Qed.

End Admission.

Lemma Contains_app_l (a b sub : string) :
  Strings.Contains a sub = true -> Strings.Contains (a +:+ b) sub = true.
Proof.
  induction a as [|c a IH]; intros Ha.
  - destruct sub; [destruct b; reflexivity | discriminate Ha].
  - rewrite append_cons, Contains_unfold. rewrite Contains_unfold in Ha.
    apply orb_true_iff in Ha as [Ha|Ha].
    + apply orb_true_iff. left.
      apply HasPrefix_split in Ha. rewrite <- append_cons.
      remember (Strings.drop (String.length sub) (String c a)) as d.
      rewrite Ha, append_assoc. apply HasPrefix_self_app.
    + rewrite (IH Ha). apply orb_true_r.
Qed.

End HandlerProperties.

(** ** The format of the Authorization field *)

Section AuthProperties.
Import Gin Middleware.

Lemma Contains_space_cons (c : ascii) (r : string) :
  Strings.Contains (String c r) " " = Ascii.eqb c " " || Strings.Contains r " ".
Proof.
  rewrite Contains_unfold. cbn [Strings.HasPrefix]. by rewrite HasPrefix_empty, andb_true_r.
Qed.

Lemma split_space_cons (cur : string) (c : ascii) (r : string) :
  Strings.split_from " " 0 cur (String c r)
  = if Ascii.eqb c " " then cur :: Strings.split_from " " 0 EmptyString r
    else Strings.split_from " " 0 (cur +:+ String c EmptyString) r.
Proof.
  rewrite split_from_cons. cbn [Strings.HasPrefix]. by rewrite HasPrefix_empty, andb_true_r.
Qed.

Lemma split_space_plain (s cur : string) :
  Strings.Contains s " " = false -> Strings.split_from " " 0 cur s = [cur +:+ s].
Proof.
  revert cur. induction s as [|c r IH]; intros cur Hs.
  - cbn. by rewrite append_nil_r.
  - rewrite Contains_space_cons in Hs. apply orb_false_iff in Hs as [Hc Hr].
    rewrite split_space_cons, Hc, (IH _ Hr), append_assoc. reflexivity.
Qed.

Lemma split_space_app (a b cur : string) :
  Strings.Contains a " " = false ->
  Strings.split_from " " 0 cur (a +:+ String " " b)
  = (cur +:+ a) :: Strings.split_from " " 0 EmptyString b.
Proof.
  revert cur. induction a as [|c r IH]; intros cur Ha.
  - rewrite append_nil_l, split_space_cons, append_nil_r. reflexivity.
  - rewrite Contains_space_cons in Ha. apply orb_false_iff in Ha as [Hc Hr].
    rewrite append_cons, split_space_cons, Hc, (IH _ Hr), append_assoc. reflexivity.
Qed.

Lemma split_space_nonempty (s cur : string) : Strings.split_from " " 0 cur s <> [].
Proof.
  revert cur. induction s as [|c r IH]; intros cur; [discriminate|].
  rewrite split_space_cons. destruct (Ascii.eqb c " "); [discriminate | apply IH].
Qed.

Lemma split_space_one (s cur x : string) :
  Strings.split_from " " 0 cur s = [x] -> Strings.Contains s " " = false /\ x = cur +:+ s.
Proof.
  revert cur. induction s as [|c r IH]; intros cur Hs.
  - cbn in Hs. injection Hs as <-. by rewrite append_nil_r.
  - rewrite split_space_cons in Hs. rewrite Contains_space_cons.
    destruct (Ascii.eqb c " ").
    + injection Hs as _ Hs. by destruct (split_space_nonempty r EmptyString).
    + destruct (IH _ Hs) as [Hr ->]. by rewrite append_assoc.
Qed.

Lemma split_space_two (s cur x y : string) :
  Strings.split_from " " 0 cur s = [x; y] ->
  exists a, s = a +:+ String " " y /\ x = cur +:+ a
            /\ Strings.Contains a " " = false /\ Strings.Contains y " " = false.
Proof.
  revert cur. induction s as [|c r IH]; intros cur Hs; [discriminate Hs|].
  rewrite split_space_cons in Hs. destruct (Ascii.eqb_spec c " ") as [->|Hc].
  - injection Hs as <- Hs. apply split_space_one in Hs as [Hr ->].
    exists EmptyString. by rewrite append_nil_r.
  - destruct (IH _ Hs) as (a & -> & -> & Ha & Hy).
    exists (String c a). rewrite append_assoc, append_cons, Contains_space_cons.
    apply Ascii.eqb_neq in Hc. by rewrite Hc.
Qed.

Section Middleware.
Variable jwtParse : string -> string -> Parsed.
Variable uintOf : float -> Z.

(** X22. The middleware refuses a request for the format of its
    Authorization field exactly when the field is not empty and is not
    "Bearer ", in this very case, followed by a token without a space. *)
Theorem AuthMiddleware_format (jwtSecret : string) (c : Context) :
  AuthMiddleware jwtParse uintOf jwtSecret c = Unauthorized "Invalid authorization format"
  <-> GetHeader c "Authorization" <> ""
      /\ forall tokenString,
           GetHeader c "Authorization" = "Bearer " +:+ tokenString ->
           Strings.Contains tokenString " " = true.
Proof.
  unfold AuthMiddleware. set (h := GetHeader c "Authorization").
  destruct (String.eqb_spec h "") as [He|He].
  - split; [discriminate | intros [Hne _]; contradiction].
  - destruct (Strings.Split h " ") as [|first [|tokenString [|third rest]]] eqn:Es.
    + by destruct (split_space_nonempty h EmptyString).
    + split; [intros _|reflexivity]. split; [exact He|]. intros tok Hh.
      apply split_space_one in Es as [Hs _]. rewrite Hh in Hs.
      change ("Bearer " +:+ tok) with ("Bearer" +:+ String " " tok) in Hs.
      rewrite (Contains_app "Bearer" (String " " tok) " ") in Hs; [discriminate Hs|].
      by rewrite Contains_space_cons.
    + apply split_space_two in Es as (a & Hh & Hfirst & Ha & Hy).
      rewrite append_nil_l in Hfirst. subst first.
      destruct (String.eqb_spec a "Bearer") as [->|Hne]; cbn [negb].
      * split.
        -- destruct (jwtParse jwtSecret tokenString) as [| |claims]; try discriminate.
           destruct (claims !! "user_id") as [[]|]; try discriminate.
           destruct (claims !! "username") as [[]|]; try discriminate.
           destruct (claims !! "role") as [[]|]; discriminate.
        -- intros [_ Hall]. specialize (Hall tokenString Hh). congruence.
      * split; [intros _|reflexivity]. split; [exact He|]. intros tok Hh2.
        destruct (Strings.Contains tok " ") eqn:Ht; [reflexivity|]. exfalso.
        assert (E : Strings.Split h " " = ["Bearer"; tok]).
        { unfold Strings.Split. rewrite Hh2.
          change ("Bearer " +:+ tok) with ("Bearer" +:+ String " " tok).
          rewrite split_space_app by reflexivity. by rewrite (split_space_plain tok). }
        unfold Strings.Split in E. rewrite Hh in E.
        rewrite split_space_app in E by exact Ha.
        rewrite (split_space_plain tokenString) in E by exact Hy.
        rewrite !append_nil_l in E. injection E as E _. contradiction.
    + split; [intros _|reflexivity]. split; [exact He|]. intros tok Hh.
      destruct (Strings.Contains tok " ") eqn:Ht; [reflexivity|]. exfalso.
      unfold Strings.Split in Es. rewrite Hh in Es.
      change ("Bearer " +:+ tok) with ("Bearer" +:+ String " " tok) in Es.
      rewrite split_space_app in Es by reflexivity.
      rewrite (split_space_plain tok) in Es by exact Ht. discriminate Es.
Qed.

End Middleware.

End AuthProperties.

Section AuthExamples.
Import Gin Middleware.

(** A second space, a lower-case scheme and a missing token are refused for
    their format; a bare "Bearer " goes on to the token library with an empty
    token. *)
Example AuthMiddleware_formats :
  let answer header :=
    AuthMiddleware (fun _ token => if String.eqb token "" then ParseInvalid else ParseNotMap)
      (fun _ => 0) "secret"
      {| Gin.header := {[ "Authorization" := header ]}; Gin.query := ∅ |} in
  answer "Bearer a b" = Unauthorized "Invalid authorization format"
  /\ answer "bearer abc" = Unauthorized "Invalid authorization format"
  /\ answer "Bearer" = Unauthorized "Invalid authorization format"
  /\ answer "Bearer " = Unauthorized "Invalid token"
  /\ answer "Bearer abc" = Unauthorized "Invalid token claims".
Proof. repeat split; reflexivity. Qed.

End AuthExamples.

(** ** The synchronous call and its accounting record *)

Section SyncProperties.
Import Models Anthropic LLM Adapter Service Handlers.

Variable Do : HTTPRequest -> HTTPResult.
Variable unmarshalResponse : string -> AnthropicResponse + string.

Lemma Contains_model_not_found (name : string) :
  Strings.Contains ("model not found: " +:+ name) "invalid" = Strings.Contains name "invalid"
  /\ Strings.Contains ("model not found: " +:+ name) "validation"
     = Strings.Contains name "validation"
  /\ Strings.Contains ("model not found: " +:+ name) "limit exceeded"
     = Strings.Contains name "limit exceeded"
  /\ Strings.Contains ("model not found: " +:+ name) "not found" = true.
Proof.
  split; [reflexivity | split; [reflexivity | split; reflexivity]].
Qed.

(** X11. When the store cannot be read, or holds no active row for the
    provider and the model named, the call writes no log row and sends the
    vendor nothing; the handler answers 404 with the type
    invalid_request_error, unless the model name itself contains one of the
    words the handler looks for first. *)
Theorem unknown_model_is_answered_404 (S : Type) (db : Store) (models : list ModelRow)
    (run : StoreRun) (provider : Provider) (ctx : LLMRequestContext)
    (req : ChatCompletionRequest) (logID : Z) (now : Time.Time) (unix latencyMs : Z) :
  available db = false
  \/ List.forallb (fun row => negb (resolves provider req row)) models = true ->
  Service.ChatCompletion Do unmarshalResponse db models run provider ctx req logID now unix
    latencyMs
  = (inr (ModelNotFound (Model req)), llm_request_logs db, [])
  /\ @handleRegularCompletion S (inr (ModelNotFound (Model req)))
     = Failure {| statusCode := fst (unknownModelStatus (Model req));
                  errorType := snd (unknownModelStatus (Model req));
                  message := "model not found: " +:+ Model req |}.
Proof.
  intros Hno. split.
  - unfold Service.ChatCompletion, GetModelByName.
    destruct Hno as [Hd | Hall]; [by rewrite Hd|].
    destruct (negb (available db)); [reflexivity|].
    destruct (List.find _ models) as [row|] eqn:Ef; [|reflexivity].
    apply List.find_some in Ef as [Hin Hm].
    rewrite List.forallb_forall in Hall. specialize (Hall row Hin).
    unfold resolves in Hall. rewrite Hm in Hall. discriminate Hall.
  - unfold handleRegularCompletion, unknownModelStatus. cbn [serviceErrorText].
    destruct (Contains_model_not_found (Model req)) as (-> & -> & -> & ->).
    destruct (Strings.Contains (Model req) "invalid" || Strings.Contains (Model req) "validation");
      [reflexivity|].
    destruct (Strings.Contains (Model req) "limit exceeded"); reflexivity.
Qed.

Lemma updateRow_fresh (logID : Z) (update : LLMRequestLog -> LLMRequestLog)
    (logs : list LLMRequestLog) (row : LLMRequestLog) :
  Forall (fun other => LogID other <> logID) logs -> LogID row = logID ->
  updateRow logID update (logs ++ [row]) = logs ++ [update row].
Proof.
  intros Hfresh Hid. unfold updateRow. rewrite List.map_app. cbn [List.map].
  rewrite Hid, Z.eqb_refl. f_equal.
  induction Hfresh as [|other rest Hne _ IH]; [reflexivity|].
  cbn [List.map]. rewrite IH. apply Z.eqb_neq in Hne. by rewrite Hne.
Qed.

(** X12. A synchronous call whose model resolves and whose statements the
    store carries out adds one row to the log and leaves it settled: marked
    completed, with status 200, the tokens of the response and the cost
    computed from them when the adapter succeeds, and marked failed, with
    status 500 and the text of the error, when it does not.  The rows of
    other calls are as before. *)
Theorem sync_call_settles_its_record (db : Store) (models : list ModelRow) (run : StoreRun)
    (provider : Provider) (ctx : LLMRequestContext) (req : ChatCompletionRequest)
    (logID : Z) (now : Time.Time) (unix latencyMs : Z) (model : LLMModel) :
  GetModelByName db models (ProviderRowID provider) (Model req) = inl model ->
  ProviderType provider = "anthropic" ->
  marshalError req = None ->
  createError run = None ->
  updateApplies run = true ->
  Forall (fun other => LogID other <> logID) (llm_request_logs db) ->
  exists row,
    snd (fst (Service.ChatCompletion Do unmarshalResponse db models run provider ctx req
                logID now unix latencyMs))
    = llm_request_logs db ++ [row]
    /\ LogID row = logID
    /\ match fst (fst (Service.ChatCompletion Do unmarshalResponse db models run provider
                         ctx req logID now unix latencyMs)) with
       | inl response =>
           LogStatus row = "completed" /\ HTTPStatus row = 200
           /\ LogInputTokens row = InputTokens (ResponseUsage response)
           /\ LogOutputTokens row = OutputTokens (ResponseUsage response)
           /\ LogTotalTokens row = TotalTokens (ResponseUsage response)
           /\ (LogInputCost row, LogOutputCost row, LogTotalCost row)
              = CalculateCost (ResponseUsage response) model
       | inr e =>
           LogStatus row = "failed" /\ HTTPStatus row = 500
           /\ ErrorMessage row = serviceErrorText e
           /\ LogTotalTokens row = 0
       end.
Proof.
  intros Hm Hp Hme Hc Hu Hfresh. unfold Service.ChatCompletion.
  rewrite Hm, Hp, Hme, Hc, Hu. cbn [providers String.eqb Ascii.eqb Bool.eqb].
  change (providers "anthropic") with (Some anthropicProvider). cbv iota.
  destruct (Adapter.ChatCompletion Do unmarshalResponse anthropicProvider unix ctx req)
    as [[response|e] out].
  - destruct (CalculateCost (ResponseUsage response) model) as [[inputCost outputCost] totalCost]
      eqn:Ecost.
    cbn [fst snd]. unfold updateRequestLogSuccess.
    rewrite updateRow_fresh by (exact Hfresh || reflexivity).
    eexists. split; [reflexivity|]. cbn. rewrite Ecost. repeat split; reflexivity.
  - cbn [fst snd]. unfold updateRequestLogError.
    rewrite updateRow_fresh by (exact Hfresh || reflexivity).
    eexists. split; [reflexivity|]. cbn. repeat split; reflexivity.
Qed.

(** X13. The adapter sends the vendor one request, and none when the
    validation or the encoding of the request fails.  The request carries the
    key value of the context in its x-api-key field, and as its
    anthropic-version the version the request names, or else the one of the
    provider. *)
Theorem adapter_sends_at_most_one_request (ap : AnthropicProvider) (now : Z)
    (ctx : LLMRequestContext) (req : ChatCompletionRequest) :
  snd (Adapter.ChatCompletion Do unmarshalResponse ap now ctx req)
  = match ValidateRequest req, marshalError req with
    | None, None => [newRequest ap ctx req]
    | _, _ => []
    end
  /\ httpHeader (newRequest ap ctx req) !! "x-api-key" = Some (KeyValue (ContextAPIKey ctx))
  /\ httpHeader (newRequest ap ctx req) !! "anthropic-version"
     = Some (if String.eqb (AnthropicVersion req) "" then apiVersion ap
             else AnthropicVersion req)
  /\ body (newRequest ap ctx req) = TransformRequest req.
Proof.
  split; [|split; [|split]].
  - unfold Adapter.ChatCompletion.
    destruct (ValidateRequest req); [reflexivity|].
    destruct (marshalError req); [reflexivity|].
    destruct (Do (newRequest ap ctx req)) as [text|text|status respBody]; try reflexivity.
    destruct ((status <? 200) || (300 <=? status)); [reflexivity|].
    destruct (unmarshalResponse respBody) as [anthropicResp|text]; [|reflexivity].
    destruct (TransformResponse now (IAnthropicResponse anthropicResp)); reflexivity.
  - unfold newRequest. cbn [httpHeader].
    destruct (negb (String.eqb (AnthropicVersion req) "")).
    + rewrite lookup_insert_ne by done. rewrite lookup_insert_ne by done.
      by rewrite lookup_insert_eq.
    + rewrite lookup_insert_ne by done. by rewrite lookup_insert_eq.
  - unfold newRequest. cbn [httpHeader].
    destruct (String.eqb (AnthropicVersion req) ""); cbn [negb]; by rewrite lookup_insert_eq.
  - reflexivity.
Qed.

(** X10. A request the validation of the adapter refuses goes no further
    than the gateway: nothing is sent to the vendor, the row of the call is
    marked failed with status 500, and the handler answers 400 with the type
    invalid_request_error. *)
Theorem validation_failure_is_answered_400 (S : Type) (db : Store) (models : list ModelRow)
    (run : StoreRun) (provider : Provider) (ctx : LLMRequestContext)
    (req : ChatCompletionRequest) (logID : Z) (now : Time.Time) (unix latencyMs : Z)
    (model : LLMModel) (e : ValidationError) :
  GetModelByName db models (ProviderRowID provider) (Model req) = inl model ->
  ProviderType provider = "anthropic" ->
  marshalError req = None ->
  createError run = None ->
  updateApplies run = true ->
  Forall (fun other => LogID other <> logID) (llm_request_logs db) ->
  ValidateRequest req = Some e ->
  Service.ChatCompletion Do unmarshalResponse db models run provider ctx req logID now unix
    latencyMs
  = (inr (AdapterFailed (ValidationFailed e)),
     llm_request_logs db
     ++ [failedLog logID (ContextAPIKeyID ctx) (Model req) now
           ("request validation failed: " +:+ validationText e) latencyMs],
     [])
  /\ @handleRegularCompletion S (inr (AdapterFailed (ValidationFailed e)))
     = Failure {| statusCode := 400; errorType := "invalid_request_error";
                  message := "request validation failed: " +:+ validationText e |}.
Proof.
  intros Hm Hp Hme Hc Hu Hfresh Hv. split.
  - unfold Service.ChatCompletion.
    rewrite Hm, Hp, Hme, Hc, Hu.
    change (providers "anthropic") with (Some anthropicProvider). cbv iota.
    unfold Adapter.ChatCompletion. rewrite Hv. cbv iota.
    unfold updateRequestLogError.
    rewrite updateRow_fresh by (exact Hfresh || reflexivity). reflexivity.
  - unfold handleRegularCompletion.
    cbn [serviceErrorText adapterErrorText].
    rewrite (Contains_app_l "request validation failed: " (validationText e) "validation")
      by reflexivity.
    rewrite orb_true_r. reflexivity.
Qed.

End SyncProperties.

Section HandlerWitnesses.
Import Models Anthropic LLM Adapter Service Handlers Middleware.

Lemma pagination_offset_exact_witness :
  page (PaginationMiddleware third_page) <= 92233720368547758
  /\ offset (PaginationMiddleware third_page) = 40.
Proof.
  assert (H : page (PaginationMiddleware third_page) <= 92233720368547758)
    by (vm_compute; discriminate).
  split; [exact H|].
  destruct (pagination_offset_exact third_page H) as [E _]. rewrite E. reflexivity.
Defined.

Lemma pagination_reads_decimal_witness :
  PaginationMiddleware third_page = {| page := 3; limit := 20; offset := 40 |}.
Proof.
  rewrite (pagination_reads_decimal third_page 3 20);
    [ reflexivity | reflexivity | reflexivity
    | split; vm_compute; discriminate | split; vm_compute; discriminate ].
Defined.

Lemma extractAPIKey_bearer_first_witness :
  Gin.GetHeader three_keys "x-api-key" = "sk-header"
  /\ extractAPIKey three_keys = "sk-test".
Proof.
  split; [reflexivity|].
  apply (extractAPIKey_bearer_first three_keys "sk-test"). reflexivity.
Defined.

Lemma quota_refusal_is_answered_401_witness :
  exists text,
    fst (Handlers.ChatCompletion (S := unit)
           (fun _ _ => inr (ModelNotFound "")) (fun _ _ => tt)
           keyed_request empty_cache (sample_store five_calls_today) sample_now ""
           (inl (hello_request "claude-3" "user")))
    = Failure {| statusCode := 401; errorType := "authentication_error"; message := text |}
    /\ Strings.Contains text "limit exceeded" = true.
Proof.
  apply (quota_refusal_is_answered_401 (S := unit)
           (fun _ _ => inr (ModelNotFound "")) (fun _ _ => tt)
           keyed_request empty_cache (sample_store five_calls_today) sample_now ""
           (inl (hello_request "claude-3" "user")));
    [ vm_compute; discriminate | vm_compute; reflexivity ].
Defined.

Lemma unknown_model_is_answered_404_witness :
  @handleRegularCompletion unit (inr (ModelNotFound "gpt-4"))
  = Failure {| statusCode := 404; errorType := "invalid_request_error";
               message := "model not found: gpt-4" |}.
Proof.
  destruct (unknown_model_is_answered_404 sample_vendor sample_unmarshal unit
              (sample_store []) sample_models sound_run sample_provider sample_context
              (hello_request "gpt-4" "user") 1 sample_now 0 0) as [_ E];
    [ right; reflexivity | exact E ].
Defined.

Lemma sync_call_settles_its_record_witness :
  exists row,
    snd (fst (Service.ChatCompletion sample_vendor sample_unmarshal (sample_store [])
                sample_models sound_run sample_provider sample_context
                (hello_request "claude-3" "user") 1 sample_now 0 250))
    = [row]
    /\ LogStatus row = "completed" /\ LogTotalTokens row = 46.
Proof.
  destruct (sync_call_settles_its_record sample_vendor sample_unmarshal (sample_store [])
              sample_models sound_run sample_provider sample_context
              (hello_request "claude-3" "user") 1 sample_now 0 250 default_rates)
    as (row & Hlogs & _ & Hrow);
    [ reflexivity | reflexivity | reflexivity | reflexivity | reflexivity | constructor | ].
  exists row. split; [exact Hlogs|].
  destruct Hrow as (Hs & _ & _ & _ & Ht & _). split; [exact Hs | exact Ht].
Defined.

Lemma validation_failure_is_answered_400_witness :
  snd (Service.ChatCompletion sample_vendor sample_unmarshal (sample_store [])
         sample_models sound_run sample_provider sample_context
         (hello_request "claude-3" "system") 1 sample_now 0 250)
  = []
  /\ @handleRegularCompletion unit (inr (AdapterFailed (ValidationFailed (ErrRole 0))))
     = Failure {| statusCode := 400; errorType := "invalid_request_error";
                  message := "request validation failed: message 0: role must be 'user' or 'assistant' for Anthropic" |}.
Proof.
  destruct (validation_failure_is_answered_400 sample_vendor sample_unmarshal unit
              (sample_store []) sample_models sound_run sample_provider sample_context
              (hello_request "claude-3" "system") 1 sample_now 0 250 default_rates (ErrRole 0))
    as [Hcall Hanswer];
    [ reflexivity | reflexivity | reflexivity | reflexivity | reflexivity | constructor
    | reflexivity | ].
  split; [rewrite Hcall; reflexivity | exact Hanswer].
Defined.

(** A page beyond the range of the product wraps to a negative offset. *)
Example pagination_offset_wraps :
  offset (PaginationMiddleware
            {| Gin.header := ∅;
               Gin.query := {[ "page" := "9223372036854775807"; "limit" := "100" ]} |})
  = -200.
Proof. reflexivity. Qed.

(** Parameters that are not decimal numbers, or out of range, give the
    defaults. *)
Example pagination_defaults :
  PaginationMiddleware
    {| Gin.header := ∅; Gin.query := {[ "page" := "0"; "limit" := "101" ]} |}
  = {| page := 1; limit := 10; offset := 0 |}
  /\ PaginationMiddleware
       {| Gin.header := ∅; Gin.query := {[ "page" := " 2"; "limit" := "1e1" ]} |}
     = {| page := 1; limit := 10; offset := 0 |}.
Proof. split; reflexivity. Qed.

(** A bare "Bearer " prefix hides the key of the x-api-key field. *)
Example bare_bearer_hides_the_key :
  extractAPIKey {| Gin.header := {[ "Authorization" := "Bearer "; "x-api-key" := "sk-test" ]};
                   Gin.query := ∅ |} = "".
Proof. reflexivity. Qed.

End HandlerWitnesses.

(** ** The streaming path: its errors and its request *)

Section StreamingPathProperties.
Import Models Anthropic Adapter Service Handlers.

(** X28. On the streaming path every error of the service is answered with
    status 200, as one event that carries the text of the error and a type;
    a model that is not found, which the regular path answers 404, has the
    type api_error here, unless its name contains one of the words the
    handler looks for. *)
Theorem streaming_error_is_answered_200 (e : ServiceError) :
  exists errorType,
    handleStreamingCompletion (inr e) = ErrorEvent 200 (errorEvent (serviceErrorText e) errorType)
    /\ In errorType ["invalid_request_error"; "rate_limit_error"; "api_error"]
    /\ forall name,
         e = ModelNotFound name ->
         unknownModelStatus name = (404, "invalid_request_error") ->
         errorType = "api_error".
Proof.
  unfold handleStreamingCompletion.
  destruct (Strings.Contains (serviceErrorText e) "invalid"
            || Strings.Contains (serviceErrorText e) "validation") eqn:Hi.
  - eexists. split; [reflexivity|]. split; [cbn; tauto|].
    intros name -> Hs. exfalso. cbn [serviceErrorText] in Hi.
    destruct (Contains_model_not_found name) as (Ei & Ev & _ & _).
    rewrite Ei, Ev in Hi. unfold unknownModelStatus in Hs. rewrite Hi in Hs. discriminate Hs.
  - destruct (Strings.Contains (serviceErrorText e) "limit exceeded") eqn:Hl.
    + eexists. split; [reflexivity|]. split; [cbn; tauto|].
      intros name -> Hs. exfalso. cbn [serviceErrorText] in Hi, Hl.
      destruct (Contains_model_not_found name) as (Ei & Ev & El & _).
      rewrite Ei, Ev in Hi. rewrite El in Hl.
      unfold unknownModelStatus in Hs. rewrite Hi, Hl in Hs. discriminate Hs.
    + eexists. split; [reflexivity|]. split; [cbn; tauto|]. reflexivity.
Qed.

Section StreamCall.
Context `{JSON.Decoder}.
Variable DoStream : HTTPRequest -> StreamOpening.

Lemma TransformRequest_stream (req : ChatCompletionRequest) :
  TransformRequest (setStream req) !! "stream" = Some (VBool true).
Proof.
  unfold TransformRequest. cbn [setStream Stream Metadata].
  destruct (Metadata req) as [kv|]; cbn [set_if].
  - rewrite lookup_insert_ne by done. by rewrite lookup_insert_eq.
  - by rewrite lookup_insert_eq.
Qed.

(** X29. The adapter opens a stream with at most one request, and none when
    the validation or the encoding fails; the request asks the vendor to
    stream whether or not the caller's request did, and carries the key
    value of the context.  Frames come of it only under a status from 200 to
    299; any other status is an error with the status and the whole body in
    its text. *)
Theorem stream_request_asks_for_stream (ap : AnthropicProvider) (ctx : LLMRequestContext)
    (req : ChatCompletionRequest) :
  snd (StreamChatCompletion DoStream ap ctx req)
  = match ValidateRequest req, marshalError req with
    | None, None => [newStreamRequest ap ctx (setStream req)]
    | _, _ => []
    end
  /\ body (newStreamRequest ap ctx (setStream req)) !! "stream" = Some (VBool true)
  /\ httpHeader (newStreamRequest ap ctx (setStream req)) !! "x-api-key"
     = Some (KeyValue (ContextAPIKey ctx))
  /\ httpHeader (newStreamRequest ap ctx (setStream req)) !! "Accept"
     = Some "text/event-stream"
  /\ (forall status chunks ending,
        ValidateRequest req = None -> marshalError req = None ->
        DoStream (newStreamRequest ap ctx (setStream req)) = Opened status chunks ending ->
        fst (StreamChatCompletion DoStream ap ctx req)
        = if (status <? 200) || (300 <=? status)
          then inr (StatusError status (String.concat "" chunks))
          else inl (streamFrames chunks ending)).
Proof.
  assert (Hv : ValidateRequest (setStream req) = ValidateRequest req) by reflexivity.
  assert (Hm : marshalError (setStream req) = marshalError req) by reflexivity.
  split; [|split; [|split; [|split]]].
  - unfold StreamChatCompletion. cbv zeta. rewrite Hv, Hm.
    destruct (ValidateRequest req); [reflexivity|].
    destruct (marshalError req); [reflexivity|].
    destruct (DoStream (newStreamRequest ap ctx (setStream req)))
      as [text|status chunks ending]; [reflexivity|].
    destruct ((status <? 200) || (300 <=? status)); reflexivity.
  - apply TransformRequest_stream.
  - unfold newStreamRequest. cbn [httpHeader].
    destruct (negb (String.eqb (AnthropicVersion (setStream req)) ""));
      repeat (rewrite lookup_insert_ne by done); by rewrite lookup_insert_eq.
  - unfold newStreamRequest. cbn [httpHeader].
    destruct (negb (String.eqb (AnthropicVersion (setStream req)) ""));
      repeat (rewrite lookup_insert_ne by done); by rewrite lookup_insert_eq.
  - intros status chunks ending Hval Hmar Hdo.
    unfold StreamChatCompletion. cbv zeta. rewrite Hv, Hm, Hval, Hmar, Hdo.
    destruct ((status <? 200) || (300 <=? status)); reflexivity.
Qed.

End StreamCall.

End StreamingPathProperties.

Section StreamingPathExamples.
Import Models Adapter Service Handlers.

(** The same error on the two paths. *)
Example unknown_model_on_both_paths :
  handleStreamingCompletion (inr (ModelNotFound "gpt-4"))
  = ErrorEvent 200
      (JSON.q "data: {'error': {'message': 'model not found: gpt-4', 'type': 'api_error'}}"
       +:+ Strings.nlnl)
  /\ @handleRegularCompletion unit (inr (ModelNotFound "gpt-4"))
     = Failure {| statusCode := 404; errorType := "invalid_request_error";
                  message := "model not found: gpt-4" |}.
Proof. split; reflexivity. Qed.

End StreamingPathExamples.

(** ** The cache service: batches, invalidation and warm-up *)

Section CacheProperties.
Import Models Cache CacheBatch.

Lemma cacheKeys_differ (apiKey : string) (apiKeyID : Z) :
  apiKeyCacheKey apiKey <> usageCacheKey apiKeyID.
Proof. unfold apiKeyCacheKey, usageCacheKey. rewrite !append_cons. discriminate. Qed.

Lemma append_inj_l (p a b : string) : p +:+ a = p +:+ b -> a = b.
Proof.
  induction p as [|c p IH]; [done|]. rewrite !append_cons. intros [= E]. by apply IH.
Qed.

Lemma apiKeyCacheKey_inj (a b : string) : apiKeyCacheKey a = apiKeyCacheKey b -> a = b.
Proof. apply append_inj_l. Qed.

Lemma Itoa_inj (a b : Z) : JSON.Itoa a = JSON.Itoa b -> a = b.
Proof.
  unfold JSON.Itoa. intros E.
  assert (E' : NilEmpty.int_of_string (NilEmpty.string_of_int (Z.to_int a))
               = NilEmpty.int_of_string (NilEmpty.string_of_int (Z.to_int b)))
    by (by rewrite E).
  rewrite !NilEmpty.isi in E'. injection E' as E'.
  rewrite <- (DecimalZ.of_to a), <- (DecimalZ.of_to b). by rewrite E'.
Qed.

Lemma usageCacheKey_inj (a b : Z) : usageCacheKey a = usageCacheKey b -> a = b.
Proof. intros E. apply Itoa_inj. exact (append_inj_l _ _ _ E). Qed.

(** X14. What [SetAPIKeyWithUsage] writes is read back until the shorter of
    the two times to live has passed: the counts as they were given, and the
    key with every field but its key value, which comes back empty. *)
Theorem SetAPIKeyWithUsage_round_trip (c : CacheService) (r : gmap string Item)
    (now later : Time.Time) (apiKey : string) (dbAPIKey : APIKey) (usage : UsageCounts)
    (apiKeyTTL usageTTL : Z) :
  redis c = Some r ->
  Time.unixNano later < Time.unixNano now + apiKeyTTL ->
  Time.unixNano later < Time.unixNano now + usageTTL ->
  match ExpiresAt dbAPIKey with
  | Some expiresAt => Time.Before expiresAt later = false
  | None => True
  end ->
  GetAPIKey (SetAPIKeyWithUsage c now apiKey dbAPIKey usage apiKeyTTL usageTTL) later apiKey
  = (Some (throughJSON dbAPIKey),
     SetAPIKeyWithUsage c now apiKey dbAPIKey usage apiKeyTTL usageTTL)
  /\ GetUsageCount (SetAPIKeyWithUsage c now apiKey dbAPIKey usage apiKeyTTL usageTTL)
       later (ID dbAPIKey)
     = Some usage.
Proof.
  intros Hr Ht1 Ht2 Hexp.
  unfold SetAPIKeyWithUsage, SetBatch. rewrite Hr. cbn [fold_left Key Value TTL marshal].
  cbn [EntryAPIKey CachedAt EntryExpiresAt].
  split.
  - unfold GetAPIKey. cbn [redis]. unfold redisGet, redisSet.
    rewrite lookup_insert_ne by apply not_eq_sym, cacheKeys_differ.
    rewrite lookup_insert_eq. cbn [deadline payload].
    destruct (Z.leb_spec (Time.unixNano now + apiKeyTTL) (Time.unixNano later)); [lia|].
    cbn [EntryExpiresAt EntryAPIKey].
    destruct (ExpiresAt dbAPIKey) as [e|]; [rewrite Hexp|]; reflexivity.
  - unfold GetUsageCount. cbn [redis]. unfold redisGet, redisSet.
    rewrite lookup_insert_eq. cbn [deadline payload].
    destruct (Z.leb_spec (Time.unixNano now + usageTTL) (Time.unixNano later)); [lia|].
    cbn [EntryDailyCount EntryMonthlyCount]. by destruct usage.
Qed.

(** X15. After [InvalidateAPIKeyAndUsage] neither the key nor the counts of
    its id are found, and what the cache holds for other keys and other ids
    is found as before. *)
Theorem InvalidateAPIKeyAndUsage_removes_both (c : CacheService) (now : Time.Time)
    (apiKey : string) (apiKeyID : Z) :
  fst (GetAPIKey (InvalidateAPIKeyAndUsage c apiKey apiKeyID) now apiKey) = None
  /\ GetUsageCount (InvalidateAPIKeyAndUsage c apiKey apiKeyID) now apiKeyID = None
  /\ (forall other, other <> apiKey ->
        fst (GetAPIKey (InvalidateAPIKeyAndUsage c apiKey apiKeyID) now other)
        = fst (GetAPIKey c now other))
  /\ (forall other, other <> apiKeyID ->
        GetUsageCount (InvalidateAPIKeyAndUsage c apiKey apiKeyID) now other
        = GetUsageCount c now other).
Proof.
  unfold InvalidateAPIKeyAndUsage, InvalidateBatch.
  destruct (redis c) as [r|] eqn:Hr.
  - cbn [fold_left]. unfold GetAPIKey, GetUsageCount. rewrite Hr. cbn [redis].
    unfold redisGet. repeat split.
    + rewrite lookup_delete_ne by apply not_eq_sym, cacheKeys_differ.
      by rewrite lookup_delete_eq.
    + by rewrite lookup_delete_eq.
    + intros other Hne.
      rewrite lookup_delete_ne by apply not_eq_sym, cacheKeys_differ.
      rewrite lookup_delete_ne by (intros E; apply Hne; symmetry; by apply apiKeyCacheKey_inj).
      destruct (r !! apiKeyCacheKey other) as [item|]; [|reflexivity].
      destruct (deadline item <=? Time.unixNano now); [reflexivity|].
      destruct (payload item) as [entry|entry]; [|reflexivity].
      destruct (EntryExpiresAt entry) as [e|]; [|reflexivity].
      destruct (Time.Before e now); reflexivity.
    + intros other Hne.
      rewrite lookup_delete_ne by (intros E; apply Hne; symmetry; by apply usageCacheKey_inj).
      rewrite lookup_delete_ne by apply cacheKeys_differ.
      reflexivity.
  - unfold GetAPIKey, GetUsageCount. rewrite Hr. repeat split.
Qed.

End CacheProperties.

Section WarmupProperties.
Import Models Cache CacheBatch LLM.

Lemma fold_redisSet_lookup (now : Time.Time) (entries : list BatchCacheEntry)
    (r : gmap string Item) (key : string) :
  fold_left (fun pipe entry => redisSet pipe now (Key entry) (marshal (Value entry)) (TTL entry))
    entries r !! key
  = match List.find (fun entry => String.eqb (Key entry) key) (List.rev entries) with
    | Some entry => Some {| payload := marshal (Value entry);
                            deadline := Time.unixNano now + TTL entry |}
    | None => r !! key
    end.
Proof.
  induction entries as [|entry entries IH] using rev_ind; [reflexivity|].
  rewrite fold_left_app, rev_app_distr. cbn [fold_left List.rev List.app List.find].
  unfold redisSet at 1.
  destruct (String.eqb_spec (Key entry) key) as [->|Hne].
  - by rewrite lookup_insert_eq.
  - rewrite lookup_insert_ne by done. exact IH.
Qed.

Lemma find_warmup_entries (now : Time.Time) (apiKey : string) (rows : list APIKey) :
  List.find (fun entry => String.eqb (Key entry) (apiKeyCacheKey apiKey))
    (List.map (fun row =>
                 {| Key := apiKeyCacheKey (KeyValue row);
                    Value := APIKeyPayload {| EntryAPIKey := row; CachedAt := now;
                                              EntryExpiresAt := ExpiresAt row |};
                    TTL := 5 * Time.Minute |})
       (List.filter (fun row => isActive (Status row)) rows))
  = option_map (fun row =>
                  {| Key := apiKeyCacheKey (KeyValue row);
                     Value := APIKeyPayload {| EntryAPIKey := row; CachedAt := now;
                                               EntryExpiresAt := ExpiresAt row |};
                     TTL := 5 * Time.Minute |})
      (List.find (fun row => String.eqb (KeyValue row) apiKey && isActive (Status row)) rows).
Proof.
  induction rows as [|row rows IH]; [reflexivity|].
  cbn [List.filter List.find].
  destruct (isActive (Status row)) eqn:Ea.
  - cbn [List.map List.find Key].
    destruct (String.eqb_spec (KeyValue row) apiKey) as [E|Hne].
    + assert (E2 : String.eqb (apiKeyCacheKey (KeyValue row)) (apiKeyCacheKey apiKey) = true)
        by (rewrite E; apply String.eqb_refl).
      rewrite E2. reflexivity.
    + destruct (String.eqb_spec (apiKeyCacheKey (KeyValue row)) (apiKeyCacheKey apiKey)) as [E|_].
      * apply apiKeyCacheKey_inj in E. contradiction.
      * cbn [andb]. exact IH.
  - rewrite andb_false_r. exact IH.
Qed.

(** X16. After a warm-up on a store that answers, a key value is found in
    the cache for the next five minutes with the last active row that
    carries it, unless that row has expired; a key value no active row
    carries is found as before the warm-up. *)
Theorem WarmupAPIKeyCache_caches_active_keys (c : CacheService) (r : gmap string Item)
    (now later : Time.Time) (db : Store) (apiKey : string) :
  redis c = Some r ->
  available db = true ->
  Time.unixNano later < Time.unixNano now + 5 * Time.Minute ->
  fst (GetAPIKey (snd (WarmupAPIKeyCache c now db)) later apiKey)
  = match lastActiveKey db apiKey with
    | Some row => if expiredAt later row then None else Some (throughJSON row)
    | None => fst (GetAPIKey c later apiKey)
    end.
Proof.
  intros Hr Hav Hlater.
  set (mk := fun row : APIKey =>
               {| Key := apiKeyCacheKey (KeyValue row);
                  Value := APIKeyPayload {| EntryAPIKey := row; CachedAt := now;
                                            EntryExpiresAt := ExpiresAt row |};
                  TTL := 5 * Time.Minute |}).
  set (entries := List.map mk (List.filter (fun row => isActive (Status row)) (api_keys db))).
  assert (Hc : redis (snd (WarmupAPIKeyCache c now db))
               = Some (fold_left
                         (fun pipe entry =>
                            redisSet pipe now (Key entry) (marshal (Value entry)) (TTL entry))
                         entries r)).
  { unfold WarmupAPIKeyCache. rewrite Hr, Hav. cbn [negb]. fold mk. fold entries.
    destruct entries as [|entry rest] eqn:E; [exact Hr|].
    cbn [snd]. unfold SetBatch. rewrite Hr. reflexivity. }
  unfold GetAPIKey at 1. rewrite Hc. unfold redisGet at 1.
  rewrite fold_redisSet_lookup.
  unfold entries. rewrite <- List.map_rev.
  rewrite <- List.filter_rev. unfold mk. rewrite find_warmup_entries. fold (lastActiveKey db apiKey).
  destruct (lastActiveKey db apiKey) as [row|]; cbn [option_map].
  - cbn [deadline payload TTL Value marshal EntryAPIKey EntryExpiresAt CachedAt].
    match goal with |- context [Z.leb ?a ?b] => destruct (Z.leb_spec a b) end; [lia|].
    unfold expiredAt. destruct (ExpiresAt row) as [e|]; cbn [EntryExpiresAt EntryAPIKey]; [|reflexivity].
    destruct (Time.Before e later); reflexivity.
  - unfold GetAPIKey. rewrite Hr. unfold redisGet.
    destruct (r !! apiKeyCacheKey apiKey) as [item|]; [|reflexivity].
    destruct (deadline item <=? Time.unixNano later); [reflexivity|].
    destruct (payload item) as [entry|entry]; [|reflexivity].
    destruct (EntryExpiresAt entry) as [e|]; [|reflexivity].
    destruct (Time.Before e later); reflexivity.
Qed.

End WarmupProperties.

(** ** The gate across two calls, and its two copies *)

Section GateCacheProperties.
Import Models Cache CacheBatch LLM.

Lemma validateUsageLimitsOptimized_Ok (c : CacheService) (db : Store) (now : Time.Time)
    (key : APIKey) (ctx : LLMRequestContext) :
  fst (validateUsageLimitsOptimized c db now key) = Ok ctx -> ctx = requestContext now key.
Proof.
  unfold validateUsageLimitsOptimized.
  destruct ((0 <? DailyRequestLimit key) || (0 <? MonthlyRequestLimit key)).
  - destruct (readUsage c db now (ID key)) as [[usage|] c']; cbn [fst]; [|discriminate].
    unfold checkLimits.
    repeat match goal with |- context [if ?b then _ else _] => destruct b end;
      try discriminate; by intros [= <-].
  - cbn [fst]. by intros [= <-].
Qed.

(** The usage check leaves the entries of the API keys alone. *)
Lemma validateUsageLimitsOptimized_keeps_keys (c : CacheService) (db : Store)
    (now : Time.Time) (key : APIKey) (r : gmap string Item) (apiKey : string) :
  redis c = Some r ->
  exists r', redis (snd (validateUsageLimitsOptimized c db now key)) = Some r'
             /\ r' !! apiKeyCacheKey apiKey = r !! apiKeyCacheKey apiKey.
Proof.
  intros Hr. unfold validateUsageLimitsOptimized.
  destruct ((0 <? DailyRequestLimit key) || (0 <? MonthlyRequestLimit key));
    [|exists r; by split].
  unfold readUsage.
  destruct (GetUsageCount c now (ID key)); [exists r; by split|].
  destruct (getBatchUsageFromDB db now (ID key)) as [usage|]; [|exists r; by split].
  cbn [snd]. unfold SetUsageCount. rewrite Hr. cbn [redis]. eexists. split; [reflexivity|].
  unfold redisSet. rewrite lookup_insert_ne by apply not_eq_sym, cacheKeys_differ.
  reflexivity.
Qed.

Lemma firstActiveKey_KeyValue (db : Store) (apiKey : string) (key : APIKey) :
  firstActiveKey db apiKey = Some key -> KeyValue key = apiKey.
Proof.
  unfold firstActiveKey. destruct (negb (available db)); [discriminate|].
  intros Hf. apply List.find_some in Hf as [_ Hm].
  apply andb_prop in Hm as [Hm _]. by apply String.eqb_eq.
Qed.

(** X17. A key the cache does not hold is validated against the store, and
    the context carries its key value.  A second validation within the five
    minutes the entry lives is answered from the cache: its context carries
    the same key with an empty key value, and the request the adapter builds
    from it has an empty x-api-key field. *)
Theorem second_validation_loses_key_value (c : CacheService) (r : gmap string Item)
    (db : Store) (now later : Time.Time) (apiKey : string)
    (ctx1 ctx2 : LLMRequestContext) (c1 : CacheService)
    (ap : Adapter.AnthropicProvider) (req : ChatCompletionRequest) :
  redis c = Some r ->
  r !! apiKeyCacheKey apiKey = None ->
  ValidateAPIKeyOptimized c db now apiKey = (Ok ctx1, c1) ->
  Time.unixNano later < Time.unixNano now + 5 * Time.Minute ->
  fst (ValidateAPIKeyOptimized c1 db later apiKey) = Ok ctx2 ->
  KeyValue (ContextAPIKey ctx1) = apiKey
  /\ ContextAPIKey ctx2 = throughJSON (ContextAPIKey ctx1)
  /\ KeyValue (ContextAPIKey ctx2) = ""
  /\ Adapter.httpHeader (Adapter.newRequest ap ctx2 req) !! "x-api-key" = Some "".
Proof.
  intros Hr Hcold Hfirst Hlater Hsecond.
  assert (Hkey : exists key,
             firstActiveKey db apiKey = Some key
             /\ ctx1 = requestContext now key
             /\ exists r1, redis c1 = Some r1
                  /\ r1 !! apiKeyCacheKey apiKey
                     = Some {| payload := APIKeyPayload
                                 {| EntryAPIKey := throughJSON key; CachedAt := now;
                                    EntryExpiresAt := ExpiresAt key |};
                               deadline := Time.unixNano now + 5 * Time.Minute |}).
  { unfold ValidateAPIKeyOptimized, GetAPIKey in Hfirst. rewrite Hr in Hfirst.
    unfold redisGet in Hfirst. rewrite Hcold in Hfirst.
    destruct (firstActiveKey db apiKey) as [key|]; [|discriminate Hfirst].
    exists key. split; [reflexivity|].
    assert (Hgo : validateUsageLimitsOptimized
                    (SetAPIKey c now apiKey key (5 * Time.Minute)) db now key = (Ok ctx1, c1)).
    { destruct (ExpiresAt key) as [e|]; [|exact Hfirst].
      destruct (Time.Before e now); [discriminate Hfirst | exact Hfirst]. }
    split.
    - apply (validateUsageLimitsOptimized_Ok
               (SetAPIKey c now apiKey key (5 * Time.Minute)) db now key).
      by rewrite Hgo.
    - destruct (validateUsageLimitsOptimized_keeps_keys
                  (SetAPIKey c now apiKey key (5 * Time.Minute)) db now key
                  (redisSet r now (apiKeyCacheKey apiKey)
                     (APIKeyPayload {| EntryAPIKey := throughJSON key; CachedAt := now;
                                       EntryExpiresAt := ExpiresAt key |})
                     (5 * Time.Minute))
                  apiKey) as (r1 & Hr1 & Hl1).
      + unfold SetAPIKey. rewrite Hr. reflexivity.
      + rewrite Hgo in Hr1. cbn [snd] in Hr1. exists r1. split; [exact Hr1|].
        rewrite Hl1. unfold redisSet. by rewrite lookup_insert_eq. }
  destruct Hkey as (key & Hdb & -> & r1 & Hr1 & Hl1).
  cbn [requestContext ContextAPIKey].
  assert (Hctx2 : ctx2 = requestContext later (throughJSON key)).
  { unfold ValidateAPIKeyOptimized, GetAPIKey in Hsecond. rewrite Hr1 in Hsecond.
    unfold redisGet in Hsecond. rewrite Hl1 in Hsecond. cbn [deadline payload] in Hsecond.
    destruct (Z.leb_spec (Time.unixNano now + 5 * Time.Minute) (Time.unixNano later));
      [lia|].
    cbn [EntryExpiresAt EntryAPIKey] in Hsecond.
    destruct (ExpiresAt key) as [e|] eqn:He.
    - destruct (Time.Before e later) eqn:Hb.
      + rewrite Hdb, He, Hb in Hsecond. discriminate Hsecond.
      + by apply (validateUsageLimitsOptimized_Ok c1 db later).
    - by apply (validateUsageLimitsOptimized_Ok c1 db later). }
  subst ctx2. cbn [requestContext ContextAPIKey throughJSON KeyValue].
  split; [by apply (firstActiveKey_KeyValue db)|].
  split; [reflexivity|]. split; [reflexivity|].
  unfold Adapter.newRequest. cbn [Adapter.httpHeader ContextAPIKey KeyValue].
  destruct (negb (String.eqb (AnthropicVersion req) "")).
  - rewrite lookup_insert_ne by done. rewrite lookup_insert_ne by done.
    by rewrite lookup_insert_eq.
  - rewrite lookup_insert_ne by done. by rewrite lookup_insert_eq.
Qed.

Lemma validateWithUsage_nil (c : CacheService) (db : Store) (now : Time.Time) (key : APIKey) :
  LLMBatch.validateUsageLimitsOptimizedWithUsage c db now key None
  = validateUsageLimitsOptimized c db now key.
Proof.
  unfold LLMBatch.validateUsageLimitsOptimizedWithUsage, validateUsageLimitsOptimized, readUsage.
  destruct ((0 <? DailyRequestLimit key) || (0 <? MonthlyRequestLimit key)); cbn [andb];
    [|reflexivity].
  destruct (GetUsageCount c now (ID key)); [reflexivity|].
  destruct (getBatchUsageFromDB db now (ID key)); reflexivity.
Qed.

Lemma validateWithUsage_given (c : CacheService) (db : Store) (now : Time.Time) (key : APIKey)
    (usage : UsageCounts) :
  LLMBatch.validateUsageLimitsOptimizedWithUsage c db now key (Some usage)
  = (checkLimits now key usage, c).
Proof.
  unfold LLMBatch.validateUsageLimitsOptimizedWithUsage. by rewrite andb_false_r.
Qed.

Lemma SetAPIKeyWithUsage_two_sets (c : CacheService) (now : Time.Time) (apiKey : string)
    (key : APIKey) (usage : UsageCounts) (apiKeyTTL usageTTL : Z) :
  SetAPIKeyWithUsage c now apiKey key usage apiKeyTTL usageTTL
  = SetUsageCount (SetAPIKey c now apiKey key apiKeyTTL) now (ID key) usage usageTTL.
Proof.
  unfold SetAPIKeyWithUsage, SetBatch, SetUsageCount, SetAPIKey.
  destruct (redis c) as [r|] eqn:Hr; [reflexivity | by rewrite Hr].
Qed.

Lemma GetUsageCount_after_GetAPIKey (c : CacheService) (now : Time.Time) (apiKey : string)
    (apiKeyID : Z) :
  GetUsageCount (snd (GetAPIKey c now apiKey)) now apiKeyID = GetUsageCount c now apiKeyID.
Proof.
  unfold GetAPIKey. destruct (redis c) as [r|] eqn:Hr; [|reflexivity].
  destruct (redisGet r now (apiKeyCacheKey apiKey)) as [[entry|entry]|];
    try reflexivity.
  destruct (EntryExpiresAt entry) as [e|]; [|reflexivity].
  destruct (Time.Before e now); [|reflexivity].
  cbn [snd]. unfold GetUsageCount. rewrite Hr. cbn [redis]. unfold redisGet.
  by rewrite lookup_delete_ne by apply cacheKeys_differ.
Qed.

Lemma GetUsageCount_after_SetAPIKey (c : CacheService) (now : Time.Time) (apiKey : string)
    (key : APIKey) (ttl : Z) (apiKeyID : Z) :
  GetUsageCount (SetAPIKey c now apiKey key ttl) now apiKeyID = GetUsageCount c now apiKeyID.
Proof.
  unfold SetAPIKey, GetUsageCount. destruct (redis c) as [r|] eqn:Hr; [|by rewrite Hr].
  cbn [redis]. unfold redisGet, redisSet.
  by rewrite lookup_insert_ne by apply cacheKeys_differ.
Qed.

(** X18. The copy of the gate that fetches the usage ahead answers as the
    other copy does, and leaves the cache as it does, whenever the counts of
    the key are not in the cache. *)
Theorem gate_copies_agree (c : CacheService) (db : Store) (now : Time.Time)
    (apiKey : string) :
  (forall key, firstActiveKey db apiKey = Some key -> GetUsageCount c now (ID key) = None) ->
  LLMBatch.ValidateAPIKeyOptimized c db now apiKey = ValidateAPIKeyOptimized c db now apiKey.
Proof.
  intros Hcold. unfold LLMBatch.ValidateAPIKeyOptimized, ValidateAPIKeyOptimized.
  pose proof (GetUsageCount_after_GetAPIKey c now apiKey) as Hsame.
  destruct (GetAPIKey c now apiKey) as [[cached|] c1]; [apply validateWithUsage_nil|].
  cbn [snd] in Hsame.
  destruct (firstActiveKey db apiKey) as [key|]; [|reflexivity].
  specialize (Hcold key eq_refl).
  assert (Hrest :
    (if (0 <? DailyRequestLimit key) || (0 <? MonthlyRequestLimit key)
     then match getBatchUsageFromDB db now (ID key) with
          | Some usage =>
              LLMBatch.validateUsageLimitsOptimizedWithUsage
                (SetAPIKeyWithUsage c1 now apiKey key usage (5 * Time.Minute) (1 * Time.Minute))
                db now key (Some usage)
          | None =>
              LLMBatch.validateUsageLimitsOptimizedWithUsage
                (SetAPIKey c1 now apiKey key (5 * Time.Minute)) db now key None
          end
     else LLMBatch.validateUsageLimitsOptimizedWithUsage
            (SetAPIKey c1 now apiKey key (5 * Time.Minute)) db now key None)
    = validateUsageLimitsOptimized (SetAPIKey c1 now apiKey key (5 * Time.Minute)) db now key).
  { destruct ((0 <? DailyRequestLimit key) || (0 <? MonthlyRequestLimit key)) eqn:Hlim;
      [|apply validateWithUsage_nil].
    destruct (getBatchUsageFromDB db now (ID key)) as [usage|] eqn:Hdb;
      [|apply validateWithUsage_nil].
    rewrite validateWithUsage_given.
    unfold validateUsageLimitsOptimized, readUsage. rewrite Hlim.
    rewrite GetUsageCount_after_SetAPIKey, Hsame, Hcold, Hdb.
    by rewrite SetAPIKeyWithUsage_two_sets. }
  destruct (ExpiresAt key) as [e|]; [destruct (Time.Before e now); [reflexivity|]|];
    exact Hrest.
Qed.

(** X19. Where the cache holds counts of the key but not the key, the two
    copies part: the one decides on the cached counts, the copy that fetches
    ahead on the counts of the store. *)
Theorem gate_copies_part_on_cached_counts (c : CacheService) (db : Store) (now : Time.Time)
    (apiKey : string) (key : APIKey) (cached counted : UsageCounts) :
  fst (GetAPIKey c now apiKey) = None ->
  firstActiveKey db apiKey = Some key ->
  expiredAt now key = false ->
  0 < DailyRequestLimit key \/ 0 < MonthlyRequestLimit key ->
  GetUsageCount c now (ID key) = Some cached ->
  getBatchUsageFromDB db now (ID key) = Some counted ->
  fst (ValidateAPIKeyOptimized c db now apiKey) = checkLimits now key cached
  /\ fst (LLMBatch.ValidateAPIKeyOptimized c db now apiKey) = checkLimits now key counted.
Proof.
  intros Hmiss Hdb Hexp Hlim Hcached Hcounted.
  assert (Hl : (0 <? DailyRequestLimit key) || (0 <? MonthlyRequestLimit key) = true).
  { apply orb_true_iff. destruct Hlim; [left | right]; by apply Z.ltb_lt. }
  pose proof (GetUsageCount_after_GetAPIKey c now apiKey (ID key)) as Hsame.
  unfold LLMBatch.ValidateAPIKeyOptimized, ValidateAPIKeyOptimized.
  destruct (GetAPIKey c now apiKey) as [[hit|] c1]; [discriminate Hmiss|].
  cbn [snd] in Hsame. rewrite Hdb. unfold expiredAt in Hexp. split.
  - assert (Hgo : fst (validateUsageLimitsOptimized
                         (SetAPIKey c1 now apiKey key (5 * Time.Minute)) db now key)
                  = checkLimits now key cached).
    { unfold validateUsageLimitsOptimized, readUsage. rewrite Hl.
      by rewrite GetUsageCount_after_SetAPIKey, Hsame, Hcached. }
    destruct (ExpiresAt key) as [e|]; [rewrite Hexp|]; exact Hgo.
  - rewrite Hl, Hcounted, validateWithUsage_given.
    destruct (ExpiresAt key) as [e|]; [rewrite Hexp|]; reflexivity.
Qed.

End GateCacheProperties.

Section CacheWitnesses.
Import Models Cache CacheBatch LLM.

Lemma SetAPIKeyWithUsage_round_trip_witness :
  fst (GetAPIKey (SetAPIKeyWithUsage empty_cache sample_now "sk-test" (sample_key 5 0)
                    {| DailyCount := 3; MonthlyCount := 10 |}
                    (5 * Time.Minute) (1 * Time.Minute)) sample_later "sk-test")
  = Some (throughJSON (sample_key 5 0))
  /\ GetUsageCount (SetAPIKeyWithUsage empty_cache sample_now "sk-test" (sample_key 5 0)
                      {| DailyCount := 3; MonthlyCount := 10 |}
                      (5 * Time.Minute) (1 * Time.Minute)) sample_later 7
     = Some {| DailyCount := 3; MonthlyCount := 10 |}.
Proof.
  destruct (SetAPIKeyWithUsage_round_trip empty_cache ∅ sample_now sample_later "sk-test"
              (sample_key 5 0) {| DailyCount := 3; MonthlyCount := 10 |}
              (5 * Time.Minute) (1 * Time.Minute)) as [Hkey Husage];
    [ reflexivity | vm_compute; reflexivity | vm_compute; reflexivity | exact I | ].
  split; [rewrite Hkey; reflexivity | exact Husage].
Defined.

Lemma WarmupAPIKeyCache_caches_active_keys_witness :
  fst (GetAPIKey (snd (WarmupAPIKeyCache empty_cache sample_now (sample_store [])))
         sample_later "sk-test")
  = Some (throughJSON (sample_key 5 0)).
Proof.
  rewrite (WarmupAPIKeyCache_caches_active_keys empty_cache ∅ sample_now sample_later
             (sample_store []) "sk-test");
    [ reflexivity | reflexivity | reflexivity | vm_compute; reflexivity ].
Defined.

Lemma second_validation_loses_key_value_witness :
  KeyValue (ContextAPIKey (requestContext sample_now (sample_key 5 0))) = "sk-test"
  /\ fst (ValidateAPIKeyOptimized
            (snd (ValidateAPIKeyOptimized empty_cache (sample_store []) sample_now "sk-test"))
            (sample_store []) sample_later "sk-test")
     = Ok (requestContext sample_later (throughJSON (sample_key 5 0)))
  /\ Adapter.httpHeader
       (Adapter.newRequest Adapter.anthropicProvider
          (requestContext sample_later (throughJSON (sample_key 5 0)))
          (hello_request "claude-3" "user")) !! "x-api-key" = Some "".
Proof.
  destruct (second_validation_loses_key_value empty_cache ∅ (sample_store [])
              sample_now sample_later "sk-test"
              (requestContext sample_now (sample_key 5 0))
              (requestContext sample_later (throughJSON (sample_key 5 0)))
              (snd (ValidateAPIKeyOptimized empty_cache (sample_store []) sample_now "sk-test"))
              Adapter.anthropicProvider (hello_request "claude-3" "user"))
    as (Hfirst & _ & _ & Hheader);
    [ reflexivity | reflexivity | vm_compute; reflexivity | vm_compute; reflexivity
    | vm_compute; reflexivity | ].
  split; [exact Hfirst|]. split; [vm_compute; reflexivity | exact Hheader].
Defined.

Lemma gate_copies_agree_witness :
  LLMBatch.ValidateAPIKeyOptimized empty_cache (sample_store five_calls_today) sample_now
    "sk-test"
  = ValidateAPIKeyOptimized empty_cache (sample_store five_calls_today) sample_now "sk-test".
Proof.
  apply (gate_copies_agree empty_cache (sample_store five_calls_today) sample_now "sk-test").
  intros key _. reflexivity.
Defined.

Lemma gate_copies_part_on_cached_counts_witness :
  (exists ctx, fst (ValidateAPIKeyOptimized stale_cache (sample_store five_calls_today)
                      sample_now "sk-test") = Ok ctx)
  /\ fst (LLMBatch.ValidateAPIKeyOptimized stale_cache (sample_store five_calls_today)
            sample_now "sk-test")
     = Err ErrDailyLimitExceeded.
Proof.
  destruct (gate_copies_part_on_cached_counts stale_cache (sample_store five_calls_today)
              sample_now "sk-test" (sample_key 5 0)
              {| DailyCount := 0; MonthlyCount := 0 |}
              {| DailyCount := 5; MonthlyCount := 5 |}) as [Hold Hnew];
    [ reflexivity | reflexivity | reflexivity | left; reflexivity
    | vm_compute; reflexivity | vm_compute; reflexivity | ].
  split; [eexists; rewrite Hold; reflexivity | rewrite Hnew; reflexivity].
Defined.

End CacheWitnesses.

Section QuotaLagProperties.
Import Models Cache CacheBatch LLM.

Lemma checkLimits_throughJSON (now later : Time.Time) (key : APIKey) (usage : UsageCounts)
    (ctx : LLMRequestContext) :
  checkLimits now key usage = Ok ctx ->
  checkLimits later (throughJSON key) usage = Ok (requestContext later (throughJSON key)).
Proof.
  unfold checkLimits. cbn [throughJSON DailyRequestLimit MonthlyRequestLimit].
  destruct ((0 <? DailyRequestLimit key) && (DailyRequestLimit key <=? DailyCount usage));
    [discriminate|].
  destruct ((0 <? MonthlyRequestLimit key)
            && (MonthlyRequestLimit key <=? MonthlyCount usage)); [discriminate|].
  reflexivity.
Qed.

(** X20. Once a key with a limit has been validated against the store, with
    neither the key nor its counts in the cache before, every validation
    within the minute the cached counts live is accepted on those counts:
    whatever rows the log has gained since, and whatever has become of the key
    in the store. *)
Theorem quota_lags_by_cached_counts (c : CacheService) (r : gmap string Item)
    (db db' : Store) (now later : Time.Time) (apiKey : string) (key : APIKey)
    (ctx1 : LLMRequestContext) (c1 : CacheService) :
  redis c = Some r ->
  r !! apiKeyCacheKey apiKey = None ->
  r !! usageCacheKey (ID key) = None ->
  firstActiveKey db apiKey = Some key ->
  0 < DailyRequestLimit key \/ 0 < MonthlyRequestLimit key ->
  ValidateAPIKeyOptimized c db now apiKey = (Ok ctx1, c1) ->
  Time.unixNano later < Time.unixNano now + 1 * Time.Minute ->
  expiredAt later key = false ->
  fst (ValidateAPIKeyOptimized c1 db' later apiKey)
  = Ok (requestContext later (throughJSON key)).
Proof.
  intros Hr Hcold Hcold2 Hdb Hlim Hfirst Hlater Hexp.
  assert (Hl : (0 <? DailyRequestLimit key) || (0 <? MonthlyRequestLimit key) = true).
  { apply orb_true_iff. destruct Hlim; [left | right]; by apply Z.ltb_lt. }
  unfold ValidateAPIKeyOptimized, GetAPIKey in Hfirst. rewrite Hr in Hfirst.
  unfold redisGet in Hfirst. rewrite Hcold, Hdb in Hfirst.
  assert (Hgo : validateUsageLimitsOptimized
                  (SetAPIKey c now apiKey key (5 * Time.Minute)) db now key = (Ok ctx1, c1)).
  { destruct (ExpiresAt key) as [e|]; [|exact Hfirst].
    destruct (Time.Before e now); [discriminate Hfirst | exact Hfirst]. }
  clear Hfirst.
  unfold validateUsageLimitsOptimized, readUsage in Hgo. rewrite Hl in Hgo.
  rewrite GetUsageCount_after_SetAPIKey in Hgo.
  assert (Hmiss : GetUsageCount c now (ID key) = None).
  { unfold GetUsageCount. rewrite Hr. unfold redisGet. by rewrite Hcold2. }
  rewrite Hmiss in Hgo.
  destruct (getBatchUsageFromDB db now (ID key)) as [usage|]; [|discriminate Hgo].
  injection Hgo as Hcheck Hc1. subst c1.
  assert (Hm : Time.Minute = 60000000000) by reflexivity.
  set (entry := {| EntryAPIKey := throughJSON key; CachedAt := now;
                   EntryExpiresAt := ExpiresAt key |}).
  set (c1 := SetUsageCount (SetAPIKey c now apiKey key (5 * Time.Minute)) now (ID key) usage
               (1 * Time.Minute)).
  assert (Hc1 : exists r1, redis c1 = Some r1
                  /\ redisGet r1 later (apiKeyCacheKey apiKey) = Some (APIKeyPayload entry)
                  /\ GetUsageCount c1 later (ID key) = Some usage).
  { unfold c1, SetUsageCount, SetAPIKey. rewrite Hr. cbn [redis]. eexists.
    split; [reflexivity|]. split.
    - unfold redisGet, redisSet.
      rewrite lookup_insert_ne by apply not_eq_sym, cacheKeys_differ.
      rewrite lookup_insert_eq. cbn [deadline payload].
      destruct (Z.leb_spec (Time.unixNano now + 5 * Time.Minute) (Time.unixNano later));
        [lia | reflexivity].
    - unfold GetUsageCount. cbn [redis]. unfold redisGet, redisSet.
      rewrite lookup_insert_eq. cbn [deadline payload EntryDailyCount EntryMonthlyCount].
      destruct (Z.leb_spec (Time.unixNano now + 1 * Time.Minute) (Time.unixNano later));
        [lia | by destruct usage]. }
  destruct Hc1 as (r1 & Hr1 & Hget & Husage).
  assert (Hhit : fst (validateUsageLimitsOptimized c1 db' later (throughJSON key))
                 = Ok (requestContext later (throughJSON key))).
  { unfold validateUsageLimitsOptimized, readUsage.
    cbn [throughJSON DailyRequestLimit MonthlyRequestLimit ID]. rewrite Hl, Husage.
    cbn [fst]. exact (checkLimits_throughJSON now later key usage ctx1 Hcheck). }
  unfold ValidateAPIKeyOptimized, GetAPIKey. rewrite Hr1, Hget.
  unfold expiredAt in Hexp. unfold entry at 1. cbn [EntryExpiresAt].
  destruct (ExpiresAt key) as [e|]; [rewrite Hexp|]; exact Hhit.
Qed.

End QuotaLagProperties.

Section QuotaLagWitnesses.
Import Models Cache CacheBatch LLM.

Lemma quota_lags_by_cached_counts_witness :
  fst (ValidateAPIKeyOptimized empty_cache (sample_store ten_calls_today) sample_later "sk-test")
  = Err ErrDailyLimitExceeded
  /\ fst (ValidateAPIKeyOptimized
            (snd (ValidateAPIKeyOptimized empty_cache (sample_store four_calls_today)
                    sample_now "sk-test"))
            (sample_store ten_calls_today) sample_later "sk-test")
     = Ok (requestContext sample_later (throughJSON (sample_key 5 0))).
Proof.
  split; [vm_compute; reflexivity|].
  apply (quota_lags_by_cached_counts empty_cache ∅ (sample_store four_calls_today)
           (sample_store ten_calls_today) sample_now sample_later "sk-test" (sample_key 5 0)
           (requestContext sample_now (sample_key 5 0)));
    [ reflexivity | reflexivity | reflexivity | reflexivity | left; reflexivity
    | vm_compute; reflexivity | vm_compute; reflexivity | reflexivity ].
Defined.

End QuotaLagWitnesses.

Section BatchProperties.
Import Models Cache CacheBatch.

Lemma fold_SetAPIKey (now : Time.Time) (rows : list APIKey) (r : gmap string Item) :
  fold_left (fun cache apiKey => SetAPIKey cache now (KeyValue apiKey) apiKey (5 * Time.Minute))
    rows {| redis := Some r |}
  = {| redis :=
         Some (fold_left
                 (fun pipe entry =>
                    redisSet pipe now (Key entry) (marshal (Value entry)) (TTL entry))
                 (List.map (fun row =>
                              {| Key := apiKeyCacheKey (KeyValue row);
                                 Value := APIKeyPayload {| EntryAPIKey := row; CachedAt := now;
                                                           EntryExpiresAt := ExpiresAt row |};
                                 TTL := 5 * Time.Minute |}) rows)
                 r) |}.
Proof.
  revert r. induction rows as [|row rows IH]; intros r; [reflexivity|].
  cbn [fold_left List.map]. unfold SetAPIKey at 2. cbn [redis]. rewrite IH. reflexivity.
Qed.

(** X21. The batch operations leave the cache as their counterparts do one
    key at a time: the warm-up in one batch as the warm-up that sets each
    key, the invalidation of a key with its counts as the two invalidations
    in turn, and [SetAPIKeyWithUsage] as [SetAPIKey] followed by
    [SetUsageCount]. *)
Theorem batch_operations_agree (c : CacheService) (now : Time.Time) (db : LLM.Store)
    (apiKey : string) (dbAPIKey : APIKey) (usage : UsageCounts) (apiKeyTTL usageTTL : Z) :
  WarmupAPIKeyCache c now db = CacheSingle.WarmupAPIKeyCache c now db
  /\ InvalidateAPIKeyAndUsage c apiKey (ID dbAPIKey)
     = CacheSingle.InvalidateUsageCount (InvalidateAPIKey c apiKey) (ID dbAPIKey)
  /\ SetAPIKeyWithUsage c now apiKey dbAPIKey usage apiKeyTTL usageTTL
     = SetUsageCount (SetAPIKey c now apiKey dbAPIKey apiKeyTTL) now (ID dbAPIKey) usage
         usageTTL.
Proof.
  split; [|split].
  - unfold WarmupAPIKeyCache, CacheSingle.WarmupAPIKeyCache.
    destruct c as [[r|]]; cbn [redis]; [|reflexivity].
    destruct (negb (LLM.available db)); [reflexivity|].
    rewrite fold_SetAPIKey.
    destruct (List.filter (fun row => LLM.isActive (Status row)) (LLM.api_keys db))
      as [|row rows]; reflexivity.
  - unfold InvalidateAPIKeyAndUsage, InvalidateBatch, CacheSingle.InvalidateUsageCount,
      InvalidateAPIKey.
    destruct (redis c) as [r|] eqn:Hr; [reflexivity | by rewrite Hr].
  - apply SetAPIKeyWithUsage_two_sets.
Qed.

End BatchProperties.

(** ** The aggregation of usage logs *)

Section AnalyticsProperties.
Import Analytics.

Lemma countWhere_app (p : UsageLog -> bool) (logs : list UsageLog) (log : UsageLog) :
  countWhere p (logs ++ [log]) = countWhere p logs + (if p log then 1 else 0).
Proof.
  unfold countWhere. rewrite List.filter_app, List.length_app. cbn [List.filter].
  destruct (p log); cbn [List.length]; lia.
Qed.

Lemma countWhere_bounds (p : UsageLog -> bool) (logs : list UsageLog) :
  0 <= countWhere p logs <= Z.of_nat (List.length logs).
Proof.
  unfold countWhere. pose proof (List.filter_length_le p logs). lia.
Qed.

Lemma process_last (logs : list UsageLog) (log : UsageLog) :
  fold_left process (logs ++ [log]) start = process (fold_left process logs start) log.
Proof. by rewrite fold_left_app. Qed.

Lemma process_fields (t : Totals) (log : UsageLog) :
  successfulRequests (process t log)
    = (if Success log then Go.int_add (successfulRequests t) 1 else successfulRequests t)
  /\ failedRequests (process t log)
     = (if Success log then failedRequests t else Go.int_add (failedRequests t) 1)
  /\ userMetricsMap (process t log) = countUser log (userMetricsMap t)
  /\ hourlyMetricsMap (process t log) = countHour log (hourlyMetricsMap t).
Proof. repeat split. Qed.

Lemma calculateAnalytics_nonempty (logs : list UsageLog) (total : Z) :
  logs <> [] ->
  SuccessfulRequests (calculateAnalytics logs total)
    = successfulRequests (fold_left process logs start)
  /\ FailedRequests (calculateAnalytics logs total)
     = failedRequests (fold_left process logs start)
  /\ UserMetrics (calculateAnalytics logs total)
     = userMetricsMap (fold_left process logs start)
  /\ HourlyRequests (calculateAnalytics logs total)
     = hourlyMetricsMap (fold_left process logs start)
  /\ TotalRequests (calculateAnalytics logs total) = total.
Proof. destruct logs as [|log rest]; [done|]. intros _. repeat split. Qed.

Lemma loop_counters (logs : list UsageLog) :
  Z.of_nat (List.length logs) <= Go.max_int64 ->
  successfulRequests (fold_left process logs start) = countWhere Success logs
  /\ failedRequests (fold_left process logs start)
     = countWhere (fun log => negb (Success log)) logs.
Proof.
  induction logs as [|log logs IH] using rev_ind; intros Hlen; [done|].
  rewrite List.length_app in Hlen. cbn [List.length] in Hlen.
  destruct IH as [IHs IHf]; [lia|].
  rewrite process_last, !countWhere_app.
  destruct (process_fields (fold_left process logs start) log) as (-> & -> & _ & _).
  rewrite IHs, IHf.
  pose proof (countWhere_bounds Success logs).
  pose proof (countWhere_bounds (fun log => negb (Success log)) logs).
  destruct (Success log); cbn [negb]; rewrite ?Z.add_0_r;
    (split; [|]); try reflexivity;
    apply int_add_small; unfold Go.in_int64, Go.min_int64, Go.max_int64 in *; lia.
Qed.

(** X23. Of a page of logs that is not empty, the aggregation reports as
    successful the logs marked successful and as failed the others, so that
    the two numbers add up to the length of the page; the total it reports is
    the one it was given. *)
Theorem calculateAnalytics_counts (logs : list UsageLog) (total : Z) :
  logs <> [] ->
  Z.of_nat (List.length logs) <= Go.max_int64 ->
  SuccessfulRequests (calculateAnalytics logs total) = countWhere Success logs
  /\ FailedRequests (calculateAnalytics logs total)
     = countWhere (fun log => negb (Success log)) logs
  /\ SuccessfulRequests (calculateAnalytics logs total)
     + FailedRequests (calculateAnalytics logs total) = Z.of_nat (List.length logs)
  /\ TotalRequests (calculateAnalytics logs total) = total.
Proof.
  intros Hne Hlen.
  destruct (calculateAnalytics_nonempty logs total Hne) as (-> & -> & _ & _ & ->).
  destruct (loop_counters logs Hlen) as [-> ->].
  repeat split. unfold countWhere. clear Hne Hlen.
  induction logs as [|log logs IH]; [reflexivity|].
  cbn [List.filter List.length]. destruct (Success log); cbn [negb List.length]; lia.
Qed.

(** X24. For every user the aggregation holds a metric exactly when the
    page has a log of the user; the metric carries the user's id, counts the
    user's logs, and its last request is not before any of them. *)
Theorem calculateAnalytics_user_metrics (logs : list UsageLog) (total : Z) (user : Z) :
  logs <> [] ->
  Z.of_nat (List.length logs) <= Go.max_int64 ->
  match UserMetrics (calculateAnalytics logs total) !! user with
  | Some metric =>
      MetricUserID metric = user
      /\ Requests metric = countWhere (ofUser user) logs
      /\ 0 < Requests metric
      /\ Forall (fun log => ofUser user log = true ->
                   Time.unixNano (CreatedAt log) <= Time.unixNano (LastRequest metric)) logs
  | None => countWhere (ofUser user) logs = 0
  end.
Proof.
  intros Hne Hlen.
  destruct (calculateAnalytics_nonempty logs total Hne) as (_ & _ & -> & _ & _).
  clear Hne. induction logs as [|log logs IH] using rev_ind; [done|].
  rewrite List.length_app in Hlen. cbn [List.length] in Hlen.
  specialize (IH ltac:(lia)).
  rewrite process_last, countWhere_app.
  destruct (process_fields (fold_left process logs start) log) as (_ & _ & -> & _).
  pose proof (countWhere_bounds (ofUser user) logs) as Hb.
  assert (Hof : ofUser user log = (UserID log =? user)) by reflexivity.
  rewrite Hof. clear Hof. unfold countUser.
  destruct (Z.eqb_spec (UserID log) user) as [Hu|Hu].
  - subst user.
    destruct (userMetricsMap (fold_left process logs start) !! UserID log) as [metric|].
    + rewrite lookup_insert_eq. cbn [MetricUserID Requests LastRequest].
      destruct IH as (Hid & Hreq & Hpos & Hlast).
      rewrite int_add_small
        by (unfold Go.in_int64, Go.min_int64, Go.max_int64 in *; lia).
      split; [exact Hid|]. split; [lia|]. split; [lia|].
      apply Forall_app. split.
      * eapply List.Forall_impl; [|exact Hlast]. intros other Ho Hother. specialize (Ho Hother).
        unfold After. destruct (Z.ltb_spec (Time.unixNano (LastRequest metric))
                                  (Time.unixNano (CreatedAt log))); lia.
      * constructor; [|constructor]. intros _. unfold After.
        destruct (Z.ltb_spec (Time.unixNano (LastRequest metric))
                    (Time.unixNano (CreatedAt log))); lia.
    + rewrite lookup_insert_eq. cbn [MetricUserID Requests LastRequest].
      split; [reflexivity|]. split; [lia|]. split; [lia|].
      apply Forall_app. split.
      * apply List.Forall_forall. intros other Hin Hother. exfalso.
        unfold countWhere in IH.
        assert (Hin' : In other (List.filter (ofUser (UserID log)) logs)).
        { apply List.filter_In. split; [exact Hin | exact Hother]. }
        destruct (List.filter (ofUser (UserID log)) logs); [destruct Hin'|discriminate IH].
      * constructor; [|constructor]. intros _. lia.
  - assert (Hl : forall m v, (<[UserID log := v]> m : gmap Z UserMetric) !! user = m !! user)
      by (intros; by rewrite lookup_insert_ne).
    destruct (userMetricsMap (fold_left process logs start) !! UserID log) as [other|];
      rewrite Hl, Z.add_0_r;
      (destruct (userMetricsMap (fold_left process logs start) !! user) as [metric|];
       [|exact IH]);
      destruct IH as (Hid & Hreq & Hpos & Hlast);
      (split; [exact Hid|]); (split; [exact Hreq|]); (split; [exact Hpos|]);
      (apply Forall_app; split; [exact Hlast|]);
      (constructor; [|constructor]); unfold ofUser; intros Heq;
      apply Z.eqb_eq in Heq; contradiction.
Qed.

Lemma HourOf_bounds (t : Time.Time) : 0 <= HourOf t < 24.
Proof.
  unfold HourOf.
  pose proof (Z.mod_pos_bound (Time.localSeconds t) 86400 ltac:(lia)) as Hm.
  split; [apply Z.div_pos; lia | apply Z.div_lt_upper_bound; lia].
Qed.

(** X25. The hourly metrics are kept under the hours 0 to 23 of the logs,
    as the location of each log shows them: an hour has a metric exactly when
    a log of the page falls in it, and the metric counts those logs. *)
Theorem calculateAnalytics_hourly_metrics (logs : list UsageLog) (total : Z) (hour : Z) :
  logs <> [] ->
  Z.of_nat (List.length logs) <= Go.max_int64 ->
  match HourlyRequests (calculateAnalytics logs total) !! hour with
  | Some metric =>
      Hour metric = hour /\ 0 <= hour < 24
      /\ HourlyRequestCount metric = countWhere (inHour hour) logs
      /\ 0 < HourlyRequestCount metric
  | None => countWhere (inHour hour) logs = 0
  end.
Proof.
  intros Hne Hlen.
  destruct (calculateAnalytics_nonempty logs total Hne) as (_ & _ & _ & -> & _).
  clear Hne. induction logs as [|log logs IH] using rev_ind; [done|].
  rewrite List.length_app in Hlen. cbn [List.length] in Hlen.
  specialize (IH ltac:(lia)).
  rewrite process_last, countWhere_app.
  destruct (process_fields (fold_left process logs start) log) as (_ & _ & _ & ->).
  pose proof (countWhere_bounds (inHour hour) logs) as Hb.
  assert (Hof : inHour hour log = (HourOf (CreatedAt log) =? hour)) by reflexivity.
  rewrite Hof. clear Hof. unfold countHour.
  destruct (Z.eqb_spec (HourOf (CreatedAt log)) hour) as [Hh|Hh].
  - pose proof (HourOf_bounds (CreatedAt log)) as Hrange. rewrite Hh in *.
    destruct (hourlyMetricsMap (fold_left process logs start) !! hour) as [metric|].
    + rewrite lookup_insert_eq. cbn [Hour HourlyRequestCount].
      destruct IH as (Hid & _ & Hreq & Hpos).
      rewrite int_add_small
        by (unfold Go.in_int64, Go.min_int64, Go.max_int64 in *; lia).
      repeat split; lia.
    + rewrite lookup_insert_eq. cbn [Hour HourlyRequestCount]. repeat split; lia.
  - assert (Hl : forall m v,
               (<[HourOf (CreatedAt log) := v]> m : gmap Z HourlyMetric) !! hour = m !! hour)
      by (intros; by rewrite lookup_insert_ne).
    destruct (hourlyMetricsMap (fold_left process logs start) !! HourOf (CreatedAt log));
      rewrite Hl, Z.add_0_r; exact IH.
Qed.

End AnalyticsProperties.

Section AnalyticsWitnesses.
Import Analytics.

Lemma calculateAnalytics_counts_witness :
  SuccessfulRequests (calculateAnalytics sample_usages 40) = 2
  /\ FailedRequests (calculateAnalytics sample_usages 40) = 1
  /\ TotalRequests (calculateAnalytics sample_usages 40) = 40.
Proof.
  destruct (calculateAnalytics_counts sample_usages 40 ltac:(discriminate)
              ltac:(vm_compute; discriminate)) as (Hs & Hf & _ & Ht).
  split; [rewrite Hs; reflexivity | split; [rewrite Hf; reflexivity | exact Ht]].
Defined.

Lemma calculateAnalytics_user_metrics_witness :
  match UserMetrics (calculateAnalytics sample_usages 40) !! 1 with
  | Some metric => Requests metric = 2
  | None => False
  end.
Proof.
  pose proof (calculateAnalytics_user_metrics sample_usages 40 1 ltac:(discriminate)
                ltac:(vm_compute; discriminate)) as H.
  destruct (UserMetrics (calculateAnalytics sample_usages 40) !! 1) as [metric|].
  - destruct H as (_ & Hreq & _). rewrite Hreq. reflexivity.
  - discriminate H.
Defined.

Lemma calculateAnalytics_hourly_metrics_witness :
  match HourlyRequests (calculateAnalytics sample_usages 40) !! 3 with
  | Some metric => HourlyRequestCount metric = 2
  | None => False
  end.
Proof.
  pose proof (calculateAnalytics_hourly_metrics sample_usages 40 3 ltac:(discriminate)
                ltac:(vm_compute; discriminate)) as H.
  destruct (HourlyRequests (calculateAnalytics sample_usages 40) !! 3) as [metric|].
  - destruct H as (_ & _ & Hreq & _). rewrite Hreq. reflexivity.
  - discriminate H.
Defined.

(** An empty page reports the total it was given and nothing else; the day
    of a log is written with four, two and two digits. *)
Example calculateAnalytics_empty_page :
  TotalRequests (calculateAnalytics [] 40) = 40
  /\ SuccessfulRequests (calculateAnalytics [] 40) = 0
  /\ formatDate sample_now = "2024-01-15"
  /\ HourOf sample_now = 3 /\ HourOf sample_now_utc = 19.
Proof. repeat split; reflexivity. Qed.

End AnalyticsWitnesses.

(** ** The rate read from the environment, and the gate without Redis *)

Section ConfigProperties.
Import RateLimit Config.

Lemma serve_window (requests : list (Time.Time * string)) (rl : RateLimiter) :
  window (snd (serve rl requests)) = window rl.
Proof.
  revert rl. induction requests as [|[now ip] rest IH]; intros rl; [reflexivity|].
  cbn [serve]. destruct (Allow_rate rl now ip) as [_ Hw].
  destruct (Allow rl now ip) as [ok rl1]. cbn [snd] in Hw.
  specialize (IH rl1). destruct (serve rl1 rest) as [oks rl2]. cbn [snd] in *. congruence.
Qed.

(** X26. A rate of zero or less in RATE_LIMIT_RPS is taken as it is, and
    the limiter built from it lets an address through exactly when the
    request opens a window: the address is new, was idle for more than a
    minute, or its window has passed. *)
Theorem nonpositive_rate_from_environment (env : gmap string string) (z : Z)
    (requests : list (Time.Time * string)) (now : Time.Time) (ip : string) :
  env !! "RATE_LIMIT_RPS" = Some (JSON.Itoa z) ->
  Go.in_int64 z -> z <= 0 ->
  RateLimitRPS env = z
  /\ fst (Allow (snd (serve (NewRateLimiter (RateLimitRPS env)) requests)) now ip)
     = match visitors (snd (serve (NewRateLimiter (RateLimitRPS env)) requests)) !! ip with
       | None => true
       | Some visitor =>
           (Time.Minute <? Sub now (lastSeen visitor))
           || (Time.Second <=? Sub now (windowStart visitor))
       end.
Proof.
  intros Henv Hr Hz.
  assert (Hrate : RateLimitRPS env = z).
  { assert (Hne : String.eqb (JSON.Itoa z) "" = false).
    { destruct (Itoa_head z) as (d & r & -> & _). reflexivity. }
    unfold RateLimitRPS, getEnvIntOrDefault, Getenv. rewrite Henv. cbn [from_option id]. cbv zeta.
    by rewrite Hne, (Atoi_Itoa z Hr). }
  split; [exact Hrate|]. rewrite Hrate.
  destruct (serve_countsBounded requests (NewRateLimiter z) Hr) as [Hb Hsame].
  { intros ip' v' Hl. cbn in Hl. by rewrite lookup_empty in Hl. }
  pose proof (serve_window requests (NewRateLimiter z)) as Hwin.
  cbn [window NewRateLimiter] in Hwin.
  set (rl := snd (serve (NewRateLimiter z) requests)) in *.
  unfold Allow. destruct (visitors rl !! ip) as [visitor|] eqn:Hv; [|reflexivity].
  specialize (Hb ip visitor Hv). rewrite Hsame in Hb. cbn [rate NewRateLimiter] in Hb.
  rewrite Hwin, Hsame. cbn [rate NewRateLimiter].
  destruct (Time.Minute <? Sub now (lastSeen visitor)); [reflexivity|].
  destruct (Time.Second <=? Sub now (windowStart visitor)); [reflexivity|].
  destruct (Z.leb_spec z (count visitor)); [reflexivity | lia].
Qed.

End ConfigProperties.

Section NoRedisProperties.
Import Models Cache LLM.

(** X27. With no Redis client, as the server builds the service, a call the
    gate accepts leaves the cache as it is and returns the key of the store
    with its key value; if the key has a limit, the counts the call was
    checked on are the counts of the store at that moment. *)
Theorem gate_without_redis (db : Store) (now : Time.Time) (apiKey : string)
    (ctx : LLMRequestContext) (c' : CacheService) :
  ValidateAPIKeyOptimized {| redis := None |} db now apiKey = (Ok ctx, c') ->
  c' = {| redis := None |}
  /\ exists key,
       firstActiveKey db apiKey = Some key
       /\ ctx = requestContext now key
       /\ KeyValue (ContextAPIKey ctx) = apiKey
       /\ (0 < DailyRequestLimit key \/ 0 < MonthlyRequestLimit key ->
           exists usage, getBatchUsageFromDB db now (ID key) = Some usage
                         /\ checkLimits now key usage = Ok ctx).
Proof.
  intros Hv. unfold ValidateAPIKeyOptimized, GetAPIKey in Hv. cbn [redis] in Hv.
  destruct (firstActiveKey db apiKey) as [key|] eqn:Hdb; [|discriminate Hv].
  assert (Hgo : validateUsageLimitsOptimized {| redis := None |} db now key = (Ok ctx, c')).
  { unfold SetAPIKey in Hv. cbn [redis] in Hv.
    destruct (ExpiresAt key) as [e|]; [|exact Hv].
    destruct (Time.Before e now); [discriminate Hv | exact Hv]. }
  clear Hv.
  pose proof (validateUsageLimitsOptimized_Ok {| redis := None |} db now key ctx) as Hctx.
  rewrite Hgo in Hctx. specialize (Hctx eq_refl).
  unfold validateUsageLimitsOptimized, readUsage, GetUsageCount, SetUsageCount in Hgo.
  cbn [redis] in Hgo.
  destruct ((0 <? DailyRequestLimit key) || (0 <? MonthlyRequestLimit key)) eqn:Hl.
  - destruct (getBatchUsageFromDB db now (ID key)) as [usage|] eqn:Hu; [|discriminate Hgo].
    injection Hgo as Hcheck <-. split; [reflexivity|].
    exists key. split; [reflexivity|]. split; [exact Hctx|]. split.
    + subst ctx. cbn [requestContext ContextAPIKey]. by apply (firstActiveKey_KeyValue db).
    + intros _. exists usage. by split.
  - injection Hgo as _ <-. split; [reflexivity|].
    exists key. split; [reflexivity|]. split; [exact Hctx|]. split.
    + subst ctx. cbn [requestContext ContextAPIKey]. by apply (firstActiveKey_KeyValue db).
    + intros Hlim. exfalso. apply orb_false_iff in Hl as [Hd Hm].
      apply Z.ltb_ge in Hd. apply Z.ltb_ge in Hm. lia.
Qed.

End NoRedisProperties.

Section ConfigWitnesses.
Import Models Cache LLM.

Lemma nonpositive_rate_from_environment_witness :
  Config.RateLimitRPS {[ "RATE_LIMIT_RPS" := "0" ]} = 0
  /\ fst (RateLimit.serve (RateLimit.NewRateLimiter 0) burst)
     = [true; true; false; false; false].
Proof.
  destruct (nonpositive_rate_from_environment {[ "RATE_LIMIT_RPS" := "0" ]} 0 [] (clock 0)
              "10.0.0.1") as [Hrate _];
    [ reflexivity | split; vm_compute; discriminate | vm_compute; discriminate | ].
  split; [exact Hrate | reflexivity].
Defined.

Lemma gate_without_redis_witness :
  exists key,
    firstActiveKey (sample_store four_calls_today) "sk-test" = Some key
    /\ KeyValue key = "sk-test".
Proof.
  destruct (gate_without_redis (sample_store four_calls_today) sample_now "sk-test"
              (requestContext sample_now (sample_key 5 0)) {| redis := None |})
    as (_ & key & Hdb & Hctx & Hkv & _);
    [ vm_compute; reflexivity | ].
  exists key. split; [exact Hdb|]. rewrite Hctx in Hkv. exact Hkv.
Defined.

End ConfigWitnesses.
